(** * Hashflow RFQ integration: price-level curve, restriction cache,
      slippage guard and price-response validation.

    Shallow embedding of [src/dex/hashflow/hashflow.ts] and
    [src/dex/generic-rfq/validators.ts].  *)

From Stdlib Require Import ZArith QArith Qround Qpower List String Ascii Bool.
From Stdlib Require Import Lia Lqa.
From Stdlib Require Import DecimalString.
From stdpp Require Import base gmap strings.
Import ListNotations.

Local Open Scope Z_scope.

(** ** bignumber.js values

    A [BigNumber] is NaN, a signed infinity or a finite decimal.  Finite
    values are kept as reduced fractions ([Qred] after every operation), so
    that equal values are equal terms.  [plus], [minus] and [multipliedBy]
    are exact in bignumber.js; [dividedBy] rounds to DECIMAL_PLACES (20)
    places with ROUNDING_MODE ROUND_HALF_UP (the library defaults).  The two
    zeros of bignumber.js are identified. *)

Inductive BigNumber : Type :=
  | BN_NaN : BigNumber
  | BN_Inf (negative : bool) : BigNumber
  | BN (q : Q) : BigNumber.

Module BigNum.

Definition isZeroQ (q : Q) : bool := Z.eqb (Qnum q) 0.
Definition isNegQ (q : Q) : bool := Z.ltb (Qnum q) 0.

(** ROUND_HALF_UP: to the nearest integer, ties away from zero. *)
Definition round_half_up (q : Q) : Z :=
  if isNegQ q then - Qfloor (Qopp q + (1 # 2)) else Qfloor (q + (1 # 2)).

Definition DECIMAL_PLACES : Z := 20.

Definition round_dp (q : Q) : Q :=
  Qred (inject_Z (round_half_up (q * inject_Z (10 ^ DECIMAL_PLACES)))
        / inject_Z (10 ^ DECIMAL_PLACES)).

Definition negated (a : BigNumber) : BigNumber :=
  match a with
  | BN_NaN => BN_NaN
  | BN_Inf s => BN_Inf (negb s)
  | BN q => BN (Qred (Qopp q))
  end.

Definition plus (a b : BigNumber) : BigNumber :=
  match a, b with
  | BN_NaN, _ | _, BN_NaN => BN_NaN
  | BN_Inf s, BN_Inf s' => if Bool.eqb s s' then BN_Inf s else BN_NaN
  | BN_Inf s, BN _ | BN _, BN_Inf s => BN_Inf s
  | BN x, BN y => BN (Qred (x + y))
  end.

Definition minus (a b : BigNumber) : BigNumber :=
  match a, b with
  | BN_NaN, _ | _, BN_NaN => BN_NaN
  | BN_Inf s, BN_Inf s' => if Bool.eqb s s' then BN_NaN else BN_Inf s
  | BN_Inf s, BN _ => BN_Inf s
  | BN _, BN_Inf s => BN_Inf (negb s)
  | BN x, BN y => BN (Qred (x - y))
  end.

Definition multipliedBy (a b : BigNumber) : BigNumber :=
  match a, b with
  | BN_NaN, _ | _, BN_NaN => BN_NaN
  | BN_Inf s, BN_Inf s' => BN_Inf (xorb s s')
  | BN_Inf s, BN y | BN y, BN_Inf s =>
      if isZeroQ y then BN_NaN else BN_Inf (xorb s (isNegQ y))
  | BN x, BN y => BN (Qred (x * y))
  end.

Definition times := multipliedBy.

Definition dividedBy (a b : BigNumber) : BigNumber :=
  match a, b with
  | BN_NaN, _ | _, BN_NaN => BN_NaN
  | BN_Inf _, BN_Inf _ => BN_NaN
  | BN_Inf s, BN y => BN_Inf (xorb s (isNegQ y))
  | BN _, BN_Inf _ => BN 0
  | BN x, BN y =>
      if isZeroQ y then (if isZeroQ x then BN_NaN else BN_Inf (isNegQ x))
      else BN (round_dp (x / y))
  end.

(** [comparedTo]: [None] is the library's [null] (an operand is NaN). *)
Definition comparedTo (a b : BigNumber) : option comparison :=
  match a, b with
  | BN_NaN, _ | _, BN_NaN => None
  | BN_Inf s, BN_Inf s' =>
      Some (if Bool.eqb s s' then Eq else if s then Lt else Gt)
  | BN_Inf s, BN _ => Some (if s then Lt else Gt)
  | BN _, BN_Inf s => Some (if s then Gt else Lt)
  | BN x, BN y => Some (Qcompare x y)
  end.

Definition lt (a b : BigNumber) : bool :=
  match comparedTo a b with Some Lt => true | _ => false end.
Definition lte (a b : BigNumber) : bool :=
  match comparedTo a b with Some Lt | Some Eq => true | _ => false end.
Definition gt (a b : BigNumber) : bool :=
  match comparedTo a b with Some Gt => true | _ => false end.
Definition gte (a b : BigNumber) : bool :=
  match comparedTo a b with Some Gt | Some Eq => true | _ => false end.

Definition isZero (a : BigNumber) : bool :=
  match a with BN q => isZeroQ q | _ => false end.

Definition isNaN (a : BigNumber) : bool :=
  match a with BN_NaN => true | _ => false end.

(** [BigInt(x.toFixed(0))]: the decimal string of [x] rounded to an
    integer (ROUND_HALF_UP) read back as a bigint; "NaN" and "Infinity"
    make [BigInt] throw a SyntaxError, rendered as [None]. *)
Definition toFixed0_BigInt (a : BigNumber) : option Z :=
  match a with
  | BN q => Some (round_half_up q)
  | _ => None
  end.

Definition ofZ (z : Z) : BigNumber := BN (inject_Z z).

End BigNum.

Definition BN_0 : BigNumber := BN 0.
Definition BN_1 : BigNumber := BN 1.

(** ** Reading plain decimal literals

    [decimalBigNumber] agrees with [new BigNumber(str)] on the literals
    [-?(digits(.digits?)?|.digits)]; bignumber.js additionally reads
    exponents, radix prefixes, surrounding blanks and "Infinity", which
    the development keeps abstract (section variable [newBigNumber]). *)

Definition digit_of_ascii (c : ascii) : option Z :=
  let n := Z.of_nat (nat_of_ascii c) in
  if (48 <=? n) && (n <=? 57) then Some (n - 48) else None.

(** Reads a maximal run of digits: value so far, digits read, rest. *)
Fixpoint read_digits (s : string) (acc : Z) (count : nat) : Z * nat * string :=
  match s with
  | String c s' =>
      match digit_of_ascii c with
      | Some d => read_digits s' (10 * acc + d) (S count)
      | None => (acc, count, s)
      end
  | EmptyString => (acc, count, s)
  end.

Definition decimal_unsigned (s : string) : option Q :=
  let '(ip, n, rest) := read_digits s 0 0%nat in
  match rest with
  | EmptyString => if Nat.eqb n 0 then None else Some (inject_Z ip)
  | String "."%char rest' =>
      let '(fp, m, rest'') := read_digits rest' 0 0%nat in
      match rest'' with
      | EmptyString =>
          if Nat.eqb n 0 && Nat.eqb m 0 then None
          else Some (Qred (Qmake (ip * 10 ^ Z.of_nat m + fp)
                                 (Z.to_pos (10 ^ Z.of_nat m))))
      | _ => None
      end
  | _ => None
  end.

Definition decimalBigNumber (s : string) : BigNumber :=
  match s with
  | String "-"%char s' =>
      match decimal_unsigned s' with
      | Some q => BN (Qred (Qopp q))
      | None => BN_NaN
      end
  | _ =>
      match decimal_unsigned s with
      | Some q => BN q
      | None => BN_NaN
      end
  end.

(** ** JavaScript strings and completions

    Strings are byte strings; [toLowerCase] maps the ASCII letters and
    leaves every other character as it is.  It is JavaScript's
    [toLowerCase] on ASCII strings ([isASCII] below), which the exchange
    names, addresses and maker ids handled here are; JavaScript also maps
    the letters outside ASCII, so what is stated of strings in general
    holds of the ASCII ones. *)

Definition lower_ascii (c : ascii) : ascii :=
  let n := nat_of_ascii c in
  if (Nat.leb 65 n && Nat.leb n 90)%bool then ascii_of_nat (n + 32) else c.

Fixpoint toLowerCase (s : string) : string :=
  match s with
  | EmptyString => EmptyString
  | String c s' => String (lower_ascii c) (toLowerCase s')
  end.

Definition endsWith (s suffix : string) : bool :=
  String.prefix (String.rev suffix) (String.rev s).

(** [s.split(sep)] for a non-empty separator: the leftmost occurrences,
    not overlapping.  [skip] counts the characters of a separator still to
    be passed over, [cur] is the piece being collected. *)
Fixpoint split_from (sep s : string) (skip : nat) (cur : string) : list string :=
  match s with
  | EmptyString => [cur]
  | String c s' =>
      match skip with
      | S k => split_from sep s' k cur
      | O =>
          if String.prefix sep s
          then cur :: split_from sep s' (String.length sep - 1) EmptyString
          else split_from sep s' O (cur +:+ String c EmptyString)
      end
  end.

Fixpoint chars (s : string) : list string :=
  match s with
  | EmptyString => []
  | String c s' => String c EmptyString :: chars s'
  end.

Definition split (sep s : string) : list string :=
  match sep with
  | EmptyString => chars s
  | _ => split_from sep s O EmptyString
  end.

(** [arr.pop()]; [None] is [undefined] (empty array). *)
Definition pop (l : list string) : option string := List.last (map Some l) None.

Definition Z_to_string (z : Z) : string := NilZero.string_of_int (Z.to_int z).

Inductive ErrorClass : Type :=
  | PlainError | RfqError | SlippageCheckError | AssertionError | SyntaxError.

Record JsError : Type := { errClass : ErrorClass; message : string }.

Inductive Completion (A : Type) : Type :=
  | Normal (a : A)
  | Throw (e : JsError).
Arguments Normal {A} a.
Arguments Throw {A} e.

(** ** Price levels (hashflow/types.ts: [PriceLevel]) *)

Record PriceLevel : Type := { level : string; price : string }.

Record PriceLevelBN : Type := { levelBN : BigNumber; priceBN : BigNumber }.

Record Quote : Type := { baseAmount : BigNumber; quoteAmount : BigNumber }.

Inductive SwapSide : Type := SELL | BUY.

Record Token : Type := { address : string; decimals : Z }.

Section Curve.

(** The bignumber.js constructor on strings. *)
Variable newBigNumber : string -> BigNumber.

Definition toPriceLevelsBN (priceLevels : list PriceLevel) : list PriceLevelBN :=
  map (fun l => {| levelBN := newBigNumber (level l);
                   priceBN := newBigNumber (price l) |}) priceLevels.

(** [req && req.cmp(bound)] for an optional request parameter. *)
Definition andThen (req : option BigNumber) (test : BigNumber -> bool) : bool :=
  match req with
  | Some r => test r
  | None => false
  end.

(** The [for (i = 1; ...)] loop of [computeLevelsQuote]: [prev] is
    [levels[i - 1]], [rest] is [levels[i..]], [quote] the running
    cumulative amounts. *)
Fixpoint levelsLoop (reqBaseAmount reqQuoteAmount : option BigNumber)
    (prev : PriceLevelBN) (rest : list PriceLevelBN) (quote : Quote)
    : option BigNumber :=
  match rest with
  | [] => None
  | nextLevel :: rest' =>
      let nextLevelDepth := BigNum.minus (levelBN nextLevel) (levelBN prev) in
      let nextLevelQuote :=
        BigNum.plus (quoteAmount quote)
                    (BigNum.multipliedBy nextLevelDepth (priceBN nextLevel)) in
      let next_iteration :=
        levelsLoop reqBaseAmount reqQuoteAmount nextLevel rest'
          {| baseAmount := levelBN nextLevel; quoteAmount := nextLevelQuote |} in
      let quote_branch :=
        match reqQuoteAmount with
        | Some rq =>
            if BigNum.lte rq nextLevelQuote then
              let quoteDifference := BigNum.minus rq (quoteAmount quote) in
              Some (BigNum.plus (baseAmount quote)
                      (BigNum.dividedBy quoteDifference (priceBN nextLevel)))
            else next_iteration
        | None => next_iteration
        end in
      match reqBaseAmount with
      | Some rb =>
          if BigNum.lte rb (levelBN nextLevel) then
            let baseDifference := BigNum.minus rb (baseAmount quote) in
            Some (BigNum.plus (quoteAmount quote)
                    (BigNum.multipliedBy baseDifference (priceBN nextLevel)))
          else quote_branch
      | None => quote_branch
      end
  end.

Definition computeLevelsQuote (priceLevels : list PriceLevel)
    (reqBaseAmount reqQuoteAmount : option BigNumber) : option BigNumber :=
  match reqBaseAmount, reqQuoteAmount with
  | Some _, Some _ => None
  | _, _ =>
      match toPriceLevelsBN priceLevels with
      | [] => None
      | level0 :: rest =>
          let quote :=
            {| baseAmount := levelBN level0;
               quoteAmount := BigNum.multipliedBy (levelBN level0) (priceBN level0) |} in
          if andThen reqBaseAmount (fun r => BigNum.lt r (baseAmount quote))
             || andThen reqQuoteAmount (fun r => BigNum.lt r (quoteAmount quote))
          then None
          else levelsLoop reqBaseAmount reqQuoteAmount level0 rest quote
      end
  end.

(** *** computePricesFromLevels

    [levels.unshift] updates the caller's array in place: the function
    returns the array as the caller sees it afterwards together with its
    result. *)

Definition addZeroLevel (levels : list PriceLevel) : list PriceLevel :=
  match levels with
  | [] => levels
  | firstLevel :: _ =>
      if BigNum.gt (newBigNumber (level firstLevel)) (BN 0)
      then {| level := "0"; price := price firstLevel |} :: levels
      else levels
  end.

Definition quoteForSide (levels : list PriceLevel) (side : SwapSide)
    (amount : BigNumber) : option BigNumber :=
  match side with
  | SELL => computeLevelsQuote levels (Some amount) None
  | BUY => computeLevelsQuote levels None (Some amount)
  end.

(** The [for ... of amounts.entries()] loop.  [outputs] starts filled
    with [BN_0]; [break] leaves the remaining entries at that value.  The
    second component counts the calls of [computeLevelsQuote]. *)
Fixpoint outputsLoop (levels : list PriceLevel) (side : SwapSide)
    (amounts : list BigNumber) : list BigNumber * nat :=
  match amounts with
  | [] => ([], 0%nat)
  | amount :: rest =>
      if BigNum.isZero amount then
        let '(outputs, calls) := outputsLoop levels side rest in
        (BN_0 :: outputs, calls)
      else
        match quoteForSide levels side amount with
        | None => (repeat BN_0 (List.length amounts), 1%nat)
        | Some output =>
            let '(outputs, calls) := outputsLoop levels side rest in
            (output :: outputs, S calls)
        end
  end.

(** Modelled from the spec: [getBigNumberPow] of
    [src/bignumber-constants.ts] (not among the sources), the token's
    decimal power [10 ^ decimals]. *)
Definition getBigNumberPow (decimals : Z) : BigNumber :=
  BN (Qred (Qpower 10 decimals)).

(** [BigInt(o.multipliedBy(getBigNumberPow(decimals)).toFixed(0))] *)
Definition toBigInt (decimals : Z) (o : BigNumber) : Completion Z :=
  match BigNum.toFixed0_BigInt
          (BigNum.multipliedBy o (getBigNumberPow decimals)) with
  | Some z => Normal z
  | None =>
      Throw {| errClass := SyntaxError;
               message := "Cannot convert a non-finite number to a BigInt" |}
  end.

Fixpoint toBigInts (decimals : Z) (outputs : list BigNumber)
    : Completion (list Z) :=
  match outputs with
  | [] => Normal []
  | o :: rest =>
      match toBigInt decimals o with
      | Throw e => Throw e
      | Normal z =>
          match toBigInts decimals rest with
          | Throw e => Throw e
          | Normal zs => Normal (z :: zs)
          end
      end
  end.

(** Result: the caller's [levels] after the call, and the returned
    bigints (or the error of [BigInt] on a non-finite output). *)
Definition computePricesFromLevels (amounts : list BigNumber)
    (levels : list PriceLevel) (srcToken destToken : Token) (side : SwapSide)
    : list PriceLevel * Completion (list Z) :=
  let levels' := addZeroLevel levels in
  let outputs := fst (outputsLoop levels' side amounts) in
  let decimals :=
    match side with SELL => decimals destToken | BUY => decimals srcToken end in
  (levels', toBigInts decimals outputs).

(** Number of curve evaluations made by one call. *)
Definition curveEvaluations (amounts : list BigNumber)
    (levels : list PriceLevel) (side : SwapSide) : nat :=
  snd (outputsLoop (addZeroLevel levels) side amounts).

End Curve.

(** ** Market-maker quote set ([PriceLevelsResponse['levels']]) *)

Record Pair : Type := {
  baseToken : string;
  baseTokenName : string;
  quoteToken : string;
  quoteTokenName : string;
  baseTokenDecimals : Z;
  quoteTokenDecimals : Z
}.

Record LevelsEntry : Type := { pair : Pair; levels : list PriceLevel }.

(** A JavaScript object used as a map, in the order of [Object.keys]. *)
Definition LevelsMap : Type := list (string * list LevelsEntry).

Definition keys {V : Type} (m : list (string * V)) : list string := map fst m.

Fixpoint lookupKey {V : Type} (m : list (string * V)) (k : string) : option V :=
  match m with
  | [] => None
  | (k', v) :: m' => if String.eqb k' k then Some v else lookupKey m' k
  end.

Record PoolPrices : Type := {
  gasCost : Z;
  exchange : string;
  data_mm : string;
  prices : list Z;
  unit : option Z;
  poolIdentifier : string;
  poolAddresses : list string
}.

Section Pools.

Variable newBigNumber : string -> BigNumber.
(** Fields of the [Hashflow] instance. *)
Variable dexKey : string.
Variable routerAddress : string.
(** [ETHER_ADDRESS] of [src/constants.ts] and [ZERO_ADDRESS] of the
    Hashflow SDK. *)
Variable ETHER_ADDRESS ZERO_ADDRESS : string.

Definition getPairName (srcAddress destAddress : string) : string :=
  toLowerCase (srcAddress +:+ "_" +:+ destAddress).

Definition getIdentifierPrefix (srcAddress destAddress : string) : string :=
  toLowerCase (dexKey +:+ "_" +:+ getPairName srcAddress destAddress).

Definition getPoolIdentifier (srcAddress destAddress mm : string) : string :=
  toLowerCase (getIdentifierPrefix srcAddress destAddress +:+ "_" +:+ mm).

Definition normalizeToken (token : Token) : Token :=
  {| address :=
       if String.eqb (toLowerCase (address token)) ETHER_ADDRESS
       then ZERO_ADDRESS
       else toLowerCase (address token);
     decimals := decimals token |}.

(** [levels] is what [getLevelsWithCache] resolved to. *)
Definition getPoolIdentifiers (levels : LevelsMap) (srcToken destToken : Token)
    : list string :=
  let normalizedSrcToken := normalizeToken srcToken in
  let normalizedDestToken := normalizeToken destToken in
  if String.eqb (address normalizedSrcToken) (address normalizedDestToken)
  then []
  else
    let makers := keys levels in
    map (fun m => getPoolIdentifier (address normalizedSrcToken)
                    (address normalizedDestToken) m)
      (List.filter
         (fun m =>
            let pairs :=
              match lookupKey levels m with
              | Some entries => map pair entries
              | None => []
              end in
            existsb
              (fun p =>
                 String.eqb (address normalizedSrcToken)
                            (toLowerCase (baseToken p))
                 && String.eqb (address normalizedDestToken)
                               (toLowerCase (quoteToken p)))
              pairs)
         makers).

(** [pools.map(p => p.split(`${prefix}_`).pop())] *)
Definition marketMakersToUse (prefix : string) (pools : list string)
    : list (option string) :=
  map (fun p => pop (split (prefix +:+ "_") p)) pools.

(** [arr.includes(x)] on an array of [string | undefined]. *)
Definition includes (arr : list (option string)) (x : string) : bool :=
  existsb (fun o => match o with Some y => String.eqb y x | None => false end) arr.

(** The per-maker part of [getPricesVolume]: both calls of
    [computePricesFromLevels] share the entry's [levels] array. *)
Definition poolPricesOf (normalizedSrcToken normalizedDestToken : Token)
    (amounts : list Z) (side : SwapSide) (mm : string)
    (entryLevels : list PriceLevel) : Completion PoolPrices :=
  let divider :=
    getBigNumberPow
      (match side with
       | SELL => decimals normalizedSrcToken
       | BUY => decimals normalizedDestToken
       end) in
  let amountsRaw :=
    map (fun a => BigNum.dividedBy (BigNum.ofZ a) divider) amounts in
  let '(levels1, unitPrices) :=
    computePricesFromLevels newBigNumber [BN_1] entryLevels
      normalizedSrcToken normalizedDestToken side in
  match unitPrices with
  | Throw e => Throw e
  | Normal unitPrices =>
      let '(_, prices) :=
        computePricesFromLevels newBigNumber amountsRaw levels1
          normalizedSrcToken normalizedDestToken side in
      match prices with
      | Throw e => Throw e
      | Normal prices =>
          Normal {| gasCost := 100000;
                    exchange := dexKey;
                    data_mm := mm;
                    prices := prices;
                    unit := List.head unitPrices;
                    poolIdentifier :=
                      getPoolIdentifier (address normalizedSrcToken)
                        (address normalizedDestToken) mm;
                    poolAddresses := [routerAddress] |}
      end
  end.

Fixpoint collect {A : Type} (l : list (Completion A)) : Completion (list A) :=
  match l with
  | [] => Normal []
  | Throw e :: _ => Throw e
  | Normal a :: rest =>
      match collect rest with
      | Throw e => Throw e
      | Normal rest' => Normal (a :: rest')
      end
  end.

(** [levelsMap] is what both calls of [getLevelsWithCache] resolved to
    (the cached quote set).  [Normal None] is the [null] result. *)
Definition getPricesVolume (levelsMap : LevelsMap) (srcToken destToken : Token)
    (amounts : list Z) (side : SwapSide) (limitPools : option (list string))
    : Completion (option (list PoolPrices)) :=
  let normalizedSrcToken := normalizeToken srcToken in
  let normalizedDestToken := normalizeToken destToken in
  if String.eqb (address normalizedSrcToken) (address normalizedDestToken)
  then Normal None
  else
    let prefix :=
      getIdentifierPrefix (address normalizedSrcToken)
                          (address normalizedDestToken) in
    let pools :=
      match limitPools with
      | Some pools => pools
      | None => getPoolIdentifiers levelsMap srcToken destToken
      end in
    let marketMakers := marketMakersToUse prefix pools in
    let levelsMap' :=
      List.filter (fun kv => includes marketMakers (fst kv)) levelsMap in
    let levelEntries :=
      flat_map
        (fun mm =>
           match lookupKey levelsMap' mm with
           | None => []
           | Some entries =>
               match
                 find (fun e =>
                         String.eqb
                           (baseToken (pair e) +:+ "_" +:+ quoteToken (pair e))
                           (getPairName (address normalizedSrcToken)
                                        (address normalizedDestToken)))
                      entries
               with
               | None => []
               | Some entry => [(mm, levels entry)]
               end
           end)
        (keys levelsMap') in
    match
      collect
        (map (fun lEntry =>
                poolPricesOf normalizedSrcToken normalizedDestToken amounts
                  side (fst lEntry) (snd lEntry))
             levelEntries)
    with
    | Throw e => Throw e
    | Normal prices => Normal (Some prices)
    end.

End Pools.

(** ** JavaScript numbers, as far as the restriction cache needs them

    A number is NaN, a signed infinity or a finite value (a double is a
    rational); [<] is exact on these. *)

Inductive JsNumber : Type :=
  | Num_NaN : JsNumber
  | Num_Inf (negative : bool) : JsNumber
  | Num (q : Q) : JsNumber.

Definition Number_lt (a b : JsNumber) : bool :=
  match a, b with
  | Num_NaN, _ | _, Num_NaN => false
  | Num_Inf s, Num_Inf s' => s && negb s'
  | Num_Inf s, Num _ => s
  | Num _, Num_Inf s => negb s
  | Num x, Num y => match Qcompare x y with Lt => true | _ => false end
  end.

(** The unary [+] on the strings [restrictMM] writes
    ([Date.now().toString()], an integer literal); any other string is
    read as NaN here, the section variable [toNumber] stands for the full
    coercion. *)
Definition integerToNumber (s : string) : JsNumber :=
  let digits s :=
    let '(n, count, rest) := read_digits s 0 0%nat in
    match rest with
    | EmptyString => if Nat.eqb count 0 then None else Some n
    | _ => None
    end in
  match s with
  | String "-"%char s' =>
      match digits s' with Some n => Num (inject_Z (- n)) | None => Num_NaN end
  | _ => match digits s with Some n => Num (inject_Z n) | None => Num_NaN end
  end.

(** ** The shared cache

    One hash per exchange and network holds the restricted makers; the
    other keys ([levels], [blacklist_<address>]) are written with a
    time-to-live, kept beside the value.  A [Cache] is the content of the
    cache at the time of a call: a key whose time-to-live has run out is
    no longer among its [entries].  The functions read and write that
    content; the time that passes between two calls shows as a different
    content at the second call. *)

Record Cache : Type := {
  restricted_mms : gmap string string;
  entries : gmap string (Z * string)
}.

Record Restrictions : Type := {
  restrictedMMs : gset string;
  toDelete : list string
}.

Section Restriction.

(** String to number coercion (unary [+]). *)
Variable toNumber : string -> JsNumber.
(** [HASHFLOW_MM_RESTRICT_TTL_S] of [hashflow/constants.ts]. *)
Variable HASHFLOW_MM_RESTRICT_TTL_S : Z.
(** [Date.now()] at the call. *)
Variable now : Z.

Definition expirationThreshold : JsNumber :=
  Num (inject_Z (now - HASHFLOW_MM_RESTRICT_TTL_S * 1000)).

(** Body of the [forEach] callback. *)
Definition visitEntry (acc : Restrictions) (entry : string * string)
    : Restrictions :=
  let '(mm, createdAt) := entry in
  if Number_lt (toNumber createdAt) expirationThreshold
  then {| restrictedMMs := restrictedMMs acc;
          toDelete := toDelete acc ++ [mm] |}
  else {| restrictedMMs := {[ mm ]} ∪ restrictedMMs acc;
          toDelete := toDelete acc |}.

Definition classify (cachedValues : gmap string string) : Restrictions :=
  fold_left visitEntry (map_to_list cachedValues)
    {| restrictedMMs := ∅; toDelete := [] |}.

(** Returns the restricted set and the [hdel] request made on the
    restriction hash, if any (the entries scheduled for deletion).  Log
    output is left out. *)
Definition parseCacheRestrictionAndExpiryIfNeeded
    (cachedValues : gmap string string) : gset string * option (list string) :=
  let r := classify cachedValues in
  (restrictedMMs r,
   match toDelete r with
   | [] => None
   | _ => Some (toDelete r)
   end).

(** [hdel] once it has run. *)
Definition hdel (c : Cache) (fields : list string) : Cache :=
  {| restricted_mms := fold_left (fun m f => delete f m) fields (restricted_mms c);
     entries := entries c |}.

Variable disabledMMs : gset string.

(** [makers] is what [api.getMarketMakers] resolved to. *)
Definition getFilteredMarketMakers (c : Cache) (makers : list string)
    : list string * option (list string) :=
  let '(runtimeRestrictedMMs, scheduled) :=
    parseCacheRestrictionAndExpiryIfNeeded (restricted_mms c) in
  (List.filter (fun mm => negb (bool_decide (mm ∈ disabledMMs)
                           || bool_decide (mm ∈ runtimeRestrictedMMs)))
          makers,
   scheduled).

End Restriction.

(** ** [BigNumber.prototype.valueOf]

    The string bignumber.js gives for a value: normal notation when the
    decimal exponent [e] of the leading digit satisfies [-7 < e < 21]
    (EXPONENTIAL_AT defaults), exponential notation otherwise.  A
    [BigNumber] here has one zero: the negative zero of bignumber.js,
    which it writes [-0], is not told apart from [0]. *)

Module Format.

Fixpoint zeros (n : nat) : string :=
  match n with
  | O => EmptyString
  | S n' => String "0"%char (zeros n')
  end.

(** Least [k] with [n * 10 ^ k / d] an integer, and that integer. *)
Fixpoint scale_search (fuel : nat) (n d k : Z) : option (Z * Z) :=
  if Z.eqb (n mod d) 0 then Some (n / d, k)
  else
    match fuel with
    | O => None
    | S fuel' => scale_search fuel' (10 * n) d (k + 1)
    end.

(** Drops the trailing zeros of [c], counting them. *)
Fixpoint strip_zeros (fuel : nat) (c z : Z) : Z * Z :=
  match fuel with
  | O => (c, z)
  | S fuel' =>
      if Z.eqb (c mod 10) 0 then strip_zeros fuel' (c / 10) (z + 1) else (c, z)
  end.

(** Coefficient digits (no trailing zeros) and exponent of a positive
    finite decimal; [None] if [q] has no finite decimal expansion. *)
Definition coefficient (q : Q) : option (string * Z) :=
  let n := Z.abs (Qnum q) in
  let d := Z.pos (Qden q) in
  match scale_search (S (Z.to_nat (Z.log2 d))) n d 0 with
  | None => None
  | Some (c, k) =>
      let '(c', z) := strip_zeros (Z.to_nat (Z.log2 c)) c 0 in
      let str := Z_to_string c' in
      Some (str, Z.of_nat (String.length str) + z - 1 - k)
  end.

Definition toExponential (str : string) (e : Z) : string :=
  (match str with
   | String c0 (String _ _ as rest) => String c0 (String "."%char rest)
   | _ => str
   end)
  +:+ (if e <? 0 then "e" else "e+") +:+ Z_to_string e.

Definition toFixedPoint (str : string) (e : Z) : string :=
  if e <? 0 then "0." +:+ zeros (Z.to_nat (- e - 1)) +:+ str
  else
    let len := Z.of_nat (String.length str) in
    if e + 1 >? len then str +:+ zeros (Z.to_nat (e + 1 - len))
    else if e + 1 <? len then
      String.substring 0 (Z.to_nat (e + 1)) str +:+ "." +:+
      String.substring (Z.to_nat (e + 1)) (Z.to_nat (len - (e + 1))) str
    else str.

Definition TO_EXP_NEG : Z := -7.
Definition TO_EXP_POS : Z := 21.

Definition valueOf (a : BigNumber) : string :=
  match a with
  | BN_NaN => "NaN"
  | BN_Inf s => if s then "-Infinity" else "Infinity"
  | BN q =>
      if BigNum.isZeroQ q then "0"
      else
        match coefficient q with
        | None => "NaN"
        | Some (str, e) =>
            (if BigNum.isNegQ q then "-" else "") +:+
            (if (e <=? TO_EXP_NEG) || (e >=? TO_EXP_POS)
             then toExponential str e
             else toFixedPoint str e)
        end
  end.

End Format.

(** The relational operator [<] applied to two objects: each operand is
    converted with [valueOf]; bignumber.js returns a string there, and
    two strings are compared by code units. *)
Definition js_lt_BigNumber (a b : BigNumber) : bool :=
  String.ltb (Format.valueOf a) (Format.valueOf b).

(** ** generic-rfq/validators.ts: price responses *)

Record PairPrices : Type := {
  bids : option (list (list string));
  asks : option (list (list string))
}.

Section Validators.

Variable newBigNumber : string -> BigNumber.

(** [stringNumberValidator]: [None] is acceptance, [Some] the message. *)
Definition stringNumberValidator (value : string) : option string :=
  let bn := newBigNumber value in
  if String.eqb (Format.valueOf bn) "NaN"
  then Some (value +:+ " is not a number")
  else None.

(** [pricesValidator]: an array of two-element arrays of non-empty
    numeric strings. *)
Definition pricesValidator (items : list (list string)) : bool :=
  forallb
    (fun item =>
       Nat.eqb (List.length item) 2
       && forallb
            (fun str =>
               Nat.leb 1 (String.length str)
               && match stringNumberValidator str with
                  | None => true
                  | Some _ => false
                  end)
            item)
    items.

Definition optional {A : Type} (check : A -> bool) (o : option A) : bool :=
  match o with
  | None => true
  | Some a => check a
  end.

(** [numbers[0]] read as a BigNumber ([undefined] gives NaN). *)
Definition firstAsBN (numbers : list string) : BigNumber :=
  match numbers with
  | str :: _ => newBigNumber str
  | [] => BN_NaN
  end.

Definition maxBid (bids : list (list string)) : BigNumber :=
  fold_left
    (fun previousValue currentValue =>
       if BigNum.gte currentValue previousValue
       then currentValue else previousValue)
    (map firstAsBN bids) (BN 0).

Definition minAsk (asks : list (list string)) : BigNumber :=
  fold_left
    (fun previousValue currentValue =>
       if BigNum.lte currentValue previousValue
       then currentValue else previousValue)
    (map firstAsBN asks) (BN (123456789012345678901234567890 # 1)).

(** The rule [bidsLowerThanAsks]; [None] is acceptance. *)
Definition bidsLowerThanAsks (values : PairPrices) : option string :=
  match bids values, asks values with
  | Some bs, Some as_ =>
      if Nat.eqb (List.length bs) 0 || Nat.eqb (List.length as_) 0
      then None
      else if js_lt_BigNumber (maxBid bs) (minAsk as_)
      then None
      else Some "the maximum bid is higher than minimum ask"
  | _, _ => None
  end.

(** [priceValidator.validatedPrices().bidsLowerThanAsks()]: the base
    schema, then the rule. *)
Definition validatedPrices (values : PairPrices) : option string :=
  if optional pricesValidator (bids values)
     && optional pricesValidator (asks values)
  then bidsLowerThanAsks values
  else Some "base schema violated".

(** [pricesResponse.validate]: every key is non-empty and every pair
    entry validates; the first failure is reported. *)
Fixpoint validatePairs (prices : list (string * PairPrices)) : option string :=
  match prices with
  | [] => None
  | (key, values) :: rest =>
      if Nat.leb 1 (String.length key) then
        match validatedPrices values with
        | Some msg => Some msg
        | None => validatePairs rest
        end
      else Some "key is not allowed to be empty"
  end.

Definition pricesResponse (prices : option (list (string * PairPrices)))
    : option string :=
  match prices with
  | None => None
  | Some prices => validatePairs prices
  end.

End Validators.

(** ** Transaction preprocessing *)

Record QuoteData : Type := {
  rfqType : Z;
  pool : string;
  qd_baseToken : string;
  qd_quoteToken : string;
  baseTokenAmount : string;
  quoteTokenAmount : string;
  quoteExpiry : Z;
  txid : string
}.

Record RfqResponse : Type := {
  status : string;
  quoteData : option QuoteData;
  signature : option string;
  gasEstimate : option Z
}.

Record RfqRequest : Type := {
  req_baseToken : string;
  req_quoteToken : string;
  req_baseTokenAmount : option string;
  req_quoteTokenAmount : option string;
  wallet : string;
  effectiveTrader : string;
  marketMakers : list string
}.

Record HashflowData : Type := {
  mm : string;
  hd_quoteData : option QuoteData;
  hd_signature : option string;
  hd_gasEstimate : option Z
}.

Record OptimalSwapExchange : Type := {
  srcAmount : string;
  destAmount : string;
  data : option HashflowData
}.

Record PreprocessTransactionOptions : Type := {
  slippageFactor : BigNumber;
  txOrigin : string
}.

Record ExchangeTxInfo : Type := { deadline : Z }.

Definition BI_MAX_UINT256 : Z := 2 ^ 256 - 1.

Definition sideName (side : SwapSide) : string :=
  match side with SELL => "SELL" | BUY => "BUY" end.

Definition bind {A B : Type} (c : Completion A) (k : A -> Completion B)
    : Completion B :=
  match c with
  | Normal a => k a
  | Throw e => Throw e
  end.

(** [if (!b) throw e] *)
Definition ensure (b : bool) (e : JsError) : Completion () :=
  if b then Normal () else Throw e.

Notation "'do' x <- c ;; k" := (bind c (fun x => k))
  (at level 10, x name, c at level 99, k at level 200, only parsing).

Section Preprocess.

(** Fields of the [Hashflow] instance and imported constants. *)
Variable dexKey : string.
Variable network : Z.
Variable augustusAddress : string.
Variable ETHER_ADDRESS ZERO_ADDRESS : string.
Variable RFQType_RFQT : Z.
Variable HASHFLOW_BLACKLIST_TTL_S : Z.
(** JavaScript built-ins on strings: [BigInt(str)] ([None]: it throws),
    [JSON.stringify] and [BigNumber.toFixed()]. *)
Variable BigIntOf : string -> option Z.
Variable JSON_stringify : RfqResponse -> string.
Variable toFixed : BigNumber -> string.
(** [Date.now()] when the maker is restricted. *)
Variable now : Z.
(** The awaited [Utils.timeoutPromise(this.api.requestQuote(...))]: the
    response, or the rejection (of the API or of the timeout). *)
Variable requestQuote : RfqRequest -> Completion RfqResponse.

Definition tag : string := dexKey +:+ "-" +:+ Z_to_string network.

Definition getBlackListKey (address : string) : string :=
  toLowerCase ("blacklist_" +:+ address).

(** Reads the blacklist key of the origin in the content the cache has
    at the call. *)
Definition isBlacklisted (c : Cache) (txOrigin : string) : bool :=
  match entries c !! getBlackListKey txOrigin with
  | Some (_, value) => String.eqb value "blacklisted"
  | None => false
  end.

Definition setBlacklist (c : Cache) (txOrigin : string) : Cache :=
  {| restricted_mms := restricted_mms c;
     entries := <[ getBlackListKey txOrigin :=
                     (HASHFLOW_BLACKLIST_TTL_S, "blacklisted") ]> (entries c) |}.

(** [hset] of the creation time, then the [levels] snapshot is dropped. *)
Definition restrictMM (c : Cache) (mm : string) : Cache :=
  {| restricted_mms := <[ mm := Z_to_string now ]> (restricted_mms c);
     entries := delete "levels" (entries c) |}.

Definition toBigIntOrThrow (str : string) : Completion Z :=
  match BigIntOf str with
  | Some z => Normal z
  | None =>
      Throw {| errClass := SyntaxError;
               message := "Cannot convert " +:+ str +:+ " to a BigInt" |}
  end.

Definition roundedBigInt (x : BigNumber) : Completion Z :=
  match BigNum.toFixed0_BigInt x with
  | Some z => Normal z
  | None =>
      Throw {| errClass := SyntaxError;
               message := "Cannot convert " +:+ Format.valueOf x +:+ " to a BigInt" |}
  end.

(** Lines 574-605: the slippage check on the returned amounts. *)
Definition slippageCheck (side : SwapSide)
    (quoteTokenAmount baseTokenAmount srcAmount destAmount : Z)
    (slippageFactor : BigNumber) : Completion () :=
  match side with
  | SELL =>
      do bound <- roundedBigInt
                 (BigNum.times (BigNum.ofZ destAmount) slippageFactor) ;;
      if quoteTokenAmount <? bound then
        Throw {| errClass := SlippageCheckError;
                 message :=
                   tag +:+ ": too much slippage on quote " +:+ sideName side
                   +:+ " quoteTokenAmount " +:+ Z_to_string quoteTokenAmount
                   +:+ " / destAmount " +:+ Z_to_string destAmount
                   +:+ " < " +:+ Format.valueOf slippageFactor |}
      else Normal ()
  | BUY =>
      if quoteTokenAmount <? destAmount then
        Throw {| errClass := SlippageCheckError;
                 message :=
                   tag +:+ ": too much slippage on quote " +:+ sideName side
                   +:+ "  quoteTokenAmount " +:+ Z_to_string quoteTokenAmount
                   +:+ " < destAmount " +:+ Z_to_string destAmount |}
      else
        do bound <- roundedBigInt
                   (BigNum.times slippageFactor (BigNum.ofZ srcAmount)) ;;
        if baseTokenAmount >? bound then
          Throw {| errClass := SlippageCheckError;
                   message :=
                     tag +:+ ": too much slippage on quote " +:+ sideName side
                     +:+ " baseTokenAmount " +:+ Z_to_string baseTokenAmount
                     +:+ " / srcAmount " +:+ Z_to_string srcAmount
                     +:+ " > " +:+ toFixed slippageFactor |}
        else Normal ()
  end.

Definition hashflowNormalizeToken := normalizeToken ETHER_ADDRESS ZERO_ADDRESS.

Definition rfqFailure (pairName detail : string) : JsError :=
  {| errClass := RfqError;
     message := tag +:+ ": Failed to fetch RFQ for " +:+ pairName +:+ detail |}.

Definition truthyString (o : option string) : bool :=
  match o with
  | Some s => negb (String.eqb s "")
  | None => false
  end.

Definition truthyNumber (o : option Z) : bool :=
  match o with
  | Some n => negb (Z.eqb n 0)
  | None => false
  end.

(** The body of the [try] block. *)
Definition requestAndCheck (optimalSwapExchange : OptimalSwapExchange)
    (srcToken destToken : Token) (side : SwapSide)
    (options : PreprocessTransactionOptions) (mm : string)
    : Completion (OptimalSwapExchange * ExchangeTxInfo) :=
  let normalizedSrcToken := hashflowNormalizeToken srcToken in
  let normalizedDestToken := hashflowNormalizeToken destToken in
  let pairName :=
    getPairName (address normalizedSrcToken) (address normalizedDestToken) in
  do rfq <- requestQuote
           {| req_baseToken := address normalizedSrcToken;
              req_quoteToken := address normalizedDestToken;
              req_baseTokenAmount :=
                match side with
                | SELL => Some (srcAmount optimalSwapExchange)
                | BUY => None
                end;
              req_quoteTokenAmount :=
                match side with
                | SELL => None
                | BUY => Some (destAmount optimalSwapExchange)
                end;
              wallet := toLowerCase augustusAddress;
              effectiveTrader := toLowerCase (txOrigin options);
              marketMakers := [mm] |} ;;
  do _ <- ensure (String.eqb (status rfq) "success")
         (rfqFailure pairName (": " +:+ JSON_stringify rfq)) ;;
  match quoteData rfq with
  | None => Throw (rfqFailure pairName ". Missing quote data")
  | Some qd =>
      do _ <- ensure (truthyString (signature rfq))
             (rfqFailure pairName ". Missing signature") ;;
      do _ <- ensure (truthyNumber (gasEstimate rfq))
             (rfqFailure pairName ". No gas estimate.") ;;
      do _ <- ensure (Z.eqb (rfqType qd) RFQType_RFQT)
             (rfqFailure pairName ". Invalid RFQ type.") ;;
      do _ <- ensure (String.eqb (qd_baseToken qd) (address normalizedSrcToken))
             ({| errClass := AssertionError;
                   message :=
                     "QuoteData baseToken=" +:+ qd_baseToken qd
                     +:+ " is different from srcToken="
                     +:+ address normalizedSrcToken |}) ;;
      do _ <- ensure (String.eqb (qd_quoteToken qd) (address normalizedDestToken))
             ({| errClass := AssertionError;
                   message :=
                     "QuoteData baseToken=" +:+ qd_quoteToken qd
                     +:+ " is different from srcToken="
                     +:+ address normalizedDestToken |}) ;;
      let expiryAsBigInt := quoteExpiry qd in
      let minDeadline :=
        if expiryAsBigInt >? 0 then expiryAsBigInt else BI_MAX_UINT256 in
      let enriched :=
        {| srcAmount := srcAmount optimalSwapExchange;
           destAmount := destAmount optimalSwapExchange;
           data := Some {| mm := mm;
                           hd_quoteData := Some qd;
                           hd_signature := signature rfq;
                           hd_gasEstimate := gasEstimate rfq |} |} in
      do baseTokenAmount <- toBigIntOrThrow (baseTokenAmount qd) ;;
      do quoteTokenAmount <- toBigIntOrThrow (quoteTokenAmount qd) ;;
      do srcAmount <- toBigIntOrThrow (srcAmount optimalSwapExchange) ;;
      do destAmount <- toBigIntOrThrow (destAmount optimalSwapExchange) ;;
      do _ <- slippageCheck side quoteTokenAmount baseTokenAmount srcAmount
             destAmount (slippageFactor options) ;;
      Normal (enriched, {| deadline := minDeadline |})
  end.

Definition USER_RESTRICTED : string := "User is restricted from using Hashflow".

(** The [catch] block: the side effect on the cache. *)
Definition onFailure (c : Cache) (e : JsError) (txOrigin mm : string) : Cache :=
  if endsWith (message e) USER_RESTRICTED
  then setBlacklist c txOrigin
  else restrictMM c mm.

(** Result: the cache afterwards and the completion of the call. *)
Definition preProcessTransaction (c : Cache)
    (optimalSwapExchange : OptimalSwapExchange) (srcToken destToken : Token)
    (side : SwapSide) (options : PreprocessTransactionOptions)
    : Cache * Completion (OptimalSwapExchange * ExchangeTxInfo) :=
  if isBlacklisted c (txOrigin options) then
    (c, Throw {| errClass := PlainError;
                 message := tag +:+ ": user=" +:+ toLowerCase (txOrigin options)
                            +:+ " is blacklisted" |})
  else
    match option_map mm (data optimalSwapExchange) with
    | None =>
        (c, Throw {| errClass := AssertionError;
                     message := tag +:+ ": MM was not provided in data" |})
    | Some mm =>
        match requestAndCheck optimalSwapExchange srcToken destToken side
                options mm with
        | Normal result => (c, Normal result)
        | Throw e => (onFailure c e (txOrigin options) mm, Throw e)
        end
    end.

End Preprocess.

(** ** Reference definitions (from the specification's wording) *)

Definition levelAt (levels : list PriceLevelBN) (j : nat) : BigNumber :=
  match nth_error levels j with Some l => levelBN l | None => BN_NaN end.

Definition priceAt (levels : list PriceLevelBN) (j : nat) : BigNumber :=
  match nth_error levels j with Some l => priceBN l | None => BN_NaN end.

(** Cumulative quote amount reached at level [j]: the first level
    contributes [level * price], every later tier its depth at its own
    marginal price. *)
Fixpoint cumulativeQuoteAt (levels : list PriceLevelBN) (j : nat) : BigNumber :=
  match j with
  | O => BigNum.multipliedBy (levelAt levels 0) (priceAt levels 0)
  | S j' =>
      BigNum.plus (cumulativeQuoteAt levels j')
        (BigNum.multipliedBy
           (BigNum.minus (levelAt levels j) (levelAt levels j'))
           (priceAt levels j))
  end.

Definition finiteb (a : BigNumber) : bool :=
  match a with BN _ => true | _ => false end.

(** The data-model invariant: levels ordered by strictly increasing size. *)
Fixpoint increasingLevels (levels : list PriceLevelBN) : bool :=
  match levels with
  | a :: rest =>
      match rest with
      | b :: _ => BigNum.lt (levelBN a) (levelBN b) && increasingLevels rest
      | [] => true
      end
  | [] => true
  end.

Definition finiteLevels (levels : list PriceLevelBN) : bool :=
  forallb (fun l => finiteb (levelBN l) && finiteb (priceBN l)) levels.

Definition nonNegativePrices (levels : list PriceLevelBN) : bool :=
  forallb (fun l => BigNum.gte (priceBN l) (BN 0)) levels.

Definition lastIndex (levels : list PriceLevelBN) : nat :=
  (List.length levels - 1)%nat.

(** The three situations in which the specification calls a request
    unfillable: both request parameters supplied, no levels, or a request
    beyond the cumulative size of the deepest level (the base size for a
    request by base amount, the quote size for one by quote amount). *)
Inductive Unfillable (levels : list PriceLevelBN)
    : option BigNumber -> option BigNumber -> Prop :=
  | both_supplied (b q : BigNumber) : Unfillable levels (Some b) (Some q)
  | no_levels (rb rq : option BigNumber) :
      levels = [] -> Unfillable levels rb rq
  | base_beyond_depth (b : BigNumber) :
      increasingLevels levels = true ->
      BigNum.lt (levelAt levels (lastIndex levels)) b = true ->
      Unfillable levels (Some b) None
  | quote_beyond_depth (q : BigNumber) :
      finiteLevels levels = true ->
      increasingLevels levels = true ->
      nonNegativePrices levels = true ->
      BigNum.lt (cumulativeQuoteAt levels (lastIndex levels)) q = true ->
      Unfillable levels None (Some q).

(** A restriction hash read at time [10000000] with a window of 600 s:
    [mm1] was restricted one millisecond before the window, [mm2] one
    millisecond inside it, and the value of [mm3] is not a number. *)
Definition sampleRestrictions : gmap string string :=
  <["mm1" := "9399999"]> (<["mm2" := "9400001"]> (<["mm3" := "soon"]> ∅)).

(** [BigInt(str)] on plain decimal integer literals. *)
Definition decimalBigInt (s : string) : option Z :=
  match integerToNumber s with
  | Num q => Some (Qnum q)
  | _ => None
  end.

(** The slippage check ended in a [SlippageCheckError]. *)
Definition raisesSlippage (c : Completion ()) : Prop :=
  exists msg, c = Throw {| errClass := SlippageCheckError; message := msg |}.

(** A maker that answers every firm-quote request with the restricted-user
    failure. *)
Definition restrictedUserMaker (_ : RfqRequest) : Completion RfqResponse :=
  Throw {| errClass := PlainError;
           message := "Request failed: User is restricted from using Hashflow" |}.

(** A maker whose firm-quote request times out. *)
Definition silentMaker (_ : RfqRequest) : Completion RfqResponse :=
  Throw {| errClass := PlainError;
           message := "Hashflow: requestQuote timeout" |}.

(** An empty cache, and a trade for maker [mm1] requested by [0xAbC]. *)
Definition emptyCache : Cache := {| restricted_mms := ∅; entries := ∅ |}.

Definition sampleTrade : OptimalSwapExchange :=
  {| srcAmount := "1000"; destAmount := "100";
     data := Some {| mm := "mm1"; hd_quoteData := None;
                     hd_signature := None; hd_gasEstimate := None |} |}.

Definition sampleOptions : PreprocessTransactionOptions :=
  {| slippageFactor := BN (99 # 100); txOrigin := "0xAbC" |}.

(** Two tokens without decimals. *)
Definition sampleSrcToken : Token := {| address := "0xAAA1"; decimals := 0 |}.
Definition sampleDestToken : Token := {| address := "0xBBB2"; decimals := 0 |}.

(** [sep] occurs somewhere in [s]. *)
Fixpoint occursIn (sep s : string) : bool :=
  String.prefix sep s
  || match s with
     | EmptyString => false
     | String _ s' => occursIn sep s'
     end.

(** A quote set whose only maker has an upper-case identifier. *)
Definition upperCaseMakerLevels : LevelsMap :=
  [ ("MM1",
     [ {| pair := {| baseToken := "0xaaa1"; baseTokenName := "AAA";
                     quoteToken := "0xbbb2"; quoteTokenName := "BBB";
                     baseTokenDecimals := 0; quoteTokenDecimals := 0 |};
          levels := [ {| level := "10"; price := "2" |} ] |} ]) ].

(** The same quote set with the identifier in lower case. *)
Definition lowerCaseMakerLevels : LevelsMap :=
  [ ("mm1",
     [ {| pair := {| baseToken := "0xaaa1"; baseTokenName := "AAA";
                     quoteToken := "0xbbb2"; quoteTokenName := "BBB";
                     baseTokenDecimals := 0; quoteTokenDecimals := 0 |};
          levels := [ {| level := "10"; price := "2" |} ] |} ]) ].

Definition positivePrices (levels : list PriceLevelBN) : bool :=
  forallb (fun l => BigNum.gt (priceBN l) (BN 0)) levels.

(** Level sizes written with at most DECIMAL_PLACES decimals. *)
Definition preciseLevels (levels : list PriceLevelBN) : bool :=
  forallb
    (fun l =>
       match levelBN l with
       | BN x => Qeq_bool (BigNum.round_dp x) x
       | _ => false
       end)
    levels.

(** The curves on which the outputs are monotone: finite, strictly
    increasing levels; prices that are not negative when selling; when
    buying, positive prices and level sizes of at most DECIMAL_PLACES
    decimals. *)
Definition regularCurve (side : SwapSide) (levels : list PriceLevelBN) : bool :=
  finiteLevels levels && increasingLevels levels
  && match side with
     | SELL => nonNegativePrices levels
     | BUY => positivePrices levels && preciseLevels levels
     end.

(** Finite positive amounts in non-decreasing order. *)
Definition positiveAmounts (amounts : list BigNumber) : bool :=
  forallb (fun a => finiteb a && BigNum.gt a (BN 0)) amounts.

Fixpoint nonDecreasing (amounts : list BigNumber) : bool :=
  match amounts with
  | a :: rest =>
      match rest with
      | b :: _ => BigNum.lte a b && nonDecreasing rest
      | [] => true
      end
  | [] => true
  end.

(** Number of leading amounts the curve can fill. *)
Fixpoint fillable (quote : BigNumber -> option BigNumber)
    (amounts : list BigNumber) : nat :=
  match amounts with
  | [] => 0
  | a :: rest =>
      match quote a with
      | Some _ => S (fillable quote rest)
      | None => 0
      end
  end.

Fixpoint nonDecreasingZ (outputs : list Z) : Prop :=
  match outputs with
  | a :: rest =>
      match rest with
      | b :: _ => a <= b /\ nonDecreasingZ rest
      | [] => True
      end
  | [] => True
  end.

(** The bigint an amount is priced at: its quote scaled by the decimal
    power and rounded; [0] where the curve gives no finite quote. *)
Definition pricedAt (decimals : Z) (quote : BigNumber -> option BigNumber)
    (a : BigNumber) : Z :=
  match quote a with
  | Some (BN y) => BigNum.round_half_up (y * 10 ^ decimals)
  | _ => 0
  end.

(** Level sizes written with 21 decimals, and a token of 21 decimals. *)
Definition fineGrainedLevels : list PriceLevel :=
  [ {| level := "0"; price := "1" |};
    {| level := "1.000000000000000000006"; price := "1" |};
    {| level := "2.000000000000000000012"; price := "1" |} ].

Definition token21 : Token := {| address := "0xCCC3"; decimals := 21 |}.

(** The first test of [computeLevelsQuote]: the request lies below the
    first level (by size when selling, by size times price when buying). *)
Definition belowFirstLevel (newBigNumber : string -> BigNumber)
    (priceLevels : list PriceLevel) (side : SwapSide) (a : BigNumber) : bool :=
  match toPriceLevelsBN newBigNumber priceLevels with
  | [] => false
  | level0 :: _ =>
      match side with
      | SELL => BigNum.lt a (levelBN level0)
      | BUY => BigNum.lt a (BigNum.multipliedBy (levelBN level0) (priceBN level0))
      end
  end.

(** The size of the first level, if any, is not negative. *)
Definition firstLevelNotNegative (newBigNumber : string -> BigNumber)
    (levels : list PriceLevel) : bool :=
  match levels with
  | [] => true
  | firstLevel :: _ => negb (BigNum.lt (newBigNumber (level firstLevel)) (BN 0))
  end.

(** Every amount priced on its own: its quote, or [BN_0] when the curve
    cannot fill it. *)
Definition quoteEach (quote : BigNumber -> option BigNumber)
    (amounts : list BigNumber) : list BigNumber :=
  map (fun a => match quote a with Some o => o | None => BN_0 end) amounts.

(** A maker that answers with a well-formed firm quote: 1000 base units
    for 100 quote units, no expiry. *)
Definition honestMaker (_ : RfqRequest) : Completion RfqResponse :=
  Normal {| status := "success";
            quoteData :=
              Some {| rfqType := 0; pool := "0xpool";
                      qd_baseToken := "0xaaa1"; qd_quoteToken := "0xbbb2";
                      baseTokenAmount := "1000"; quoteTokenAmount := "100";
                      quoteExpiry := 0; txid := "0xtx" |};
            signature := Some "0xsig";
            gasEstimate := Some 120000 |}.

(** ** The cached levels snapshot *)

Section Levels.

Variable toNumber : string -> JsNumber.
(** [HASHFLOW_MM_RESTRICT_TTL_S] and [PRICE_LEVELS_TTL_SECONDS] of
    [hashflow/constants.ts]. *)
Variable HASHFLOW_MM_RESTRICT_TTL_S : Z.
Variable PRICE_LEVELS_TTL_SECONDS : Z.
Variable now : Z.
Variable disabledMMs : gset string.
(** [JSON.parse] of a cached snapshot and [JSON.stringify] of the levels. *)
Variable JSON_parse : string -> Completion LevelsMap.
Variable JSON_stringify : LevelsMap -> string.
(** The awaited calls of the API, each under its timeout: the answer, or
    the rejection (of the API or of the timeout). *)
Variable getMarketMakers : Completion (list string).
Variable getPriceLevels : list string -> Completion LevelsMap.

(** [cache.get]: the value under the key, if the key is in the cache (it
    was written and its time-to-live has not run out). *)
Definition cacheGet (c : Cache) (key : string) : option string :=
  option_map snd (entries c !! key).

(** [cache.setex]. *)
Definition setex (c : Cache) (key : string) (ttl : Z) (value : string)
    : Cache :=
  {| restricted_mms := restricted_mms c;
     entries := <[ key := (ttl, value) ]> (entries c) |}.

(** A cached snapshot (a non-empty string) is parsed and returned.
    Otherwise the filtered makers are asked for their levels, the [hdel]
    request of the filter is applied, and the answer is stored before it
    is returned. *)
Definition getLevelsWithCache (c : Cache) : Cache * Completion LevelsMap :=
  match cacheGet c "levels" with
  | Some (String _ _ as cachedLevels) => (c, JSON_parse cachedLevels)
  | _ =>
      match getMarketMakers with
      | Throw e => (c, Throw e)
      | Normal allMakers =>
          let '(makers, scheduled) :=
            getFilteredMarketMakers toNumber HASHFLOW_MM_RESTRICT_TTL_S now
              disabledMMs c allMakers in
          let c1 :=
            match scheduled with
            | Some fields => hdel c fields
            | None => c
            end in
          match getPriceLevels makers with
          | Throw e => (c1, Throw e)
          | Normal levels =>
              (setex c1 "levels" PRICE_LEVELS_TTL_SECONDS
                 (JSON_stringify levels),
               Normal levels)
          end
      end
  end.

End Levels.

(** ** generic-rfq/validators.ts: [ValidationError] and [validateAndCast] *)

Record ValidationError : Type := {
  ve_message : string;
  rawMessage : string;
  key : option string
}.

(** The constructor of the class: the message given to [Error] carries
    the key, when there is one. *)
Definition newValidationError (message : string) (key : option string)
    : ValidationError :=
  {| ve_message :=
       match key with
       | Some k => "'" +:+ k +:+ "': " +:+ message
       | None => message
       end;
     rawMessage := message;
     key := key |}.

(** [s.indexOf(needle)]: the first position where [needle] starts, or
    [-1]. *)
Fixpoint indexOf_from (needle s : string) (i : Z) : Z :=
  if String.prefix needle s then i
  else
    match s with
    | EmptyString => -1
    | String _ s' => indexOf_from needle s' (i + 1)
    end.

Definition indexOf (s needle : string) : Z := indexOf_from needle s 0.

Fixpoint dropChars (n : nat) (s : string) : string :=
  match n, s with
  | O, _ => s
  | S n', String _ s' => dropChars n' s'
  | S _, EmptyString => EmptyString
  end.

(** [s.slice(start)]: a negative [start] counts from the end. *)
Definition slice (s : string) (start : Z) : string :=
  let len := Z.of_nat (String.length s) in
  let from := if start <? 0 then Z.max (len + start) 0 else Z.min start len in
  dropChars (Z.to_nat from) s.

(** The double quote character. *)
Definition dquote : string := String (ascii_of_nat 34) EmptyString.

(** [schema.validate(value)] gives the message of the error, if any, and
    the parsed value; [name] is the optional third argument. *)
Definition validateAndCast {V T : Type}
    (schema_validate : V -> option string * T) (value : V)
    (name : option string) : T + ValidationError :=
  let '(error, parsed) := schema_validate value in
  match error with
  | Some error_message =>
      let message :=
        match name with
        | Some (String _ _ as name) =>
            dquote +:+ name +:+ dquote +:+ " " +:+
            slice error_message (indexOf error_message "must")
        | _ => error_message
        end in
      inr (newValidationError message None)
  | None => inl parsed
  end.

(** The strings on which [toLowerCase] is JavaScript's: every character
    is an ASCII one. *)
Definition isASCII (s : string) : bool :=
  forallb (fun c => Nat.ltb (nat_of_ascii c) 128) (list_ascii_of_string s).

(** * Properties *)

(** ** Comparison facts of bignumber.js values *)

Module BigNumFacts.
Import BigNum.

Lemma lte_false_lt_false a b : lte a b = false -> lt a b = false.
Proof.
  unfold lte, lt. destruct (comparedTo a b) as [[]|]; congruence.
Qed.

Lemma lt_lte a b : lt a b = true -> lte a b = true.
Proof.
  unfold lte, lt. destruct (comparedTo a b) as [[]|]; congruence.
Qed.

Lemma lte_fin x y : lte (BN x) (BN y) = true <-> (x <= y)%Q.
Proof.
  unfold lte; simpl. rewrite Qle_alt.
  destruct (x ?= y)%Q; split; intros; congruence.
Qed.

Lemma lt_fin x y : lt (BN x) (BN y) = true <-> (x < y)%Q.
Proof.
  unfold lt; simpl. rewrite Qlt_alt.
  destruct (x ?= y)%Q; split; intros; congruence.
Qed.

Lemma gte_fin x y : gte (BN x) (BN y) = true <-> (y <= x)%Q.
Proof.
  unfold gte; simpl. rewrite (Qle_alt y x), <- (Qcompare_antisym x y).
  destruct (x ?= y)%Q; simpl; split; intros; congruence.
Qed.

Lemma gt_fin x y : gt (BN x) (BN y) = true <-> (y < x)%Q.
Proof.
  unfold gt; simpl. rewrite (Qlt_alt y x), <- (Qcompare_antisym x y).
  destruct (x ?= y)%Q; simpl; split; intros; congruence.
Qed.

Lemma lte_fin_false x y : lte (BN x) (BN y) = false <-> (y < x)%Q.
Proof.
  rewrite <- not_true_iff_false, lte_fin. split.
  - apply Qnot_le_lt.
  - apply Qlt_not_le.
Qed.

Lemma lt_fin_false x y : lt (BN x) (BN y) = false <-> (y <= x)%Q.
Proof.
  rewrite <- not_true_iff_false, lt_fin. split.
  - apply Qnot_lt_le.
  - apply Qle_not_lt.
Qed.

End BigNumFacts.

Module BigNumOrder.
Import BigNum.

Lemma lte_trans a b c : lte a b = true -> lte b c = true -> lte a c = true.
Proof.
  destruct a as [|[]|x], b as [|[]|y], c as [|[]|z];
    unfold lte; simpl; try congruence; intros H1 H2.
  assert (Hxy : (x <= y)%Q) by (apply BigNumFacts.lte_fin; exact H1).
  assert (Hyz : (y <= z)%Q) by (apply BigNumFacts.lte_fin; exact H2).
  apply (proj2 (BigNumFacts.lte_fin x z)). eapply Qle_trans; eauto.
Qed.

Lemma lt_lte_false a b : lt a b = true -> lte b a = false.
Proof.
  destruct a as [|[]|x], b as [|[]|y]; unfold lt, lte; simpl;
    try congruence; intros H.
  apply BigNumFacts.lte_fin_false. apply BigNumFacts.lt_fin. exact H.
Qed.

Lemma lte_lt_lte_false a b c :
  lte a b = true -> lt b c = true -> lte c a = false.
Proof.
  destruct a as [|[]|x], b as [|[]|y], c as [|[]|z];
    unfold lt, lte; simpl; try congruence; intros H1 H2.
  assert (Hxy : (x <= y)%Q) by (apply BigNumFacts.lte_fin; exact H1).
  assert (Hyz : (y < z)%Q) by (apply BigNumFacts.lt_fin; exact H2).
  apply (proj2 (BigNumFacts.lte_fin_false z x)). eapply Qle_lt_trans; eauto.
Qed.

Lemma lt_trans a b c : lt a b = true -> lt b c = true -> lt a c = true.
Proof.
  destruct a as [|[]|x], b as [|[]|y], c as [|[]|z];
    unfold lt; simpl; try congruence; intros H1 H2.
  assert (Hxy : (x < y)%Q) by (apply BigNumFacts.lt_fin; exact H1).
  assert (Hyz : (y < z)%Q) by (apply BigNumFacts.lt_fin; exact H2).
  apply (proj2 (BigNumFacts.lt_fin x z)). eapply Qlt_trans; eauto.
Qed.
End BigNumOrder.

(** ** The curve walk by base amount *)

Lemma skipn_nth_error_cons {A : Type} (ls : list A) :
  forall (n : nat) (x : A),
    nth_error ls n = Some x -> skipn n ls = x :: skipn (S n) ls.
Proof.
  induction ls as [|a ls IH]; intros [|n] x H; simpl in *; try discriminate.
  - injection H as ->. reflexivity.
  - apply IH, H.
Qed.

Section CurveWalk.
Variable newBigNumber : string -> BigNumber.

(** The loop entered at level [i] with the cumulative amounts of that
    level returns at tier [S (i + d)], the first one that covers a
    base-amount request. *)
Lemma levelsLoop_base (ls : list PriceLevelBN) (req : BigNumber) :
  forall (d i : nat) (prev tier prior : PriceLevelBN) (quote : Quote),
    nth_error ls i = Some prev ->
    nth_error ls (i + d) = Some prior ->
    nth_error ls (S (i + d)) = Some tier ->
    baseAmount quote = levelBN prev ->
    quoteAmount quote = cumulativeQuoteAt ls i ->
    (forall k l, (i < k <= i + d)%nat -> nth_error ls k = Some l ->
                 BigNum.lte req (levelBN l) = false) ->
    BigNum.lte req (levelBN tier) = true ->
    levelsLoop (Some req) None prev (skipn (S i) ls) quote
    = Some (BigNum.plus (cumulativeQuoteAt ls (i + d))
              (BigNum.multipliedBy (BigNum.minus req (levelBN prior))
                 (priceBN tier))).
Proof.
  induction d as [|d IH];
    intros i prev tier prior quote Hprev Hprior Htier Hb Hq Hbelow Hhit.
  - rewrite Nat.add_0_r in *.
    assert (prior = prev) by congruence; subst prior.
    rewrite (skipn_nth_error_cons ls (S i) tier Htier).
    simpl. rewrite Hhit, Hq, Hb. reflexivity.
  - destruct (nth_error ls (S i)) as [next|] eqn:Hnext.
    + rewrite (skipn_nth_error_cons ls (S i) next Hnext).
      simpl. rewrite (Hbelow (S i) next) by (auto; lia).
      replace (i + S d)%nat with (S i + d)%nat in * by lia.
      apply IH; auto.
      * simpl. rewrite Hq. unfold levelAt, priceAt. rewrite Hnext, Hprev.
        reflexivity.
      * intros k l Hk. apply Hbelow. lia.
    + apply nth_error_None in Hnext.
      assert (i + S d < List.length ls)%nat
        by (apply nth_error_Some; congruence).
      lia.
Qed.

(** C1: for a request by base amount, when tier [S j] is the first
    level whose cumulative size covers the request, the result is the
    cumulative quote at the prior level [j] plus the remaining base
    amount at the tier's marginal price:
    [cumulativeQuoteAt j + (req - level j) * price (S j)]. *)
Theorem computeLevelsQuote_base_interpolation
    (priceLevels : list PriceLevel) (req : BigNumber) (j : nat)
    (prior tier : PriceLevelBN) :
  nth_error (toPriceLevelsBN newBigNumber priceLevels) j = Some prior ->
  nth_error (toPriceLevelsBN newBigNumber priceLevels) (S j) = Some tier ->
  (forall k l, (k <= j)%nat ->
     nth_error (toPriceLevelsBN newBigNumber priceLevels) k = Some l ->
     BigNum.lte req (levelBN l) = false) ->
  BigNum.lte req (levelBN tier) = true ->
  computeLevelsQuote newBigNumber priceLevels (Some req) None
  = Some (BigNum.plus
            (cumulativeQuoteAt (toPriceLevelsBN newBigNumber priceLevels) j)
            (BigNum.multipliedBy (BigNum.minus req (levelBN prior))
               (priceBN tier))).
Proof.
  intros Hprior Htier Hbelow Hhit.
  unfold computeLevelsQuote.
  destruct (toPriceLevelsBN newBigNumber priceLevels) as [|level0 rest] eqn:Hls.
  - destruct j; discriminate.
  - cbn [andThen baseAmount quoteAmount].
    rewrite (BigNumFacts.lte_false_lt_false req (levelBN level0))
      by (apply (Hbelow 0%nat); [lia | reflexivity]).
    cbn [orb].
    change rest with (skipn 1 (level0 :: rest)).
    apply (levelsLoop_base (level0 :: rest) req j 0 level0 tier prior);
      auto.
    intros k l Hk. apply Hbelow. lia.
Qed.
End CurveWalk.

(** The interpolation example of the specification: levels
    (0, 2), (10, 2), (20, 3) and a base amount of 15 give 35. *)
Lemma computeLevelsQuote_base_interpolation_example :
  computeLevelsQuote decimalBigNumber
    [ {| level := "0"; price := "2" |};
      {| level := "10"; price := "2" |};
      {| level := "20"; price := "3" |} ]
    (Some (BN 15)) None = Some (BN 35).
Proof.
  apply (computeLevelsQuote_base_interpolation decimalBigNumber
           [ {| level := "0"; price := "2" |};
             {| level := "10"; price := "2" |};
             {| level := "20"; price := "3" |} ]
           (BN 15) 1
           {| levelBN := BN 10; priceBN := BN 2 |}
           {| levelBN := BN 20; priceBN := BN 3 |}).
  - reflexivity.
  - reflexivity.
  - intros [|[|k]] l Hk Hl; try lia; injection Hl as <-; reflexivity.
  - reflexivity.
Defined.

(** ** Requests beyond the published depth *)

Section Depth.
Import BigNum.

Lemma increasing_head (rest : list PriceLevelBN) :
  forall a b, increasingLevels (a :: rest) = true -> In b rest ->
              lt (levelBN a) (levelBN b) = true.
Proof.
  induction rest as [|c rest IH]; intros a b Hinc Hin; [destruct Hin|].
  cbn [increasingLevels] in Hinc. apply andb_prop in Hinc as [Hac Hrest].
  destruct Hin as [<-|Hin]; [exact Hac|].
  eapply BigNumOrder.lt_trans; [exact Hac|]. apply IH; assumption.
Qed.

Lemma increasing_tail a (rest : list PriceLevelBN) :
  increasingLevels (a :: rest) = true -> increasingLevels rest = true.
Proof.
  destruct rest as [|b rest]; [reflexivity|].
  cbn [increasingLevels]. intros H. apply andb_prop in H. tauto.
Qed.

Lemma increasing_nth (ls : list PriceLevelBN) :
  increasingLevels ls = true ->
  forall i j a b, (i < j)%nat ->
    nth_error ls i = Some a -> nth_error ls j = Some b ->
    lt (levelBN a) (levelBN b) = true.
Proof.
  induction ls as [|c ls IH]; intros Hinc i j a b Hij Ha Hb.
  - destruct i; discriminate.
  - destruct j as [|j]; [lia|]. destruct i as [|i].
    + injection Ha as <-. apply (increasing_head ls); [exact Hinc|].
      eapply nth_error_In. exact Hb.
    + apply (IH (increasing_tail _ _ Hinc) i j); [lia|exact Ha|exact Hb].
Qed.

Lemma levelsLoop_base_none (req : BigNumber) (rest : list PriceLevelBN) :
  forall prev quote,
    (forall l, In l rest -> lte req (levelBN l) = false) ->
    levelsLoop (Some req) None prev rest quote = None.
Proof.
  induction rest as [|next rest IH]; intros prev quote Hall; [reflexivity|].
  cbn [levelsLoop]. rewrite (Hall next) by (left; reflexivity).
  apply IH. intros l Hl. apply Hall. right. exact Hl.
Qed.

Lemma base_beyond_last (ls : list PriceLevelBN) (req : BigNumber) :
  increasingLevels ls = true ->
  lt (levelAt ls (lastIndex ls)) req = true ->
  forall l, In l ls -> lte req (levelBN l) = false.
Proof.
  intros Hinc Hlast l Hl.
  apply In_nth_error in Hl as [k Hk].
  assert (Hlen : (k < List.length ls)%nat)
    by (apply nth_error_Some; congruence).
  unfold levelAt, lastIndex in Hlast.
  destruct (nth_error ls (List.length ls - 1)) as [deepest|] eqn:Hd;
    [|discriminate].
  destruct (Nat.eq_dec k (List.length ls - 1)%nat) as [->|Hne].
  - assert (l = deepest) by congruence; subst.
    apply BigNumOrder.lt_lte_false. exact Hlast.
  - apply (BigNumOrder.lte_lt_lte_false _ (levelBN deepest)); [|exact Hlast].
    apply BigNumFacts.lt_lte.
    apply (increasing_nth ls Hinc k (List.length ls - 1)%nat); auto. lia.
Qed.
End Depth.

Section QuoteDepth.
Import BigNum.

Lemma finite_nth (ls : list PriceLevelBN) (k : nat) (l : PriceLevelBN) :
  finiteLevels ls = true -> nth_error ls k = Some l ->
  exists x p, levelBN l = BN x /\ priceBN l = BN p.
Proof.
  intros Hfin Hk. unfold finiteLevels in Hfin.
  rewrite forallb_forall in Hfin.
  specialize (Hfin l (nth_error_In _ _ Hk)).
  apply andb_prop in Hfin as [Hl Hp].
  destruct (levelBN l) as [| |x]; try discriminate.
  destruct (priceBN l) as [| |p]; try discriminate.
  eauto.
Qed.

Lemma nonneg_nth (ls : list PriceLevelBN) (k : nat) (l : PriceLevelBN) :
  nonNegativePrices ls = true -> nth_error ls k = Some l ->
  gte (priceBN l) (BN 0) = true.
Proof.
  intros Hnn Hk. unfold nonNegativePrices in Hnn.
  rewrite forallb_forall in Hnn. apply Hnn. eapply nth_error_In; eauto.
Qed.

Lemma cumulative_finite (ls : list PriceLevelBN) :
  finiteLevels ls = true ->
  forall k, (k < List.length ls)%nat ->
    exists c, cumulativeQuoteAt ls k = BN c.
Proof.
  intros Hfin. induction k as [|k IH]; intros Hk.
  - destruct (nth_error ls 0) as [l|] eqn:Hl;
      [|apply nth_error_None in Hl; lia].
    destruct (finite_nth ls 0 l Hfin Hl) as (x & p & Hx & Hp).
    cbn [cumulativeQuoteAt]. unfold levelAt, priceAt. rewrite Hl, Hx, Hp.
    simpl. eauto.
  - destruct IH as [c Hc]; [lia|].
    destruct (nth_error ls k) as [l|] eqn:Hl;
      [|apply nth_error_None in Hl; lia].
    destruct (nth_error ls (S k)) as [l'|] eqn:Hl';
      [|apply nth_error_None in Hl'; lia].
    destruct (finite_nth ls k l Hfin Hl) as (x & p & Hx & Hp).
    destruct (finite_nth ls (S k) l' Hfin Hl') as (x' & p' & Hx' & Hp').
    cbn [cumulativeQuoteAt]. unfold levelAt, priceAt.
    rewrite Hc, Hl, Hl', Hx, Hx', Hp'. simpl. eauto.
Qed.

Lemma cumulative_step (ls : list PriceLevelBN) :
  finiteLevels ls = true -> increasingLevels ls = true ->
  nonNegativePrices ls = true ->
  forall k, (S k < List.length ls)%nat ->
    lte (cumulativeQuoteAt ls k) (cumulativeQuoteAt ls (S k)) = true.
Proof.
  intros Hfin Hinc Hnn k Hk.
  destruct (cumulative_finite ls Hfin k) as [c Hc]; [lia|].
  destruct (nth_error ls k) as [l|] eqn:Hl;
    [|apply nth_error_None in Hl; lia].
  destruct (nth_error ls (S k)) as [l'|] eqn:Hl';
    [|apply nth_error_None in Hl'; lia].
  destruct (finite_nth ls k l Hfin Hl) as (x & p & Hx & Hp).
  destruct (finite_nth ls (S k) l' Hfin Hl') as (x' & p' & Hx' & Hp').
  assert (Hlt : (x < x')%Q).
  { apply BigNumFacts.lt_fin. rewrite <- Hx, <- Hx'.
    apply (increasing_nth ls Hinc k (S k)); auto. }
  assert (Hp0 : (0 <= p')%Q).
  { apply BigNumFacts.gte_fin. rewrite <- Hp'.
    apply (nonneg_nth ls (S k)); auto. }
  cbn [cumulativeQuoteAt]. unfold levelAt, priceAt.
  rewrite Hc, Hl, Hl', Hx, Hx', Hp'. simpl.
  apply BigNumFacts.lte_fin. rewrite !Qred_correct.
  rewrite <- (Qplus_0_r c) at 1. apply Qplus_le_r.
  apply Qmult_le_0_compat; [|exact Hp0].
  apply Qlt_le_weak in Hlt. lra.
Qed.

Lemma cumulative_monotone (ls : list PriceLevelBN) :
  finiteLevels ls = true -> increasingLevels ls = true ->
  nonNegativePrices ls = true ->
  forall d k, (k + d < List.length ls)%nat ->
    lte (cumulativeQuoteAt ls k) (cumulativeQuoteAt ls (k + d)) = true.
Proof.
  intros Hfin Hinc Hnn. induction d as [|d IH]; intros k Hk.
  - rewrite Nat.add_0_r.
    destruct (cumulative_finite ls Hfin k) as [c ->]; [lia|].
    apply BigNumFacts.lte_fin. apply Qle_refl.
  - eapply BigNumOrder.lte_trans; [apply IH; lia|].
    replace (k + S d)%nat with (S (k + d)) by lia.
    apply cumulative_step; auto. lia.
Qed.

Lemma levelsLoop_quote_none (ls : list PriceLevelBN) (rq : BigNumber) :
  forall (n i : nat) (prev : PriceLevelBN) (quote : Quote),
    List.length ls = (S i + n)%nat ->
    nth_error ls i = Some prev ->
    quoteAmount quote = cumulativeQuoteAt ls i ->
    (forall k, (i < k < List.length ls)%nat ->
               lte rq (cumulativeQuoteAt ls k) = false) ->
    levelsLoop None (Some rq) prev (skipn (S i) ls) quote = None.
Proof.
  induction n as [|n IH]; intros i prev quote Hlen Hprev Hq Hall.
  - rewrite skipn_all2 by lia. reflexivity.
  - destruct (nth_error ls (S i)) as [next|] eqn:Hnext;
      [|apply nth_error_None in Hnext; lia].
    rewrite (skipn_nth_error_cons ls (S i) next Hnext).
    cbn [levelsLoop].
    assert (Hcum : plus (quoteAmount quote)
                     (multipliedBy (minus (levelBN next) (levelBN prev))
                        (priceBN next))
                   = cumulativeQuoteAt ls (S i)).
    { cbn [cumulativeQuoteAt]. unfold levelAt, priceAt.
      rewrite Hq, Hnext, Hprev. reflexivity. }
    rewrite Hcum, (Hall (S i)) by lia.
    apply IH; auto; [lia|]. intros k Hk. apply Hall. lia.
Qed.

Section WithParser.
Variable newBigNumber : string -> BigNumber.

(** C4: [computeLevelsQuote] returns [undefined] when both request
  parameters are supplied, when there are no levels, and when the
  request exceeds the cumulative size of the deepest level. *)
Theorem computeLevelsQuote_unfillable (priceLevels : list PriceLevel)
  (reqBaseAmount reqQuoteAmount : option BigNumber) :
Unfillable (toPriceLevelsBN newBigNumber priceLevels)
  reqBaseAmount reqQuoteAmount ->
computeLevelsQuote newBigNumber priceLevels reqBaseAmount reqQuoteAmount
= None.
Proof.
intros [b q | rb rq Hnil | b Hinc Hlast | q Hfin Hinc Hnn Hlast];
  unfold computeLevelsQuote.
- reflexivity.
- rewrite Hnil. destruct rb, rq; reflexivity.
- destruct (toPriceLevelsBN newBigNumber priceLevels)
    as [|level0 rest] eqn:Hls; [reflexivity|].
  cbn [andThen]. rewrite orb_false_r.
  destruct (lt b _); [reflexivity|].
  apply levelsLoop_base_none. intros l Hl.
  apply (base_beyond_last (level0 :: rest) b Hinc Hlast). right. exact Hl.
- destruct (toPriceLevelsBN newBigNumber priceLevels)
    as [|level0 rest] eqn:Hls; [reflexivity|].
  cbn [andThen orb]. destruct (lt q _); [reflexivity|].
  change rest with (skipn 1 (level0 :: rest)).
  apply (levelsLoop_quote_none (level0 :: rest) q (List.length rest) 0);
    auto.
  intros k Hk.
  apply (BigNumOrder.lte_lt_lte_false _
           (cumulativeQuoteAt (level0 :: rest)
              (lastIndex (level0 :: rest)))); [|exact Hlast].
  unfold lastIndex.
  replace (List.length (level0 :: rest) - 1)%nat
    with (k + (List.length (level0 :: rest) - 1 - k))%nat by lia.
  apply cumulative_monotone; auto. lia.
Qed.
End WithParser.
End QuoteDepth.

(** A request of 25 against a curve published up to 20 is unfillable. *)
Lemma computeLevelsQuote_unfillable_example :
  computeLevelsQuote decimalBigNumber
    [ {| level := "0"; price := "2" |};
      {| level := "10"; price := "2" |};
      {| level := "20"; price := "3" |} ]
    (Some (BN 25)) None = None.
Proof.
  apply computeLevelsQuote_unfillable.
  apply base_beyond_depth; reflexivity.
Defined.

(** ** Expiry of restrictions *)

Section RestrictionFacts.
Variable toNumber : string -> JsNumber.
Variable HASHFLOW_MM_RESTRICT_TTL_S : Z.
Variable now : Z.

Local Abbreviation expired createdAt :=
  (Number_lt (toNumber createdAt)
     (expirationThreshold HASHFLOW_MM_RESTRICT_TTL_S now)).
Local Abbreviation visit := (visitEntry toNumber HASHFLOW_MM_RESTRICT_TTL_S now).

Lemma fold_restricted (l : list (string * string)) :
  forall acc mm,
    mm ∈ restrictedMMs (fold_left visit l acc) <->
    mm ∈ restrictedMMs acc \/
    exists createdAt, In (mm, createdAt) l /\ expired createdAt = false.
Proof.
  induction l as [|[k v] l IH]; intros acc mm; cbn [fold_left].
  - split; [auto|]. intros [H|(v & [] & _)]. exact H.
  - rewrite IH. unfold visitEntry.
    destruct (Number_lt (toNumber v) _) eqn:Hv; cbn [restrictedMMs]; split.
    + intros [H|(c & Hin & Hc)]; [auto|]. right. exists c. split; [right|]; auto.
    + intros [H|(c & [Heq|Hin] & Hc)]; [auto| |right; eauto].
      injection Heq as -> ->. congruence.
    + intros [H|(c & Hin & Hc)].
      * apply elem_of_union in H as [H|H]; [|auto].
        apply elem_of_singleton in H as ->. right. exists v. split; [left|]; auto.
      * right. exists c. split; [right|]; auto.
    + intros [H|(c & [Heq|Hin] & Hc)].
      * left. apply elem_of_union. auto.
      * injection Heq as -> ->. left. apply elem_of_union. left.
        apply elem_of_singleton. reflexivity.
      * right. eauto.
Qed.

Lemma fold_toDelete (l : list (string * string)) :
  forall acc mm,
    In mm (toDelete (fold_left visit l acc)) <->
    In mm (toDelete acc) \/
    exists createdAt, In (mm, createdAt) l /\ expired createdAt = true.
Proof.
  induction l as [|[k v] l IH]; intros acc mm; cbn [fold_left].
  - split; [auto|]. intros [H|(v & [] & _)]. exact H.
  - rewrite IH. unfold visitEntry.
    destruct (Number_lt (toNumber v) _) eqn:Hv; cbn [toDelete]; split.
    + intros [H|(c & Hin & Hc)].
      * apply in_app_or in H as [H|[<-|[]]]; [auto|].
        right. exists v. split; [left|]; auto.
      * right. exists c. split; [right|]; auto.
    + intros [H|(c & [Heq|Hin] & Hc)].
      * left. apply in_or_app. auto.
      * injection Heq as -> ->. left. apply in_or_app. right. left. reflexivity.
      * right. eauto.
    + intros [H|(c & Hin & Hc)]; [auto|]. right. exists c. split; [right|]; auto.
    + intros [H|(c & [Heq|Hin] & Hc)]; [auto| |right; eauto].
      injection Heq as -> ->. congruence.
Qed.

Lemma In_map_to_list (m : gmap string string) (k v : string) :
  In (k, v) (map_to_list m) <-> m !! k = Some v.
Proof. rewrite <- list_elem_of_In. apply elem_of_map_to_list. Qed.

Lemma classify_restricted (m : gmap string string) (mm : string) :
  mm ∈ restrictedMMs (classify toNumber HASHFLOW_MM_RESTRICT_TTL_S now m) <->
  exists createdAt, m !! mm = Some createdAt /\ expired createdAt = false.
Proof.
  unfold classify. rewrite fold_restricted. cbn [restrictedMMs]. split.
  - intros [H|(c & Hin & Hc)]; [set_solver|].
    exists c. split; [apply In_map_to_list|]; auto.
  - intros (c & Hm & Hc). right. exists c. split; [apply In_map_to_list|]; auto.
Qed.

Lemma classify_toDelete (m : gmap string string) (mm : string) :
  In mm (toDelete (classify toNumber HASHFLOW_MM_RESTRICT_TTL_S now m)) <->
  exists createdAt, m !! mm = Some createdAt /\ expired createdAt = true.
Proof.
  unfold classify. rewrite fold_toDelete. cbn [toDelete]. split.
  - intros [[]|(c & Hin & Hc)].
    exists c. split; [apply In_map_to_list|]; auto.
  - intros (c & Hm & Hc). right. exists c. split; [apply In_map_to_list|]; auto.
Qed.

Lemma scheduled_iff (m : gmap string string) (mm : string) :
  (exists fields,
      snd (parseCacheRestrictionAndExpiryIfNeeded toNumber
             HASHFLOW_MM_RESTRICT_TTL_S now m) = Some fields
      /\ In mm fields) <->
  In mm (toDelete (classify toNumber HASHFLOW_MM_RESTRICT_TTL_S now m)).
Proof.
  unfold parseCacheRestrictionAndExpiryIfNeeded. cbn [snd].
  destruct (toDelete _) as [|f fs]; split.
  - intros (fields & H & _). discriminate.
  - intros [].
  - intros (fields & H & Hin). injection H as <-. exact Hin.
  - intros H. eauto.
Qed.

Lemma Number_lt_fin (x y : Q) :
  Number_lt (Num x) (Num y) = true <-> (x < y)%Q.
Proof.
  cbn [Number_lt]. rewrite Qlt_alt.
  destruct (x ?= y)%Q; split; intros; congruence.
Qed.

(** C7: an entry created before [now] minus the restriction window is
    left out of the returned set and is among the fields of the [hdel]
    request; an entry created within the window is in the returned set
    (and not scheduled for deletion). *)
Theorem restriction_expiry (cachedValues : gmap string string)
    (mm createdAt : string) (t : Q) :
  cachedValues !! mm = Some createdAt ->
  toNumber createdAt = Num t ->
  let result :=
    parseCacheRestrictionAndExpiryIfNeeded toNumber
      HASHFLOW_MM_RESTRICT_TTL_S now cachedValues in
  ((t < inject_Z (now - HASHFLOW_MM_RESTRICT_TTL_S * 1000))%Q ->
     (mm ∉ fst result) /\
     exists fields, snd result = Some fields /\ In mm fields)
  /\
  ((inject_Z (now - HASHFLOW_MM_RESTRICT_TTL_S * 1000) <= t)%Q ->
     (mm ∈ fst result) /\
     forall fields, snd result = Some fields -> ~ In mm fields).
Proof.
  intros Hm Ht result. subst result. split; intros Hcmp.
  - assert (Hexp : expired createdAt = true).
    { rewrite Ht. unfold expirationThreshold. apply Number_lt_fin. exact Hcmp. }
    split.
    + cbn [parseCacheRestrictionAndExpiryIfNeeded fst].
      intros Hin. apply classify_restricted in Hin as (c & Hc & Hfalse).
      assert (c = createdAt) by congruence; subst c. congruence.
    + apply scheduled_iff, classify_toDelete. eauto.
  - assert (Hexp : expired createdAt = false).
    { rewrite Ht. unfold expirationThreshold.
      apply not_true_iff_false. rewrite Number_lt_fin.
      apply Qle_not_lt. exact Hcmp. }
    split.
    + cbn [parseCacheRestrictionAndExpiryIfNeeded fst].
      apply classify_restricted. eauto.
    + intros fields Hf Hin.
      assert (Hdel : In mm (toDelete (classify toNumber
                        HASHFLOW_MM_RESTRICT_TTL_S now cachedValues)))
        by (apply scheduled_iff; eauto).
      apply classify_toDelete in Hdel as (c & Hc & Htrue).
      assert (c = createdAt) by congruence; subst c. congruence.
Qed.

(** C10: an entry whose stored value coerces to NaN is in the returned
    set and is never among the fields scheduled for deletion. *)
Theorem restriction_not_a_number (cachedValues : gmap string string)
    (mm createdAt : string) :
  cachedValues !! mm = Some createdAt ->
  toNumber createdAt = Num_NaN ->
  let result :=
    parseCacheRestrictionAndExpiryIfNeeded toNumber
      HASHFLOW_MM_RESTRICT_TTL_S now cachedValues in
  (mm ∈ fst result) /\
  forall fields, snd result = Some fields -> ~ In mm fields.
Proof.
  intros Hm Hnan result. subst result.
  assert (Hexp : expired createdAt = false) by (rewrite Hnan; reflexivity).
  split.
  - cbn [parseCacheRestrictionAndExpiryIfNeeded fst].
    apply classify_restricted. eauto.
  - intros fields Hf Hin.
    assert (Hdel : In mm (toDelete (classify toNumber
                      HASHFLOW_MM_RESTRICT_TTL_S now cachedValues)))
      by (apply scheduled_iff; eauto).
    apply classify_toDelete in Hdel as (c & Hc & Htrue).
    assert (c = createdAt) by congruence; subst c. congruence.
Qed.
End RestrictionFacts.


(** The window example of the specification, with [now = 10000000] and a
    window of 600000 ms: created at [now - (window + 1)] is dropped and
    scheduled for deletion, created at [now - (window - 1)] is kept. *)
Lemma restriction_expiry_example :
  let result :=
    parseCacheRestrictionAndExpiryIfNeeded integerToNumber 600 10000000
      sampleRestrictions in
  (("mm1" ∉ fst result) /\
   exists fields, snd result = Some fields /\ In "mm1" fields)
  /\
  (("mm2" ∈ fst result) /\
   forall fields, snd result = Some fields -> ~ In "mm2" fields).
Proof.
  split.
  - apply (restriction_expiry integerToNumber 600 10000000
             sampleRestrictions "mm1" "9399999" (inject_Z 9399999)).
    + vm_compute. reflexivity.
    + reflexivity.
    + reflexivity.
  - apply (restriction_expiry integerToNumber 600 10000000
             sampleRestrictions "mm2" "9400001" (inject_Z 9400001)).
    + vm_compute. reflexivity.
    + reflexivity.
    + vm_compute. discriminate.
Defined.

Lemma restriction_not_a_number_example :
  let result :=
    parseCacheRestrictionAndExpiryIfNeeded integerToNumber 600 10000000
      sampleRestrictions in
  ("mm3" ∈ fst result) /\
  forall fields, snd result = Some fields -> ~ In "mm3" fields.
Proof.
  apply (restriction_not_a_number integerToNumber 600 10000000
           sampleRestrictions "mm3" "soon").
  - vm_compute. reflexivity.
  - reflexivity.
Defined.

(** ** Crossed books *)

(** C2: the crossed book of the specification (bid 10, ask 9) passes
    [pricesResponse]: [maxBid < minAsk] compares the two BigNumber
    objects through [valueOf], that is the strings "10" and "9". *)
Theorem crossed_book_accepted :
  pricesResponse decimalBigNumber
    (Some [("ETH/USDC",
            {| bids := Some [["10"; "1"]]; asks := Some [["9"; "1"]] |})])
  = None
  /\ js_lt_BigNumber (BN 10) (BN 9) = true
  /\ BigNum.lt (BN 10) (BN 9) = false.
Proof. vm_compute. auto. Qed.

(** The uncrossed book (bid 8, ask 9) passes; the uncrossed book with
    bid 9 and ask 10 is rejected by the same comparison. *)
Lemma uncrossed_books :
  pricesResponse decimalBigNumber
    (Some [("ETH/USDC",
            {| bids := Some [["8"; "1"]]; asks := Some [["9"; "1"]] |})])
  = None
  /\ pricesResponse decimalBigNumber
       (Some [("ETH/USDC",
               {| bids := Some [["9"; "1"]]; asks := Some [["10"; "1"]] |})])
     = Some "the maximum bid is higher than minimum ask".
Proof. vm_compute. auto. Qed.

(** ** The slippage check *)

Module RoundFacts.
Import BigNum.

Lemma isNegQ_iff (q : Q) : isNegQ q = true <-> (q < 0)%Q.
Proof.
  unfold isNegQ, Qlt. cbn [Qnum Qden]. rewrite Z.ltb_lt. lia.
Qed.

Lemma isNegQ_Qred (q : Q) : isNegQ (Qred q) = isNegQ q.
Proof.
  apply eq_true_iff_eq. rewrite !isNegQ_iff, Qred_correct. reflexivity.
Qed.

Lemma round_half_up_Qred (q : Q) : round_half_up (Qred q) = round_half_up q.
Proof.
  unfold round_half_up. rewrite isNegQ_Qred.
  destruct (isNegQ q); [f_equal|]; apply Qfloor_comp;
    rewrite Qred_correct; reflexivity.
Qed.

End RoundFacts.

Section Slippage.
Variable dexKey : string.
Variable network : Z.
Variable toFixed : BigNumber -> string.

(** C5 (as the code has it): the bound of either direction is rounded to
    the nearest integer, ties away from zero, before the comparison. *)
Theorem slippageCheck_raises (side : SwapSide)
    (quoteTokenAmount baseTokenAmount srcAmount destAmount : Z) (factor : Q) :
  let outcome :=
    slippageCheck dexKey network toFixed side quoteTokenAmount
      baseTokenAmount srcAmount destAmount (BN factor) in
  (raisesSlippage outcome <->
   match side with
   | SELL =>
       quoteTokenAmount < BigNum.round_half_up (inject_Z destAmount * factor)
   | BUY =>
       quoteTokenAmount < destAmount \/
       baseTokenAmount > BigNum.round_half_up (factor * inject_Z srcAmount)
   end)
  /\ (~ raisesSlippage outcome -> outcome = Normal ()).
Proof.
  unfold raisesSlippage, slippageCheck, roundedBigInt, BigNum.times,
    BigNum.ofZ; cbn [BigNum.multipliedBy BigNum.toFixed0_BigInt bind].
  rewrite !RoundFacts.round_half_up_Qred.
  destruct side.
  - destruct (Z.ltb_spec quoteTokenAmount
                (BigNum.round_half_up (inject_Z destAmount * factor)));
      (split; [split|]).
    + auto.
    + eauto.
    + intros Hn. exfalso. apply Hn. eauto.
    + intros (msg & Hmsg). discriminate.
    + lia.
    + reflexivity.
  - destruct (Z.ltb_spec quoteTokenAmount destAmount).
    + split; [split; [auto|eauto]|]. intros Hn. exfalso. apply Hn. eauto.
    + cbn [bind].
      destruct (Z.gtb_spec baseTokenAmount
                  (BigNum.round_half_up (factor * inject_Z srcAmount)));
        (split; [split|]).
      * intros _. right. lia.
      * eauto.
      * intros Hn. exfalso. apply Hn. eauto.
      * intros (msg & Hmsg). discriminate.
      * lia.
      * reflexivity.
Qed.
End Slippage.

(** The slippage example of the specification: with [destAmount = 100]
    and a factor of 0.99 a returned quote amount of 98 is rejected and one
    of 99 passes. *)
Lemma slippageCheck_example :
  slippageCheck "Hashflow" 1 Format.valueOf SELL 98 1000 1000 100
    (BN (99 # 100))
  = Throw {| errClass := SlippageCheckError;
             message := "Hashflow-1: too much slippage on quote SELL quoteTokenAmount 98 / destAmount 100 < 0.99" |}
  /\ slippageCheck "Hashflow" 1 Format.valueOf SELL 99 1000 1000 100
       (BN (99 # 100))
     = Normal ().
Proof. vm_compute. auto. Qed.

(** With [destAmount = 60] and a factor of 0.99 the product is 59.4; a
    returned quote amount of 59 is below it and yet passes, the bound
    being rounded to 59. *)
Lemma slippageCheck_not_exact_product :
  ~ (raisesSlippage
       (slippageCheck "Hashflow" 1 Format.valueOf SELL 59 60 60 60
          (BN (99 # 100)))
     <-> (inject_Z 59 < inject_Z 60 * (99 # 100))%Q).
Proof.
  intros [_ Hraise].
  destruct Hraise as [msg Hmsg]; [reflexivity|].
  vm_compute in Hmsg. discriminate.
Qed.

(** ** Failure handling of [preProcessTransaction] *)

Section PreprocessFacts.
Variable dexKey : string.
Variable network : Z.
Variable augustusAddress : string.
Variable ETHER_ADDRESS ZERO_ADDRESS : string.
Variable RFQType_RFQT : Z.
Variable HASHFLOW_BLACKLIST_TTL_S : Z.
Variable BigIntOf : string -> option Z.
Variable JSON_stringify : RfqResponse -> string.
Variable toFixed : BigNumber -> string.
Variable now : Z.
Variable requestQuote : RfqRequest -> Completion RfqResponse.

Local Abbreviation run :=
  (preProcessTransaction dexKey network augustusAddress ETHER_ADDRESS
     ZERO_ADDRESS RFQType_RFQT HASHFLOW_BLACKLIST_TTL_S BigIntOf
     JSON_stringify toFixed now requestQuote).
Local Abbreviation body :=
  (requestAndCheck dexKey network augustusAddress ETHER_ADDRESS ZERO_ADDRESS
     RFQType_RFQT BigIntOf JSON_stringify toFixed requestQuote).

Lemma blacklist_key_not_levels (address : string) :
  getBlackListKey address <> "levels".
Proof. unfold getBlackListKey. cbn. discriminate. Qed.

Lemma isBlacklisted_setBlacklist (c : Cache) (txOrigin : string) :
  isBlacklisted (setBlacklist HASHFLOW_BLACKLIST_TTL_S c txOrigin) txOrigin
  = true.
Proof.
  unfold isBlacklisted, setBlacklist. cbn [entries].
  rewrite lookup_insert_eq. reflexivity.
Qed.

Lemma isBlacklisted_restrictMM (c : Cache) (mm txOrigin : string) :
  isBlacklisted (restrictMM now c mm) txOrigin = isBlacklisted c txOrigin.
Proof.
  unfold isBlacklisted, restrictMM. cbn [entries].
  rewrite lookup_delete_ne by (intros H; symmetry in H;
                               exact (blacklist_key_not_levels _ H)).
  reflexivity.
Qed.

(** C6: when the request, the validation of the response or the slippage
    check fails with [e], [e] is rethrown; the maker is restricted, unless
    the message of [e] ends with the restricted-user signal, in which case
    the trade origin is blacklisted and the restriction hash is left as
    it was. *)
Theorem preProcessTransaction_failure (c : Cache)
    (optimalSwapExchange : OptimalSwapExchange) (srcToken destToken : Token)
    (side : SwapSide) (options : PreprocessTransactionOptions)
    (maker : string) (e : JsError) :
  isBlacklisted c (txOrigin options) = false ->
  option_map mm (data optimalSwapExchange) = Some maker ->
  body optimalSwapExchange srcToken destToken side options maker = Throw e ->
  let '(c', outcome) :=
    run c optimalSwapExchange srcToken destToken side options in
  outcome = Throw e /\
  if endsWith (message e) USER_RESTRICTED then
    c' = setBlacklist HASHFLOW_BLACKLIST_TTL_S c (txOrigin options)
    /\ isBlacklisted c' (txOrigin options) = true
    /\ restricted_mms c' = restricted_mms c
  else
    c' = restrictMM now c maker
    /\ restricted_mms c' !! maker = Some (Z_to_string now)
    /\ isBlacklisted c' (txOrigin options) = false.
Proof.
  intros Hblack Hmm Hbody. unfold preProcessTransaction.
  rewrite Hblack, Hmm, Hbody. split; [reflexivity|].
  unfold onFailure. destruct (endsWith (message e) USER_RESTRICTED).
  - split; [reflexivity|]. split; [apply isBlacklisted_setBlacklist|].
    reflexivity.
  - split; [reflexivity|]. split.
    + cbn [restrictMM restricted_mms]. apply lookup_insert_eq.
    + rewrite isBlacklisted_restrictMM. exact Hblack.
Qed.

(** The three kinds of failure reach the handler. *)
Lemma request_failure_surfaces (ose : OptimalSwapExchange)
    (srcToken destToken : Token) (side : SwapSide)
    (options : PreprocessTransactionOptions) (maker : string) (e : JsError) :
  (forall request, requestQuote request = Throw e) ->
  body ose srcToken destToken side options maker = Throw e.
Proof.
  intros Hreq. unfold requestAndCheck. rewrite Hreq. reflexivity.
Qed.

Lemma validation_failure_surfaces (ose : OptimalSwapExchange)
    (srcToken destToken : Token) (side : SwapSide)
    (options : PreprocessTransactionOptions) (maker : string)
    (rfq : RfqResponse) :
  (forall request, requestQuote request = Normal rfq) ->
  status rfq <> "success" ->
  exists msg,
    body ose srcToken destToken side options maker
    = Throw {| errClass := RfqError; message := msg |}.
Proof.
  intros Hreq Hstatus. unfold requestAndCheck. rewrite Hreq. cbn [bind].
  apply String.eqb_neq in Hstatus. rewrite Hstatus. cbn [ensure bind].
  unfold rfqFailure. eauto.
Qed.

End PreprocessFacts.

Section SlippageSurfaces.
Variable dexKey : string.
Variable network : Z.
Variable augustusAddress : string.
Variable ETHER_ADDRESS ZERO_ADDRESS : string.
Variable RFQType_RFQT : Z.
Variable BigIntOf : string -> option Z.
Variable JSON_stringify : RfqResponse -> string.
Variable toFixed : BigNumber -> string.
Variable requestQuote : RfqRequest -> Completion RfqResponse.

Lemma slippage_failure_surfaces (ose : OptimalSwapExchange)
    (srcToken destToken : Token) (side : SwapSide)
    (options : PreprocessTransactionOptions) (maker : string)
    (rfq : RfqResponse) (qd : QuoteData)
    (baseAmount quoteAmount src dest : Z) (e : JsError) :
  (forall request, requestQuote request = Normal rfq) ->
  status rfq = "success" ->
  quoteData rfq = Some qd ->
  truthyString (signature rfq) = true ->
  truthyNumber (gasEstimate rfq) = true ->
  rfqType qd = RFQType_RFQT ->
  qd_baseToken qd
  = address (normalizeToken ETHER_ADDRESS ZERO_ADDRESS srcToken) ->
  qd_quoteToken qd
  = address (normalizeToken ETHER_ADDRESS ZERO_ADDRESS destToken) ->
  BigIntOf (baseTokenAmount qd) = Some baseAmount ->
  BigIntOf (quoteTokenAmount qd) = Some quoteAmount ->
  BigIntOf (srcAmount ose) = Some src ->
  BigIntOf (destAmount ose) = Some dest ->
  slippageCheck dexKey network toFixed side quoteAmount baseAmount src dest
    (slippageFactor options) = Throw e ->
  requestAndCheck dexKey network augustusAddress ETHER_ADDRESS ZERO_ADDRESS
    RFQType_RFQT BigIntOf JSON_stringify toFixed requestQuote ose srcToken
    destToken side options maker = Throw e.
Proof.
  intros Hreq Hstatus Hqd Hsig Hgas Htype Hbase Hquote Hb Hq Hs Hd Hslip.
  unfold requestAndCheck, hashflowNormalizeToken, toBigIntOrThrow.
  rewrite Hreq. cbn [bind]. rewrite Hstatus, Hqd, Hsig, Hgas, Htype.
  rewrite String.eqb_refl, Z.eqb_refl. cbn [ensure bind].
  rewrite Hbase, Hquote, !String.eqb_refl. cbn [ensure bind].
  rewrite Hb, Hq, Hs, Hd. cbn [bind]. rewrite Hslip. reflexivity.
Qed.
End SlippageSurfaces.


(** A maker reporting a restricted user: the error is rethrown, the trade
    origin is blacklisted and no maker is restricted. *)
Lemma preProcessTransaction_failure_example :
  let '(c', outcome) :=
    preProcessTransaction "Hashflow" 1 "0xDEF1" "0xeeee" "0x0000" 0 3600
      decimalBigInt (fun _ => "{}") Format.valueOf 10000000
      restrictedUserMaker emptyCache sampleTrade sampleSrcToken
      sampleDestToken SELL sampleOptions in
  outcome
  = Throw {| errClass := PlainError;
             message := "Request failed: User is restricted from using Hashflow" |}
  /\ c' = setBlacklist 3600 emptyCache "0xAbC"
  /\ isBlacklisted c' "0xAbC" = true
  /\ restricted_mms c' = ∅.
Proof.
  exact (preProcessTransaction_failure "Hashflow" 1 "0xDEF1" "0xeeee"
           "0x0000" 0 3600 decimalBigInt (fun _ => "{}") Format.valueOf
           10000000 restrictedUserMaker emptyCache sampleTrade
           sampleSrcToken sampleDestToken SELL sampleOptions "mm1"
           {| errClass := PlainError;
              message := "Request failed: User is restricted from using Hashflow" |}
           eq_refl eq_refl eq_refl).
Defined.

(** A request that times out: the error is rethrown and the maker is
    restricted, the trade origin is not blacklisted. *)
Lemma preProcessTransaction_timeout_example :
  preProcessTransaction "Hashflow" 1 "0xDEF1" "0xeeee" "0x0000" 0 3600
    decimalBigInt (fun _ => "{}") Format.valueOf 10000000
    silentMaker emptyCache sampleTrade sampleSrcToken sampleDestToken SELL
    sampleOptions
  = ({| restricted_mms := {[ "mm1" := "10000000" ]}; entries := ∅ |},
     Throw {| errClass := PlainError;
              message := "Hashflow: requestQuote timeout" |}).
Proof. vm_compute. reflexivity. Qed.

(** ** The synthetic zero level *)

Section ZeroLevel.
Variable newBigNumber : string -> BigNumber.

Lemma addZeroLevel_idempotent (levels : list PriceLevel) :
  BigNum.gt (newBigNumber "0") (BN 0) = false ->
  addZeroLevel newBigNumber (addZeroLevel newBigNumber levels)
  = addZeroLevel newBigNumber levels.
Proof.
  intros Hzero. destruct levels as [|firstLevel rest]; [reflexivity|].
  cbn [addZeroLevel].
  destruct (BigNum.gt (newBigNumber (level firstLevel)) (BN 0)) eqn:Hfirst.
  - cbn [addZeroLevel level]. rewrite Hzero. reflexivity.
  - cbn [addZeroLevel]. rewrite Hfirst. reflexivity.
Qed.

(** C9 (as the code has it): the zero level is put in front of the
    caller's own list when its first level has positive size; a further
    call on that list leaves it as it is, and the same call returns the
    same outputs. *)
Theorem computePricesFromLevels_zero_level (amounts : list BigNumber)
    (levels : list PriceLevel) (srcToken destToken : Token) (side : SwapSide) :
  BigNum.gt (newBigNumber "0") (BN 0) = false ->
  let result :=
    computePricesFromLevels newBigNumber amounts levels srcToken destToken
      side in
  (forall firstLevel rest,
      levels = firstLevel :: rest ->
      BigNum.gt (newBigNumber (level firstLevel)) (BN 0) = true ->
      fst result = {| level := "0"; price := price firstLevel |} :: levels)
  /\ (forall amounts' srcToken' destToken' side',
        fst (computePricesFromLevels newBigNumber amounts' (fst result)
               srcToken' destToken' side') = fst result)
  /\ computePricesFromLevels newBigNumber amounts (fst result) srcToken
       destToken side = result.
Proof.
  intros Hzero result. subst result. unfold computePricesFromLevels.
  cbn [fst]. rewrite !(addZeroLevel_idempotent levels Hzero).
  split; [|split; reflexivity].
  intros firstLevel rest -> Hfirst. cbn [addZeroLevel]. rewrite Hfirst.
  reflexivity.
Qed.
End ZeroLevel.

Lemma computePricesFromLevels_zero_level_example :
  let result :=
    computePricesFromLevels decimalBigNumber [BN 5]
      [ {| level := "10"; price := "2" |} ] sampleSrcToken sampleDestToken
      SELL in
  fst result = [ {| level := "0"; price := "2" |};
                 {| level := "10"; price := "2" |} ]
  /\ computePricesFromLevels decimalBigNumber [BN 5] (fst result)
       sampleSrcToken sampleDestToken SELL = result.
Proof.
  pose proof (computePricesFromLevels_zero_level decimalBigNumber [BN 5]
                [ {| level := "10"; price := "2" |} ] sampleSrcToken
                sampleDestToken SELL eq_refl) as (Hins & _ & Hsame).
  split.
  - apply (Hins {| level := "10"; price := "2" |} []); reflexivity.
  - exact Hsame.
Defined.

(** The caller's list after the call is not the list it passed, and the
    curve answers differently on the two. *)
Lemma computePricesFromLevels_changes_levels :
  let levels := [ {| level := "10"; price := "2" |} ] in
  let result :=
    computePricesFromLevels decimalBigNumber [BN 5] levels sampleSrcToken
      sampleDestToken SELL in
  fst result <> levels
  /\ computeLevelsQuote decimalBigNumber levels (Some (BN 5)) None = None
  /\ computeLevelsQuote decimalBigNumber (fst result) (Some (BN 5)) None
     = Some (BN 10).
Proof.
  cbv zeta. split; [|split].
  - vm_compute. discriminate.
  - vm_compute. reflexivity.
  - vm_compute. reflexivity.
Qed.

(** ** Pool identifiers and maker ids *)

Lemma lower_ascii_idempotent (c : ascii) :
  lower_ascii (lower_ascii c) = lower_ascii c.
Proof.
  destruct c as [[] [] [] [] [] [] [] []]; reflexivity.
Qed.

Lemma toLowerCase_idempotent (s : string) :
  toLowerCase (toLowerCase s) = toLowerCase s.
Proof.
  induction s as [|c s IH]; [reflexivity|].
  cbn [toLowerCase]. rewrite lower_ascii_idempotent, IH. reflexivity.
Qed.

Lemma append_cons (c : ascii) (a b : string) :
  String c a +:+ b = String c (a +:+ b).
Proof. reflexivity. Qed.

Lemma toLowerCase_app (a b : string) :
  toLowerCase (a +:+ b) = toLowerCase a +:+ toLowerCase b.
Proof.
  induction a as [|c a IH]; [reflexivity|].
  rewrite append_cons. cbn [toLowerCase]. rewrite append_cons, IH.
  reflexivity.
Qed.

Lemma append_assoc (a b c : string) : (a +:+ b) +:+ c = a +:+ (b +:+ c).
Proof.
  induction a as [|x a IH]; [reflexivity|].
  rewrite !append_cons, IH. reflexivity.
Qed.

Lemma append_empty_r (a : string) : a +:+ "" = a.
Proof.
  induction a as [|x a IH]; [reflexivity|]. rewrite append_cons, IH.
  reflexivity.
Qed.

Lemma prefix_append (sep t : string) : String.prefix sep (sep +:+ t) = true.
Proof.
  induction sep as [|c sep IH]; [destruct t; reflexivity|].
  rewrite append_cons. cbn [String.prefix].
  destruct (ascii_dec c c); [exact IH|congruence].
Qed.

Lemma split_from_skip (sep : string) (u t cur : string) :
  split_from sep (u +:+ t) (String.length u) cur = split_from sep t 0 cur.
Proof.
  induction u as [|c u IH]; [reflexivity|].
  rewrite append_cons. cbn [String.length split_from]. exact IH.
Qed.

Lemma split_from_absent (sep : string) (t : string) :
  forall cur, occursIn sep t = false ->
              split_from sep t 0 cur = [cur +:+ t].
Proof.
  induction t as [|c t IH]; intros cur Hocc.
  - cbn [split_from]. rewrite append_empty_r. reflexivity.
  - cbn [occursIn] in Hocc. apply orb_false_elim in Hocc as [Hp Ht].
    cbn [split_from]. rewrite Hp, (IH _ Ht), append_assoc. reflexivity.
Qed.

(** Splitting [sep ++ t] on a separator [sep] that does not occur in [t]
    and taking the last piece gives [t] back. *)
Lemma pop_split_prefixed (sep t : string) :
  sep <> "" -> occursIn sep t = false ->
  pop (split sep (sep +:+ t)) = Some t.
Proof.
  intros Hsep Hocc. destruct sep as [|c sep]; [congruence|].
  unfold split. rewrite append_cons. cbn [split_from].
  rewrite <- append_cons, prefix_append. cbn [String.length].
  rewrite Nat.sub_1_r. cbn [Nat.pred].
  rewrite split_from_skip, (split_from_absent _ _ _ Hocc). reflexivity.
Qed.

Section PoolFacts.
Variable dexKey : string.
Variable ETHER_ADDRESS ZERO_ADDRESS : string.

Lemma getPoolIdentifier_shape (srcAddress destAddress mm : string) :
  getPoolIdentifier dexKey srcAddress destAddress mm
  = (getIdentifierPrefix dexKey srcAddress destAddress +:+ "_")
    +:+ toLowerCase mm.
Proof.
  unfold getPoolIdentifier. rewrite !toLowerCase_app.
  unfold getIdentifierPrefix. rewrite toLowerCase_idempotent.
  rewrite append_assoc. reflexivity.
Qed.

Lemma getPoolIdentifiers_In (levelsMap : LevelsMap) (srcToken destToken : Token)
    (p : string) :
  In p (getPoolIdentifiers dexKey ETHER_ADDRESS ZERO_ADDRESS levelsMap
          srcToken destToken) ->
  exists m,
    In m (keys levelsMap) /\
    p = getPoolIdentifier dexKey
          (address (normalizeToken ETHER_ADDRESS ZERO_ADDRESS srcToken))
          (address (normalizeToken ETHER_ADDRESS ZERO_ADDRESS destToken)) m.
Proof.
  unfold getPoolIdentifiers.
  destruct (String.eqb _ _); [intros []|].
  intros Hin. apply in_map_iff in Hin as (m & <- & Hm).
  apply filter_In in Hm as [Hm _]. eauto.
Qed.

(** Where the round trip does hold: for ASCII names, when the maker ids
    of the quote set are in lower case and none contains the exchange-pair
    prefix, the last piece of every pool identifier split on that prefix
    is a maker id of the quote set. *)
Theorem pool_identifier_round_trip (levelsMap : LevelsMap)
    (srcToken destToken : Token) (p : string) :
  let prefix :=
    getIdentifierPrefix dexKey
      (address (normalizeToken ETHER_ADDRESS ZERO_ADDRESS srcToken))
      (address (normalizeToken ETHER_ADDRESS ZERO_ADDRESS destToken)) in
  isASCII dexKey = true ->
  isASCII ZERO_ADDRESS = true ->
  isASCII (address srcToken) = true ->
  isASCII (address destToken) = true ->
  (forall m, In m (keys levelsMap) ->
             isASCII m = true
             /\ toLowerCase m = m
             /\ occursIn (prefix +:+ "_") m = false) ->
  In p (getPoolIdentifiers dexKey ETHER_ADDRESS ZERO_ADDRESS levelsMap
          srcToken destToken) ->
  exists m,
    In m (keys levelsMap)
    /\ p = getPoolIdentifier dexKey
             (address (normalizeToken ETHER_ADDRESS ZERO_ADDRESS srcToken))
             (address (normalizeToken ETHER_ADDRESS ZERO_ADDRESS destToken)) m
    /\ pop (split (prefix +:+ "_") p) = Some m
    /\ includes
         (marketMakersToUse prefix
            (getPoolIdentifiers dexKey ETHER_ADDRESS ZERO_ADDRESS levelsMap
               srcToken destToken)) m = true.
Proof.
  intros prefix _ _ _ _ Hkeys Hin.
  destruct (getPoolIdentifiers_In levelsMap srcToken destToken p Hin)
    as (m & Hm & Hp).
  destruct (Hkeys m Hm) as (_ & Hlower & Hocc).
  assert (Hpop : pop (split (prefix +:+ "_") p) = Some m).
  { rewrite Hp, getPoolIdentifier_shape, Hlower. fold prefix.
    apply pop_split_prefixed; [|exact Hocc].
    destruct prefix; discriminate. }
  exists m. repeat split; auto.
  unfold includes, marketMakersToUse. apply existsb_exists.
  exists (Some m). split; [|apply String.eqb_refl].
  apply in_map_iff. exists p. split; auto.
Qed.
End PoolFacts.

Lemma pool_identifier_round_trip_example :
  exists m,
    In m (keys lowerCaseMakerLevels)
    /\ "hashflow_0xaaa1_0xbbb2_mm1"
       = getPoolIdentifier "Hashflow" "0xaaa1" "0xbbb2" m
    /\ pop (split "hashflow_0xaaa1_0xbbb2_" "hashflow_0xaaa1_0xbbb2_mm1")
       = Some m
    /\ includes
         (marketMakersToUse "hashflow_0xaaa1_0xbbb2"
            (getPoolIdentifiers "Hashflow" "0xeeee" "0x0000"
               lowerCaseMakerLevels sampleSrcToken sampleDestToken)) m
       = true.
Proof.
  apply (pool_identifier_round_trip "Hashflow" "0xeeee" "0x0000"
           lowerCaseMakerLevels sampleSrcToken sampleDestToken
           "hashflow_0xaaa1_0xbbb2_mm1").
  - reflexivity.
  - reflexivity.
  - reflexivity.
  - reflexivity.
  - intros m [<-|[]]. repeat split; reflexivity.
  - left. reflexivity.
Defined.

(** C8: the round trip fails for a maker id in upper case.  The pool
    identifier [getPoolIdentifiers] gives for the maker is in lower case,
    the id [getPricesVolume] recovers from it is not a key of the quote
    set, and the maker that contributed the pool is dropped from the
    pricing. *)
Lemma pool_identifier_upper_case_maker :
  getPoolIdentifiers "Hashflow" "0xeeee" "0x0000" upperCaseMakerLevels
    sampleSrcToken sampleDestToken = ["hashflow_0xaaa1_0xbbb2_mm1"]
  /\ pop (split "hashflow_0xaaa1_0xbbb2_" "hashflow_0xaaa1_0xbbb2_mm1")
     = Some "mm1"
  /\ ~ In "mm1" (keys upperCaseMakerLevels)
  /\ getPricesVolume decimalBigNumber "Hashflow" "0xrouter" "0xeeee" "0x0000"
       upperCaseMakerLevels sampleSrcToken sampleDestToken [5] SELL None
     = Normal (Some []).
Proof.
  repeat split; try (vm_compute; reflexivity).
  intros [H|[]]. discriminate.
Qed.

(** ** Rounding is monotone *)

Module RoundOrder.
Import BigNum.

Lemma isNegQ_false_iff (q : Q) : isNegQ q = false <-> (0 <= q)%Q.
Proof.
  rewrite <- not_true_iff_false, RoundFacts.isNegQ_iff. split.
  - apply Qnot_lt_le.
  - apply Qle_not_lt.
Qed.

Lemma round_half_up_monotone (x y : Q) :
  (x <= y)%Q -> round_half_up x <= round_half_up y.
Proof.
  intros Hxy. unfold round_half_up.
  destruct (isNegQ x) eqn:Hx, (isNegQ y) eqn:Hy.
  - apply Z.opp_le_mono. rewrite !Z.opp_involutive.
    apply Qfloor_resp_le. lra.
  - apply RoundFacts.isNegQ_iff in Hx. apply isNegQ_false_iff in Hy.
    assert (0 <= Qfloor (- x + (1 # 2))).
    { change 0 with (Qfloor (inject_Z 0)). rewrite Qfloor_Z.
      rewrite <- (Qfloor_Z 0). apply Qfloor_resp_le.
      change (inject_Z 0) with 0%Q. lra. }
    assert (0 <= Qfloor (y + (1 # 2))).
    { rewrite <- (Qfloor_Z 0). apply Qfloor_resp_le.
      change (inject_Z 0) with 0%Q. lra. }
    lia.
  - apply RoundFacts.isNegQ_iff in Hy. apply isNegQ_false_iff in Hx. lra.
  - apply Qfloor_resp_le. lra.
Qed.

Lemma round_half_up_comp (x y : Q) :
  (x == y)%Q -> round_half_up x = round_half_up y.
Proof.
  intros Hxy. apply Z.le_antisymm; apply round_half_up_monotone;
    rewrite Hxy; apply Qle_refl.
Qed.

Lemma Qfloor_half (k : Z) : Qfloor (inject_Z k + (1 # 2)) = k.
Proof.
  apply Z.le_antisymm.
  - apply Z.lt_succ_r. rewrite Zlt_Qlt.
    eapply Qle_lt_trans; [apply Qfloor_le|].
    unfold Z.succ. rewrite inject_Z_plus. change (inject_Z 1) with 1%Q. lra.
  - rewrite <- (Qfloor_Z k) at 1. apply Qfloor_resp_le. lra.
Qed.

Lemma round_half_up_Z (k : Z) : round_half_up (inject_Z k) = k.
Proof.
  unfold round_half_up. destruct (isNegQ (inject_Z k)).
  - rewrite <- inject_Z_opp, Qfloor_half. lia.
  - apply Qfloor_half.
Qed.

Lemma scale_positive : (0 < inject_Z (10 ^ DECIMAL_PLACES))%Q.
Proof. reflexivity. Qed.

Lemma round_dp_value (q : Q) :
  (round_dp q ==
   inject_Z (round_half_up (q * inject_Z (10 ^ DECIMAL_PLACES)))
   / inject_Z (10 ^ DECIMAL_PLACES))%Q.
Proof. unfold round_dp. apply Qred_correct. Qed.

Lemma round_dp_monotone (x y : Q) : (x <= y)%Q -> (round_dp x <= round_dp y)%Q.
Proof.
  intros Hxy. rewrite !round_dp_value.
  apply Qmult_le_compat_r.
  - rewrite <- Zle_Qle. apply round_half_up_monotone.
    apply Qmult_le_compat_r; [exact Hxy|]. apply Qlt_le_weak, scale_positive.
  - apply Qlt_le_weak, Qinv_lt_0_compat, scale_positive.
Qed.

Lemma round_dp_comp (x y : Q) : (x == y)%Q -> (round_dp x == round_dp y)%Q.
Proof.
  intros Hxy. apply Qle_antisym; apply round_dp_monotone; rewrite Hxy;
    apply Qle_refl.
Qed.

#[global] Instance round_dp_Proper : Proper (Qeq ==> Qeq) round_dp.
Proof. intros x y Hxy. apply round_dp_comp. exact Hxy. Qed.

(** A value with at most DECIMAL_PLACES decimals is left as it is. *)
Lemma round_dp_exact (q : Q) (k : Z) :
  (q * inject_Z (10 ^ DECIMAL_PLACES) == inject_Z k)%Q ->
  (round_dp q == q)%Q.
Proof.
  intros Hk. rewrite round_dp_value, (round_half_up_comp _ _ Hk),
    round_half_up_Z, <- Hk.
  field. intros H. pose proof scale_positive as Hpos. rewrite H in Hpos.
  discriminate.
Qed.

Lemma round_dp_fixed_scaled (q : Q) :
  (round_dp q == q)%Q ->
  exists k, (q * inject_Z (10 ^ DECIMAL_PLACES) == inject_Z k)%Q.
Proof.
  intros Hfix.
  exists (round_half_up (q * inject_Z (10 ^ DECIMAL_PLACES))).
  rewrite <- Hfix at 1. rewrite round_dp_value. field.
  intros H. pose proof scale_positive as Hpos. rewrite H in Hpos.
  discriminate.
Qed.

Lemma round_dp_fixed_minus (x y : Q) :
  (round_dp x == x)%Q -> (round_dp y == y)%Q ->
  (round_dp (x - y) == x - y)%Q.
Proof.
  intros Hx Hy.
  destruct (round_dp_fixed_scaled x Hx) as [kx Hkx].
  destruct (round_dp_fixed_scaled y Hy) as [ky Hky].
  apply (round_dp_exact _ (kx - ky)).
  unfold Zminus. rewrite inject_Z_plus, inject_Z_opp, <- Hkx, <- Hky. ring.
Qed.

Lemma round_dp_nonneg (x : Q) : (0 <= x)%Q -> (0 <= round_dp x)%Q.
Proof.
  intros Hx.
  assert (H0 : (round_dp 0 == 0)%Q) by reflexivity.
  rewrite <- H0. apply round_dp_monotone. exact Hx.
Qed.

End RoundOrder.

(** ** Monotone outputs *)

Section SellWalk.
Import BigNum.

Lemma finite_cons (next : PriceLevelBN) (rest : list PriceLevelBN) :
  finiteLevels (next :: rest) = true ->
  (exists l p, next = {| levelBN := BN l; priceBN := BN p |})
  /\ finiteLevels rest = true.
Proof.
  unfold finiteLevels. cbn [forallb]. intros H.
  apply andb_prop in H as [Hn Hrest]. apply andb_prop in Hn as [Hl Hp].
  split; [|exact Hrest].
  destruct next as [[| |l] [| |p]]; try discriminate. eauto.
Qed.

Lemma increasing_cons (b l : Q) (pb p : BigNumber) (rest : list PriceLevelBN) :
  increasingLevels ({| levelBN := BN b; priceBN := pb |}
                    :: {| levelBN := BN l; priceBN := p |} :: rest) = true ->
  (b < l)%Q
  /\ increasingLevels ({| levelBN := BN l; priceBN := p |} :: rest) = true.
Proof.
  cbn [increasingLevels levelBN]. intros H. apply andb_prop in H as [Hlt Hrest].
  split; [apply BigNumFacts.lt_fin; exact Hlt|exact Hrest].
Qed.

Lemma sell_lower_bound (rest : list PriceLevelBN) :
  forall (b q x : Q) (pb o : BigNumber),
    finiteLevels rest = true ->
    increasingLevels ({| levelBN := BN b; priceBN := pb |} :: rest) = true ->
    nonNegativePrices rest = true ->
    (b <= x)%Q ->
    levelsLoop (Some (BN x)) None {| levelBN := BN b; priceBN := pb |} rest
      {| baseAmount := BN b; quoteAmount := BN q |} = Some o ->
    exists y, o = BN y /\ (q <= y)%Q.
Proof.
  induction rest as [|next rest IH]; intros b q x pb o Hfin Hinc Hnn Hbx Hloop;
    [discriminate|].
  destruct (finite_cons _ _ Hfin) as [(l & p & ->) Hfin'].
  destruct (increasing_cons _ _ _ _ _ Hinc) as [Hbl Hinc'].
  unfold nonNegativePrices in Hnn. cbn [forallb priceBN] in Hnn.
  apply andb_prop in Hnn as [Hp Hnn']. apply BigNumFacts.gte_fin in Hp.
  cbn [levelsLoop levelBN priceBN baseAmount quoteAmount minus plus
       multipliedBy] in Hloop.
  destruct (lte (BN x) (BN l)) eqn:Hxl.
  - injection Hloop as <-. eexists. split; [reflexivity|].
    rewrite !Qred_correct.
    assert (0 <= (x - b) * p)%Q by (apply Qmult_le_0_compat; lra).
    set (t := ((x - b) * p)%Q) in *. lra.
  - apply BigNumFacts.lte_fin_false in Hxl.
    assert (Hlx : (l <= x)%Q) by lra.
    destruct (IH _ _ _ _ _ Hfin' Hinc' Hnn' Hlx Hloop) as (y & -> & Hy).
    exists y. split; [reflexivity|].
    rewrite !Qred_correct in Hy.
    assert (0 <= (l - b) * p)%Q by (apply Qmult_le_0_compat; lra).
    set (t := ((l - b) * p)%Q) in *. lra.
Qed.

Lemma sell_monotone (rest : list PriceLevelBN) :
  forall (b q x1 x2 : Q) (pb o1 o2 : BigNumber),
    finiteLevels rest = true ->
    increasingLevels ({| levelBN := BN b; priceBN := pb |} :: rest) = true ->
    nonNegativePrices rest = true ->
    (b <= x1)%Q -> (x1 <= x2)%Q ->
    levelsLoop (Some (BN x1)) None {| levelBN := BN b; priceBN := pb |} rest
      {| baseAmount := BN b; quoteAmount := BN q |} = Some o1 ->
    levelsLoop (Some (BN x2)) None {| levelBN := BN b; priceBN := pb |} rest
      {| baseAmount := BN b; quoteAmount := BN q |} = Some o2 ->
    exists y1 y2, o1 = BN y1 /\ o2 = BN y2 /\ (y1 <= y2)%Q.
Proof.
  induction rest as [|next rest IH];
    intros b q x1 x2 pb o1 o2 Hfin Hinc Hnn Hb Hx H1 H2; [discriminate|].
  destruct (finite_cons _ _ Hfin) as [(l & p & ->) Hfin'].
  destruct (increasing_cons _ _ _ _ _ Hinc) as [Hbl Hinc'].
  unfold nonNegativePrices in Hnn. cbn [forallb priceBN] in Hnn.
  apply andb_prop in Hnn as [Hp Hnn']. apply BigNumFacts.gte_fin in Hp.
  cbn [levelsLoop levelBN priceBN baseAmount quoteAmount minus plus
       multipliedBy] in H1, H2.
  destruct (lte (BN x1) (BN l)) eqn:Hx1, (lte (BN x2) (BN l)) eqn:Hx2.
  - injection H1 as <-. injection H2 as <-. do 2 eexists.
    split; [reflexivity|]. split; [reflexivity|].
    rewrite !Qred_correct.
    assert ((x1 - b) * p <= (x2 - b) * p)%Q
      by (apply Qmult_le_compat_r; lra).
    set (t1 := ((x1 - b) * p)%Q) in *. set (t2 := ((x2 - b) * p)%Q) in *. lra.
  - injection H1 as <-. apply BigNumFacts.lte_fin in Hx1.
    apply BigNumFacts.lte_fin_false in Hx2.
    assert (Hlx : (l <= x2)%Q) by lra.
    destruct (sell_lower_bound _ _ _ _ _ _ Hfin' Hinc' Hnn' Hlx H2)
      as (y2 & -> & Hy2).
    do 2 eexists. split; [reflexivity|]. split; [reflexivity|].
    rewrite !Qred_correct in *.
    assert ((x1 - b) * p <= (l - b) * p)%Q
      by (apply Qmult_le_compat_r; lra).
    set (t1 := ((x1 - b) * p)%Q) in *. set (t2 := ((l - b) * p)%Q) in *. lra.
  - apply BigNumFacts.lte_fin in Hx2.
    apply BigNumFacts.lte_fin_false in Hx1. lra.
  - apply BigNumFacts.lte_fin_false in Hx1.
    assert (Hlx : (l <= x1)%Q) by lra.
    apply (IH _ _ _ _ _ _ _ Hfin' Hinc' Hnn' Hlx Hx H1 H2).
Qed.
End SellWalk.

Section BuyWalk.
Import BigNum.

Lemma isZeroQ_positive (p : Q) : (0 < p)%Q -> isZeroQ p = false.
Proof.
  unfold isZeroQ, Qlt. cbn [Qnum Qden]. intros H. apply Z.eqb_neq. lia.
Qed.

Lemma positive_cons (l p : Q) (rest : list PriceLevelBN) :
  positivePrices ({| levelBN := BN l; priceBN := BN p |} :: rest) = true ->
  (0 < p)%Q /\ positivePrices rest = true.
Proof.
  unfold positivePrices. cbn [forallb priceBN]. intros H.
  apply andb_prop in H as [Hp Hrest]. split; [|exact Hrest].
  apply BigNumFacts.gt_fin. exact Hp.
Qed.

Lemma precise_cons (l : Q) (p : BigNumber) (rest : list PriceLevelBN) :
  preciseLevels ({| levelBN := BN l; priceBN := p |} :: rest) = true ->
  (round_dp l == l)%Q /\ preciseLevels rest = true.
Proof.
  unfold preciseLevels. cbn [forallb levelBN]. intros H.
  apply andb_prop in H as [Hl Hrest]. split; [|exact Hrest].
  apply Qeq_bool_eq. exact Hl.
Qed.

Lemma buy_lower_bound (rest : list PriceLevelBN) :
  forall (b q x : Q) (pb o : BigNumber),
    finiteLevels rest = true ->
    increasingLevels ({| levelBN := BN b; priceBN := pb |} :: rest) = true ->
    positivePrices rest = true ->
    (q <= x)%Q ->
    levelsLoop None (Some (BN x)) {| levelBN := BN b; priceBN := pb |} rest
      {| baseAmount := BN b; quoteAmount := BN q |} = Some o ->
    exists y, o = BN y /\ (b <= y)%Q.
Proof.
  induction rest as [|next rest IH]; intros b q x pb o Hfin Hinc Hpos Hqx Hloop;
    [discriminate|].
  destruct (finite_cons _ _ Hfin) as [(l & p & ->) Hfin'].
  destruct (increasing_cons _ _ _ _ _ Hinc) as [Hbl Hinc'].
  destruct (positive_cons _ _ _ Hpos) as [Hp Hpos'].
  cbn [levelsLoop levelBN priceBN baseAmount quoteAmount minus plus
       multipliedBy dividedBy] in Hloop.
  rewrite (isZeroQ_positive p Hp) in Hloop.
  destruct (lte (BN x) _) eqn:Hxq in Hloop.
  - injection Hloop as <-. eexists. split; [reflexivity|].
    rewrite !Qred_correct.
    assert (0 <= round_dp ((x - q) / p))%Q.
    { apply RoundOrder.round_dp_nonneg.
      apply Qle_shift_div_l; [exact Hp|]. lra. }
    set (t := round_dp _) in *. lra.
  - apply BigNumFacts.lte_fin_false in Hxq.
    assert (Hq' : (Qred (q + Qred (Qred (l - b) * p)) <= x)%Q) by lra.
    destruct (IH _ _ _ _ _ Hfin' Hinc' Hpos' Hq' Hloop) as (y & -> & Hy).
    exists y. split; [reflexivity|]. lra.
Qed.

Lemma buy_monotone (rest : list PriceLevelBN) :
  forall (b q x1 x2 : Q) (pb o1 o2 : BigNumber),
    finiteLevels rest = true ->
    increasingLevels ({| levelBN := BN b; priceBN := pb |} :: rest) = true ->
    positivePrices rest = true ->
    preciseLevels ({| levelBN := BN b; priceBN := pb |} :: rest) = true ->
    (q <= x1)%Q -> (x1 <= x2)%Q ->
    levelsLoop None (Some (BN x1)) {| levelBN := BN b; priceBN := pb |} rest
      {| baseAmount := BN b; quoteAmount := BN q |} = Some o1 ->
    levelsLoop None (Some (BN x2)) {| levelBN := BN b; priceBN := pb |} rest
      {| baseAmount := BN b; quoteAmount := BN q |} = Some o2 ->
    exists y1 y2, o1 = BN y1 /\ o2 = BN y2 /\ (y1 <= y2)%Q.
Proof.
  induction rest as [|next rest IH];
    intros b q x1 x2 pb o1 o2 Hfin Hinc Hpos Hprec Hq Hx H1 H2;
    [discriminate|].
  destruct (finite_cons _ _ Hfin) as [(l & p & ->) Hfin'].
  destruct (increasing_cons _ _ _ _ _ Hinc) as [Hbl Hinc'].
  destruct (positive_cons _ _ _ Hpos) as [Hp Hpos'].
  destruct (precise_cons _ _ _ Hprec) as [Hpb Hprec'].
  destruct (precise_cons _ _ _ Hprec') as [Hpl _].
  cbn [levelsLoop levelBN priceBN baseAmount quoteAmount minus plus
       multipliedBy dividedBy] in H1, H2.
  rewrite (isZeroQ_positive p Hp) in H1, H2.
  set (q' := Qred (q + Qred (Qred (l - b) * p))) in *.
  assert (Hq' : (q' == q + (l - b) * p)%Q)
    by (unfold q'; rewrite !Qred_correct; reflexivity).
  destruct (lte (BN x1) (BN q')) eqn:Hx1, (lte (BN x2) (BN q')) eqn:Hx2.
  - injection H1 as <-. injection H2 as <-. do 2 eexists.
    split; [reflexivity|]. split; [reflexivity|].
    rewrite !Qred_correct.
    assert (round_dp ((x1 - q) / p) <= round_dp ((x2 - q) / p))%Q.
    { apply RoundOrder.round_dp_monotone.
      apply Qmult_le_compat_r; [lra|].
      apply Qlt_le_weak, Qinv_lt_0_compat, Hp. }
    set (t1 := round_dp ((x1 - q) / p)) in *.
    set (t2 := round_dp ((x2 - q) / p)) in *. lra.
  - injection H1 as <-. apply BigNumFacts.lte_fin in Hx1.
    apply BigNumFacts.lte_fin_false in Hx2.
    assert (Hlx : (q' <= x2)%Q) by lra.
    destruct (buy_lower_bound _ _ _ _ _ _ Hfin' Hinc' Hpos' Hlx H2)
      as (y2 & -> & Hy2).
    do 2 eexists. split; [reflexivity|]. split; [reflexivity|].
    rewrite !Qred_correct.
    assert (round_dp ((x1 - q) / p) <= l - b)%Q.
    { rewrite <- (RoundOrder.round_dp_fixed_minus l b Hpl Hpb).
      apply RoundOrder.round_dp_monotone.
      apply Qle_shift_div_r; [exact Hp|].
      set (t := ((l - b) * p)%Q) in *. lra. }
    set (t := round_dp ((x1 - q) / p)) in *. lra.
  - apply BigNumFacts.lte_fin in Hx2.
    apply BigNumFacts.lte_fin_false in Hx1. lra.
  - apply BigNumFacts.lte_fin_false in Hx1.
    assert (Hlx : (q' <= x1)%Q) by lra.
    apply (IH _ _ _ _ _ _ _ Hfin' Hinc' Hpos' Hprec' Hlx Hx H1 H2).
Qed.
End BuyWalk.

Section Monotone.
Import BigNum.
Variable newBigNumber : string -> BigNumber.

Lemma quoteForSide_monotone (side : SwapSide) (lv : list PriceLevel)
    (x1 x2 : Q) (o1 o2 : BigNumber) :
  regularCurve side (toPriceLevelsBN newBigNumber lv) = true ->
  (x1 <= x2)%Q ->
  quoteForSide newBigNumber lv side (BN x1) = Some o1 ->
  quoteForSide newBigNumber lv side (BN x2) = Some o2 ->
  exists y1 y2, o1 = BN y1 /\ o2 = BN y2 /\ (y1 <= y2)%Q.
Proof.
  unfold regularCurve, quoteForSide, computeLevelsQuote.
  intros Hreg Hx H1 H2.
  apply andb_prop in Hreg as [Hreg Hside].
  apply andb_prop in Hreg as [Hfin Hinc].
  destruct (toPriceLevelsBN newBigNumber lv) as [|level0 rest];
    [destruct side; discriminate|].
  destruct (finite_cons _ _ Hfin) as [(l0 & p0 & ->) Hfin'].
  destruct side; cbn [andThen baseAmount quoteAmount levelBN priceBN
                      multipliedBy orb] in H1, H2.
  - rewrite orb_false_r in H1, H2.
    destruct (lt (BN x1) (BN l0)) eqn:Hlt1; [discriminate|].
    destruct (lt (BN x2) (BN l0)) eqn:Hlt2; [discriminate|].
    apply BigNumFacts.lt_fin_false in Hlt1.
    unfold nonNegativePrices in Hside. cbn [forallb] in Hside.
    apply andb_prop in Hside as [_ Hnn].
    exact (sell_monotone rest _ _ _ _ _ _ _ Hfin' Hinc Hnn Hlt1 Hx H1 H2).
  - destruct (lt (BN x1) _) eqn:Hlt1 in H1; [discriminate|].
    destruct (lt (BN x2) _) eqn:Hlt2 in H2; [discriminate|].
    apply BigNumFacts.lt_fin_false in Hlt1.
    apply andb_prop in Hside as [Hpos Hprec].
    destruct (positive_cons _ _ _ Hpos) as [_ Hpos'].
    exact (buy_monotone rest _ _ _ _ _ _ _ Hfin' Hinc Hpos' Hprec Hlt1 Hx
             H1 H2).
Qed.

Lemma regular_addZeroLevel (side : SwapSide) (levels : list PriceLevel) :
  newBigNumber "0" = BN 0 ->
  regularCurve side (toPriceLevelsBN newBigNumber levels) = true ->
  regularCurve side
    (toPriceLevelsBN newBigNumber (addZeroLevel newBigNumber levels)) = true.
Proof.
  intros Hzero Hreg. destruct levels as [|firstLevel rest]; [exact Hreg|].
  cbn [addZeroLevel].
  destruct (gt (newBigNumber (level firstLevel)) (BN 0)) eqn:Hfirst;
    [|exact Hreg].
  unfold regularCurve in *. cbn [toPriceLevelsBN map level price] in *.
  rewrite Hzero.
  apply andb_prop in Hreg as [Hreg Hside].
  apply andb_prop in Hreg as [Hfin Hinc].
  destruct (finite_cons _ _ Hfin) as [(l0 & p0 & Heq) _].
  injection Heq as Hl0 Hp0. rewrite Hl0 in Hfirst.
  apply andb_true_intro. split; [apply andb_true_intro; split|].
  - unfold finiteLevels in *. cbn [forallb levelBN priceBN] in *.
    rewrite Hp0 in *. exact Hfin.
  - cbn [increasingLevels levelBN] in *. rewrite Hl0 in *.
    apply andb_true_intro. split; [|exact Hinc].
    apply BigNumFacts.lt_fin. apply BigNumFacts.gt_fin in Hfirst.
    exact Hfirst.
  - destruct side.
    + unfold nonNegativePrices in *. cbn [forallb priceBN] in *.
      apply andb_prop in Hside as [Hp Hrest]. rewrite Hp, Hrest. reflexivity.
    + apply andb_prop in Hside as [Hpos Hprec].
      unfold positivePrices, preciseLevels in *.
      cbn [forallb priceBN levelBN] in *.
      apply andb_prop in Hpos as [Hp Hrest]. rewrite Hp, Hrest, Hprec.
      reflexivity.
Qed.
End Monotone.

Section Outputs.
Import BigNum.
Variable newBigNumber : string -> BigNumber.

Lemma toBigInt_finite (decimals : Z) (y : Q) :
  toBigInt decimals (BN y)
  = Normal (round_half_up (y * 10 ^ decimals)).
Proof.
  unfold toBigInt, getBigNumberPow.
  cbn [multipliedBy toFixed0_BigInt]. f_equal.
  rewrite RoundFacts.round_half_up_Qred.
  apply RoundOrder.round_half_up_comp. rewrite Qred_correct. reflexivity.
Qed.

Lemma toBigInt_zero (decimals : Z) : toBigInt decimals BN_0 = Normal 0.
Proof.
  unfold BN_0. rewrite toBigInt_finite.
  f_equal. rewrite <- (RoundOrder.round_half_up_Z 0).
  apply RoundOrder.round_half_up_comp. apply Qmult_0_l.
Qed.

Lemma toBigInt_monotone (decimals : Z) (y1 y2 : Q) :
  (y1 <= y2)%Q ->
  round_half_up (y1 * 10 ^ decimals) <= round_half_up (y2 * 10 ^ decimals).
Proof.
  intros Hy. apply RoundOrder.round_half_up_monotone.
  apply Qmult_le_compat_r; [exact Hy|].
  apply Qlt_le_weak, Qpower_0_lt. reflexivity.
Qed.

Lemma toBigInts_zeros (decimals : Z) (k : nat) :
  toBigInts decimals (repeat BN_0 k) = Normal (repeat 0 k).
Proof.
  induction k as [|k IH]; [reflexivity|].
  cbn [repeat toBigInts]. rewrite toBigInt_zero, IH. reflexivity.
Qed.

Lemma positive_amount (a : BigNumber) :
  finiteb a && gt a (BN 0) = true ->
  exists x, a = BN x /\ (0 < x)%Q /\ isZero a = false.
Proof.
  intros H. apply andb_prop in H as [Hfin Hgt].
  destruct a as [| |x]; try discriminate.
  apply BigNumFacts.gt_fin in Hgt. exists x. repeat split; auto.
  cbn [isZero]. unfold isZeroQ. apply Z.eqb_neq.
  unfold Qlt in Hgt. cbn [Qnum Qden] in Hgt. lia.
Qed.

Lemma outputs_shape (side : SwapSide) (lv : list PriceLevel) (decimals : Z)
    (amounts : list BigNumber) :
  regularCurve side (toPriceLevelsBN newBigNumber lv) = true ->
  positiveAmounts amounts = true ->
  nonDecreasing amounts = true ->
  let quote := quoteForSide newBigNumber lv side in
  let n := fillable quote amounts in
  let zs := map (pricedAt decimals quote) (firstn n amounts) in
  toBigInts decimals (fst (outputsLoop newBigNumber lv side amounts))
  = Normal (zs ++ repeat 0 (List.length amounts - n))
  /\ snd (outputsLoop newBigNumber lv side amounts)
     = Nat.min (S n) (List.length amounts)
  /\ nonDecreasingZ zs.
Proof.
  intros Hreg. induction amounts as [|a rest IH]; intros Hpos Hsorted;
    cbv zeta in *; [repeat split|].
  unfold positiveAmounts in Hpos. cbn [forallb] in Hpos.
  apply andb_prop in Hpos as [Ha Hpos'].
  destruct (positive_amount a Ha) as (x & -> & Hx & Hzero).
  assert (Hsorted' : nonDecreasing rest = true).
  { destruct rest; [reflexivity|]. cbn [nonDecreasing] in Hsorted.
    apply andb_prop in Hsorted. tauto. }
  specialize (IH Hpos' Hsorted').
  cbn [outputsLoop fillable]. rewrite Hzero.
  destruct (quoteForSide newBigNumber lv side (BN x)) as [o|] eqn:Hq.
  - destruct (quoteForSide_monotone newBigNumber side lv x x o o Hreg
                (Qle_refl x) Hq Hq) as (y & _ & -> & _ & _).
    destruct (outputsLoop newBigNumber lv side rest) as [outs calls].
    cbn [fst snd] in *. destruct IH as (IHouts & IHcalls & IHsorted).
    cbn [toBigInts firstn map List.length].
    rewrite toBigInt_finite, IHouts.
    split; [|split].
    + assert (Hp : pricedAt decimals (quoteForSide newBigNumber lv side)
                     (BN x) = round_half_up (y * 10 ^ decimals))
        by (unfold pricedAt; rewrite Hq; reflexivity).
      rewrite Hp. reflexivity.
    + rewrite IHcalls. destruct rest; reflexivity.
    + destruct rest as [|b rest']; [exact I|].
      cbn [fillable] in *.
      destruct (quoteForSide newBigNumber lv side b) as [ob|] eqn:Hqb;
        [|exact I].
      cbn [firstn map] in *. split; [|exact IHsorted].
      cbn [forallb] in Hpos'. apply andb_prop in Hpos' as [Hb _].
      destruct (positive_amount b Hb) as (xb & -> & _ & _).
      cbn [nonDecreasing] in Hsorted. apply andb_prop in Hsorted as [Hab _].
      apply BigNumFacts.lte_fin in Hab.
      destruct (quoteForSide_monotone newBigNumber side lv x xb _ _ Hreg
                  Hab Hq Hqb) as (y1 & y2 & Hy1 & -> & Hy).
      injection Hy1 as <-.
      unfold pricedAt at 1 2. rewrite Hq, Hqb. apply toBigInt_monotone.
      exact Hy.
  - cbn [fst snd firstn map List.length app]. rewrite Nat.sub_0_r.
    split; [|split].
    + apply (toBigInts_zeros decimals (S (List.length rest))).
    + reflexivity.
    + exact I.
Qed.
End Outputs.

Lemma fillable_le (quote : BigNumber -> option BigNumber)
    (amounts : list BigNumber) :
  (fillable quote amounts <= List.length amounts)%nat.
Proof.
  induction amounts as [|a rest IH]; [reflexivity|].
  cbn [fillable List.length]. destruct (quote a); lia.
Qed.

Section MonotoneOutputs.
Variable newBigNumber : string -> BigNumber.

(** C3 (as the code has it): on a regular curve and for positive amounts
    in non-decreasing order, the outputs of the amounts before the first
    unfillable one are non-decreasing; from the first unfillable amount
    on every output is 0, and the curve is not evaluated past it. *)
Theorem computePricesFromLevels_monotone_prefix (amounts : list BigNumber)
    (levels : list PriceLevel) (srcToken destToken : Token) (side : SwapSide) :
  newBigNumber "0" = BN 0 ->
  regularCurve side (toPriceLevelsBN newBigNumber levels) = true ->
  positiveAmounts amounts = true ->
  nonDecreasing amounts = true ->
  let n :=
    fillable (quoteForSide newBigNumber (addZeroLevel newBigNumber levels) side)
      amounts in
  exists outputs,
    snd (computePricesFromLevels newBigNumber amounts levels srcToken
           destToken side) = Normal outputs
    /\ List.length outputs = List.length amounts
    /\ nonDecreasingZ (firstn n outputs)
    /\ skipn n outputs = repeat 0 (List.length amounts - n)
    /\ curveEvaluations newBigNumber amounts levels side
       = Nat.min (S n) (List.length amounts).
Proof.
  intros Hzero Hreg Hpos Hsorted n.
  pose proof (regular_addZeroLevel newBigNumber side levels Hzero Hreg)
    as Hreg'.
  destruct (outputs_shape newBigNumber side
              (addZeroLevel newBigNumber levels)
              (match side with
               | SELL => decimals destToken
               | BUY => decimals srcToken
               end) amounts Hreg' Hpos Hsorted) as (Houts & Hcalls & Hmono).
  fold n in Houts, Hcalls, Hmono.
  pose proof (fillable_le
                (quoteForSide newBigNumber
                   (addZeroLevel newBigNumber levels) side) amounts) as Hn.
  fold n in Hn.
  set (zs := map _ (firstn n amounts)) in *.
  assert (Hlen : List.length zs = n).
  { unfold zs. rewrite length_map, length_firstn. lia. }
  exists (zs ++ repeat 0 (List.length amounts - n)).
  unfold computePricesFromLevels, curveEvaluations. cbn [snd].
  split; [exact Houts|]. split; [|split; [|split]].
  - rewrite length_app, repeat_length. lia.
  - rewrite firstn_app, Hlen, Nat.sub_diag, firstn_O, app_nil_r.
    rewrite <- Hlen, firstn_all. exact Hmono.
  - rewrite skipn_app, Hlen, Nat.sub_diag, skipn_O.
    rewrite <- Hlen, skipn_all. reflexivity.
  - exact Hcalls.
Qed.
End MonotoneOutputs.

(** Amounts 5, 15, 30 sold into the curve published up to 20: the first
    two are filled with non-decreasing outputs, the third is unfillable
    and stops the evaluation. *)
Lemma computePricesFromLevels_monotone_prefix_example :
  exists outputs,
    snd (computePricesFromLevels decimalBigNumber [BN 5; BN 15; BN 30]
           [ {| level := "10"; price := "2" |};
             {| level := "20"; price := "3" |} ]
           sampleSrcToken sampleDestToken SELL) = Normal outputs
    /\ List.length outputs = 3%nat
    /\ nonDecreasingZ (firstn 2 outputs)
    /\ skipn 2 outputs = [0]
    /\ curveEvaluations decimalBigNumber [BN 5; BN 15; BN 30]
         [ {| level := "10"; price := "2" |};
           {| level := "20"; price := "3" |} ] SELL = 3%nat.
Proof.
  apply (computePricesFromLevels_monotone_prefix decimalBigNumber
           [BN 5; BN 15; BN 30]
           [ {| level := "10"; price := "2" |};
             {| level := "20"; price := "3" |} ]
           sampleSrcToken sampleDestToken SELL); reflexivity.
Defined.

(** Amounts 5 and 15 sold into a curve published up to 10: the outputs
    are 10 and 0. *)
Lemma computePricesFromLevels_outputs_drop :
  snd (computePricesFromLevels decimalBigNumber [BN 5; BN 15]
         [ {| level := "0"; price := "2" |};
           {| level := "10"; price := "2" |} ]
         sampleSrcToken sampleDestToken SELL) = Normal [10; 0]
  /\ positiveAmounts [BN 5; BN 15] = true
  /\ nonDecreasing [BN 5; BN 15] = true
  /\ ~ nonDecreasingZ [10; 0].
Proof.
  repeat split; try (vm_compute; reflexivity).
  cbn [nonDecreasingZ]. lia.
Qed.

(** Outside the regular curves the outputs can decrease between two
    fillable amounts: with a negative price when selling, and with level
    sizes of 21 decimals when buying into a token of 21 decimals. *)
Lemma outputs_decrease_on_irregular_curves :
  snd (computePricesFromLevels decimalBigNumber [BN 5; BN 15]
         [ {| level := "0"; price := "2" |};
           {| level := "10"; price := "2" |};
           {| level := "20"; price := "-3" |} ]
         sampleSrcToken sampleDestToken SELL) = Normal [10; 5]
  /\ snd (computePricesFromLevels decimalBigNumber
            [ decimalBigNumber "1.000000000000000000006";
              decimalBigNumber "1.0000000000000000000061" ]
            fineGrainedLevels token21 token21 BUY)
     = Normal [1000000000000000000010; 1000000000000000000006].
Proof. split; vm_compute; reflexivity. Qed.

(** ** The curve walk by quote amount *)

Section QuoteWalk.
Variable newBigNumber : string -> BigNumber.

(** The loop entered at level [i] returns at tier [S (i + d)], the first
    whose cumulative quote amount covers a quote-amount request. *)
Lemma levelsLoop_quote (ls : list PriceLevelBN) (rq : BigNumber) :
  forall (d i : nat) (prev tier prior : PriceLevelBN) (quote : Quote),
    nth_error ls i = Some prev ->
    nth_error ls (i + d) = Some prior ->
    nth_error ls (S (i + d)) = Some tier ->
    baseAmount quote = levelBN prev ->
    quoteAmount quote = cumulativeQuoteAt ls i ->
    (forall k, (i < k <= i + d)%nat ->
               BigNum.lte rq (cumulativeQuoteAt ls k) = false) ->
    BigNum.lte rq (cumulativeQuoteAt ls (S (i + d))) = true ->
    levelsLoop None (Some rq) prev (skipn (S i) ls) quote
    = Some (BigNum.plus (levelBN prior)
              (BigNum.dividedBy
                 (BigNum.minus rq (cumulativeQuoteAt ls (i + d)))
                 (priceBN tier))).
Proof.
  induction d as [|d IH];
    intros i prev tier prior quote Hprev Hprior Htier Hb Hq Hbelow Hhit.
  - rewrite Nat.add_0_r in *.
    assert (prior = prev) by congruence; subst prior.
    rewrite (skipn_nth_error_cons ls (S i) tier Htier).
    cbn [levelsLoop].
    assert (Hcum : BigNum.plus (quoteAmount quote)
                     (BigNum.multipliedBy
                        (BigNum.minus (levelBN tier) (levelBN prev))
                        (priceBN tier))
                   = cumulativeQuoteAt ls (S i)).
    { cbn [cumulativeQuoteAt]. unfold levelAt, priceAt.
      rewrite Hq, Htier, Hprev. reflexivity. }
    rewrite Hcum, Hhit, Hq, Hb. reflexivity.
  - destruct (nth_error ls (S i)) as [next|] eqn:Hnext.
    + rewrite (skipn_nth_error_cons ls (S i) next Hnext).
      cbn [levelsLoop].
      assert (Hcum : BigNum.plus (quoteAmount quote)
                       (BigNum.multipliedBy
                          (BigNum.minus (levelBN next) (levelBN prev))
                          (priceBN next))
                     = cumulativeQuoteAt ls (S i)).
      { cbn [cumulativeQuoteAt]. unfold levelAt, priceAt.
        rewrite Hq, Hnext, Hprev. reflexivity. }
      rewrite Hcum, (Hbelow (S i)) by lia.
      replace (i + S d)%nat with (S i + d)%nat in * by lia.
      apply IH; auto.
      intros k Hk. apply Hbelow. lia.
    + apply nth_error_None in Hnext.
      assert (i + S d < List.length ls)%nat
        by (apply nth_error_Some; congruence).
      lia.
Qed.

(** For a request by quote amount, when tier [S j] is the first level
    whose cumulative quote amount covers the request, the result is the
    size of the prior level plus the remaining quote amount divided by the
    tier's price. *)
Theorem computeLevelsQuote_quote_interpolation
    (priceLevels : list PriceLevel) (rq : BigNumber) (j : nat)
    (prior tier : PriceLevelBN) :
  nth_error (toPriceLevelsBN newBigNumber priceLevels) j = Some prior ->
  nth_error (toPriceLevelsBN newBigNumber priceLevels) (S j) = Some tier ->
  (forall k, (k <= j)%nat ->
     BigNum.lte rq
       (cumulativeQuoteAt (toPriceLevelsBN newBigNumber priceLevels) k)
     = false) ->
  BigNum.lte rq
    (cumulativeQuoteAt (toPriceLevelsBN newBigNumber priceLevels) (S j))
  = true ->
  computeLevelsQuote newBigNumber priceLevels None (Some rq)
  = Some (BigNum.plus (levelBN prior)
            (BigNum.dividedBy
               (BigNum.minus rq
                  (cumulativeQuoteAt
                     (toPriceLevelsBN newBigNumber priceLevels) j))
               (priceBN tier))).
Proof.
  intros Hprior Htier Hbelow Hhit.
  unfold computeLevelsQuote.
  destruct (toPriceLevelsBN newBigNumber priceLevels) as [|level0 rest] eqn:Hls.
  - destruct j; discriminate.
  - cbn [andThen baseAmount quoteAmount orb].
    pose proof (Hbelow 0%nat ltac:(lia)) as H0.
    cbn [cumulativeQuoteAt] in H0. unfold levelAt, priceAt in H0.
    cbn [nth_error] in H0.
    rewrite (BigNumFacts.lte_false_lt_false _ _ H0).
    change rest with (skipn 1 (level0 :: rest)).
    apply (levelsLoop_quote (level0 :: rest) rq j 0 level0 tier prior);
      auto.
    intros k Hk. apply Hbelow. lia.
Qed.

Lemma levelsLoop_no_request (rest : list PriceLevelBN) :
  forall prev quote, levelsLoop None None prev rest quote = None.
Proof.
  induction rest as [|next rest IH]; intros prev quote; [reflexivity|].
  cbn [levelsLoop]. apply IH.
Qed.

(** Without a request parameter the result is [undefined] whatever the
    levels are, and a request below the first level (by size, or by
    size times price for a quote amount) is [undefined] as well: the
    curve is not extended downwards. *)
Theorem computeLevelsQuote_no_request_or_below
    (priceLevels : list PriceLevel) :
  computeLevelsQuote newBigNumber priceLevels None None = None
  /\ (forall first rest b,
         priceLevels = first :: rest ->
         BigNum.lt b (newBigNumber (level first)) = true ->
         computeLevelsQuote newBigNumber priceLevels (Some b) None = None)
  /\ (forall first rest q,
         priceLevels = first :: rest ->
         BigNum.lt q (BigNum.multipliedBy (newBigNumber (level first))
                        (newBigNumber (price first))) = true ->
         computeLevelsQuote newBigNumber priceLevels None (Some q) = None).
Proof.
  unfold computeLevelsQuote. split; [|split].
  - destruct (toPriceLevelsBN newBigNumber priceLevels); [reflexivity|].
    cbn [andThen orb]. apply levelsLoop_no_request.
  - intros first rest b -> Hlt.
    cbn [toPriceLevelsBN map andThen baseAmount levelBN]. rewrite Hlt.
    reflexivity.
  - intros first rest q -> Hlt.
    cbn [toPriceLevelsBN map andThen baseAmount quoteAmount levelBN priceBN
         orb]. rewrite Hlt. reflexivity.
Qed.

Lemma lt_right_comparable (a b : BigNumber) :
  BigNum.lt a b = true -> BigNum.lte b b = true.
Proof.
  intros H.
  destruct a as [|[]|x], b as [|[]|y]; try discriminate H;
    try reflexivity; apply BigNumFacts.lte_fin, Qle_refl.
Qed.

(** The curve passes through the published points: on strictly
    increasing levels, a base amount equal to the size of level [S j]
    gives the cumulative quote amount at that level. *)
Theorem computeLevelsQuote_at_published_level
    (priceLevels : list PriceLevel) (j : nat) (tier : PriceLevelBN) :
  increasingLevels (toPriceLevelsBN newBigNumber priceLevels) = true ->
  nth_error (toPriceLevelsBN newBigNumber priceLevels) (S j) = Some tier ->
  computeLevelsQuote newBigNumber priceLevels (Some (levelBN tier)) None
  = Some (cumulativeQuoteAt (toPriceLevelsBN newBigNumber priceLevels) (S j)).
Proof.
  intros Hinc Htier. unfold computeLevelsQuote.
  destruct (toPriceLevelsBN newBigNumber priceLevels) as [|level0 rest] eqn:Hls;
    [discriminate|].
  destruct (nth_error (level0 :: rest) j) as [prior|] eqn:Hprior.
  2:{ apply nth_error_None in Hprior.
      assert (S j < List.length (level0 :: rest))%nat
        by (apply nth_error_Some; congruence).
      lia. }
  assert (Hbelow : forall k l, (k <= j)%nat ->
            nth_error (level0 :: rest) k = Some l ->
            BigNum.lte (levelBN tier) (levelBN l) = false).
  { intros k l Hk Hl. apply BigNumOrder.lt_lte_false.
    apply (increasing_nth _ Hinc k (S j)); auto. lia. }
  assert (Hhit : BigNum.lte (levelBN tier) (levelBN tier) = true).
  { apply (lt_right_comparable (levelBN prior)).
    apply (increasing_nth _ Hinc j (S j)); auto. }
  cbn [andThen baseAmount quoteAmount].
  rewrite (BigNumFacts.lte_false_lt_false _ _
             (Hbelow 0%nat level0 ltac:(lia) eq_refl)).
  cbn [orb].
  assert (Hbelow' : forall k l, (0 < k <= 0 + j)%nat ->
            nth_error (level0 :: rest) k = Some l ->
            BigNum.lte (levelBN tier) (levelBN l) = false)
    by (intros k l Hk; apply Hbelow; lia).
  pose proof (levelsLoop_base (level0 :: rest) (levelBN tier) j 0 level0
                tier prior
                {| baseAmount := levelBN level0;
                   quoteAmount :=
                     BigNum.multipliedBy (levelBN level0) (priceBN level0) |}
                eq_refl Hprior Htier eq_refl eq_refl Hbelow' Hhit) as Hloop.
  change (skipn 1 (level0 :: rest)) with rest in Hloop.
  cbn [Nat.add] in Hloop. rewrite Hloop.
  cbn [cumulativeQuoteAt]. unfold levelAt, priceAt.
  rewrite Htier, Hprior. reflexivity.
Qed.
End QuoteWalk.

(** Levels (0, 2), (10, 2), (20, 3): a quote amount of 35 buys a base
    amount of 15. *)
Lemma computeLevelsQuote_quote_interpolation_example :
  computeLevelsQuote decimalBigNumber
    [ {| level := "0"; price := "2" |};
      {| level := "10"; price := "2" |};
      {| level := "20"; price := "3" |} ]
    None (Some (BN 35)) = Some (BN 15).
Proof.
  apply (computeLevelsQuote_quote_interpolation decimalBigNumber
           [ {| level := "0"; price := "2" |};
             {| level := "10"; price := "2" |};
             {| level := "20"; price := "3" |} ]
           (BN 35) 1
           {| levelBN := BN 10; priceBN := BN 2 |}
           {| levelBN := BN 20; priceBN := BN 3 |}).
  - reflexivity.
  - reflexivity.
  - intros [|[|k]] Hk; try lia; reflexivity.
  - reflexivity.
Defined.

(** On the same levels a base amount of 20, the size of the deepest
    level, gives the cumulative quote amount 50. *)
Lemma computeLevelsQuote_at_published_level_example :
  computeLevelsQuote decimalBigNumber
    [ {| level := "0"; price := "2" |};
      {| level := "10"; price := "2" |};
      {| level := "20"; price := "3" |} ]
    (Some (BN 20)) None = Some (BN 50).
Proof.
  apply (computeLevelsQuote_at_published_level decimalBigNumber
           [ {| level := "0"; price := "2" |};
             {| level := "10"; price := "2" |};
             {| level := "20"; price := "3" |} ]
           1 {| levelBN := BN 20; priceBN := BN 3 |}); reflexivity.
Defined.

(** ** The early exit of the pricing loop *)

Section EarlyExit.
Import BigNum.
Variable newBigNumber : string -> BigNumber.

Lemma lte_false_upward (x1 x2 : Q) (c : BigNumber) :
  lte (BN x1) c = false -> (x1 <= x2)%Q -> lte (BN x2) c = false.
Proof.
  destruct c as [|[]|y]; try (intros; reflexivity); try discriminate.
  intros H Hx. apply BigNumFacts.lte_fin_false in H.
  apply BigNumFacts.lte_fin_false. lra.
Qed.

Lemma lt_false_upward (x1 x2 : Q) (c : BigNumber) :
  lt (BN x1) c = false -> (x1 <= x2)%Q -> lt (BN x2) c = false.
Proof.
  destruct c as [|[]|y]; try (intros; reflexivity); try discriminate.
  intros H Hx. apply BigNumFacts.lt_fin_false in H.
  apply BigNumFacts.lt_fin_false. lra.
Qed.

Lemma levelsLoop_base_none_upward (x1 x2 : Q) (rest : list PriceLevelBN) :
  forall prev quote,
    (x1 <= x2)%Q ->
    levelsLoop (Some (BN x1)) None prev rest quote = None ->
    levelsLoop (Some (BN x2)) None prev rest quote = None.
Proof.
  induction rest as [|next rest IH]; intros prev quote Hx H1; [reflexivity|].
  cbn [levelsLoop] in *.
  destruct (lte (BN x1) (levelBN next)) eqn:E1; [discriminate|].
  rewrite (lte_false_upward _ _ _ E1 Hx). apply IH; assumption.
Qed.

Lemma levelsLoop_quote_none_upward (x1 x2 : Q) (rest : list PriceLevelBN) :
  forall prev quote,
    (x1 <= x2)%Q ->
    levelsLoop None (Some (BN x1)) prev rest quote = None ->
    levelsLoop None (Some (BN x2)) prev rest quote = None.
Proof.
  induction rest as [|next rest IH]; intros prev quote Hx H1; [reflexivity|].
  cbn [levelsLoop] in *.
  destruct (lte (BN x1) _) eqn:E1 in H1; [discriminate|].
  rewrite (lte_false_upward _ _ _ E1 Hx). apply IH; assumption.
Qed.

Lemma quote_none_upward (priceLevels : list PriceLevel) (side : SwapSide)
    (x1 x2 : Q) :
  (x1 <= x2)%Q ->
  belowFirstLevel newBigNumber priceLevels side (BN x1) = false ->
  quoteForSide newBigNumber priceLevels side (BN x1) = None ->
  quoteForSide newBigNumber priceLevels side (BN x2) = None.
Proof.
  unfold belowFirstLevel, quoteForSide, computeLevelsQuote.
  intros Hx Hstart H1.
  destruct (toPriceLevelsBN newBigNumber priceLevels) as [|level0 rest];
    [destruct side; reflexivity|].
  destruct side; cbn [andThen baseAmount quoteAmount orb] in *.
  - rewrite orb_false_r in *. rewrite Hstart in H1.
    rewrite (lt_false_upward _ _ _ Hstart Hx).
    apply (levelsLoop_base_none_upward x1 x2); assumption.
  - rewrite Hstart in H1. rewrite (lt_false_upward _ _ _ Hstart Hx).
    apply (levelsLoop_quote_none_upward x1 x2); assumption.
Qed.

(** When an amount that is not below the first level cannot be filled,
    no larger amount can, whatever the levels are. *)
Theorem unfillable_upward (priceLevels : list PriceLevel) (side : SwapSide)
    (x1 x2 : Q) :
  (x1 <= x2)%Q ->
  belowFirstLevel newBigNumber priceLevels side (BN x1) = false ->
  quoteForSide newBigNumber priceLevels side (BN x1) = None ->
  quoteForSide newBigNumber priceLevels side (BN x2) = None.
Proof. exact (quote_none_upward priceLevels side x1 x2). Qed.

Lemma zero_product_not_above (x l : Q) (p : BigNumber) :
  (0 < x)%Q -> (l == 0)%Q ->
  lt (BN x) (multipliedBy (BN l) p) = false.
Proof.
  intros Hx Hl.
  assert (Hz : isZeroQ l = true).
  { unfold isZeroQ. apply Z.eqb_eq. unfold Qeq in Hl. cbn in Hl. lia. }
  destruct p as [|s|p]; cbn [multipliedBy]; [reflexivity| |].
  - rewrite Hz. reflexivity.
  - apply BigNumFacts.lt_fin_false. rewrite Qred_correct, Hl. lra.
Qed.

Lemma positive_not_below (levels : list PriceLevel) (side : SwapSide) (x : Q) :
  newBigNumber "0" = BN 0 ->
  (side = BUY -> firstLevelNotNegative newBigNumber levels = true) ->
  (0 < x)%Q ->
  belowFirstLevel newBigNumber (addZeroLevel newBigNumber levels) side (BN x)
  = false.
Proof.
  intros Hzero Hfirst Hx. unfold belowFirstLevel.
  destruct levels as [|firstLevel rest]; [reflexivity|].
  cbn [addZeroLevel].
  destruct (gt (newBigNumber (level firstLevel)) (BN 0)) eqn:Hgt.
  - cbn [toPriceLevelsBN map levelBN priceBN level price]. rewrite Hzero.
    destruct side.
    + apply BigNumFacts.lt_fin_false. lra.
    + apply zero_product_not_above; [exact Hx|reflexivity].
  - cbn [toPriceLevelsBN map levelBN priceBN].
    destruct side.
    + destruct (newBigNumber (level firstLevel)) as [|[]|l];
        try reflexivity; try discriminate.
      apply BigNumFacts.lt_fin_false.
      apply not_true_iff_false in Hgt. rewrite BigNumFacts.gt_fin in Hgt.
      apply Qnot_lt_le in Hgt. lra.
    + specialize (Hfirst eq_refl). cbn [firstLevelNotNegative] in Hfirst.
      apply negb_true_iff in Hfirst.
      destruct (newBigNumber (level firstLevel)) as [|[]|l];
        try reflexivity; try discriminate.
      apply zero_product_not_above; [exact Hx|].
      apply not_true_iff_false in Hgt. rewrite BigNumFacts.gt_fin in Hgt.
      apply BigNumFacts.lt_fin_false in Hfirst.
      apply Qnot_lt_le in Hgt. apply Qle_antisym; assumption.
Qed.

Lemma nonDecreasing_head (x : Q) (rest : list BigNumber) :
  positiveAmounts rest = true ->
  nonDecreasing (BN x :: rest) = true ->
  forall b, In b rest -> exists y, b = BN y /\ (x <= y)%Q.
Proof.
  revert x. induction rest as [|c rest IH]; intros x Hpos Hsorted b Hb;
    [destruct Hb|].
  unfold positiveAmounts in Hpos. cbn [forallb] in Hpos.
  apply andb_prop in Hpos as [Hc Hpos'].
  destruct (positive_amount c Hc) as (y & -> & _ & _).
  cbn [nonDecreasing] in Hsorted. apply andb_prop in Hsorted as [Hxy Hrest].
  apply BigNumFacts.lte_fin in Hxy.
  destruct Hb as [<-|Hb]; [eauto|].
  destruct (IH y Hpos' Hrest b Hb) as (z & -> & Hz).
  exists z. split; [reflexivity|lra].
Qed.

Lemma outputsLoop_quoteEach (lv : list PriceLevel) (side : SwapSide)
    (amounts : list BigNumber) :
  positiveAmounts amounts = true ->
  nonDecreasing amounts = true ->
  (forall a, In a amounts -> belowFirstLevel newBigNumber lv side a = false) ->
  fst (outputsLoop newBigNumber lv side amounts)
  = quoteEach (quoteForSide newBigNumber lv side) amounts.
Proof.
  induction amounts as [|a rest IH]; intros Hpos Hsorted Hstart;
    [reflexivity|].
  unfold positiveAmounts in Hpos. cbn [forallb] in Hpos.
  apply andb_prop in Hpos as [Ha Hpos'].
  destruct (positive_amount a Ha) as (x & -> & Hx & Hzero).
  assert (Hsorted' : nonDecreasing rest = true).
  { destruct rest; [reflexivity|]. cbn [nonDecreasing] in Hsorted.
    apply andb_prop in Hsorted. tauto. }
  cbn [outputsLoop quoteEach map]. rewrite Hzero.
  destruct (quoteForSide newBigNumber lv side (BN x)) as [o|] eqn:Hq.
  - specialize (IH Hpos' Hsorted' (fun b Hb => Hstart b (or_intror Hb))).
    destruct (outputsLoop newBigNumber lv side rest) as [outs calls].
    cbn [fst] in *. rewrite IH. reflexivity.
  - cbn [fst repeat List.length]. f_equal.
    clear IH. unfold quoteEach.
    assert (Hall : forall b, In b rest ->
              quoteForSide newBigNumber lv side b = None).
    { intros b Hb.
      destruct (nonDecreasing_head x rest Hpos' Hsorted b Hb) as (y & -> & Hy).
      apply (quote_none_upward lv side x y Hy); [|exact Hq].
      apply Hstart. left. reflexivity. }
    clear - Hall. induction rest as [|b rest IH]; [reflexivity|].
    cbn [List.length repeat map].
    rewrite (Hall b (or_introl eq_refl)). f_equal.
    apply IH. intros c Hc. apply Hall. right. exact Hc.
Qed.

(** For positive amounts in non-decreasing order the early exit loses
    nothing: the prices returned are those of every amount priced on its
    own, with 0 for an amount the curve cannot fill.  When buying, the
    size of the first level is not to be below zero. *)
Theorem computePricesFromLevels_prices_each_amount
    (amounts : list BigNumber) (levels : list PriceLevel)
    (srcToken destToken : Token) (side : SwapSide) :
  newBigNumber "0" = BN 0 ->
  (side = BUY -> firstLevelNotNegative newBigNumber levels = true) ->
  positiveAmounts amounts = true ->
  nonDecreasing amounts = true ->
  snd (computePricesFromLevels newBigNumber amounts levels srcToken
         destToken side)
  = toBigInts
      (match side with
       | SELL => decimals destToken
       | BUY => decimals srcToken
       end)
      (quoteEach
         (quoteForSide newBigNumber (addZeroLevel newBigNumber levels) side)
         amounts).
Proof.
  intros Hzero Hfirst Hpos Hsorted.
  unfold computePricesFromLevels. cbn [snd]. f_equal.
  apply outputsLoop_quoteEach; auto.
  intros a Ha. unfold positiveAmounts in Hpos.
  rewrite forallb_forall in Hpos.
  destruct (positive_amount a (Hpos a Ha)) as (x & -> & Hx & _).
  apply positive_not_below; assumption.
Qed.
End EarlyExit.

(** Amounts 5, 15, 30, 40 sold into levels (10, 2), (20, 3): the last two
    cannot be filled. *)
Lemma computePricesFromLevels_prices_each_amount_example :
  snd (computePricesFromLevels decimalBigNumber [BN 5; BN 15; BN 30; BN 40]
         [ {| level := "10"; price := "2" |};
           {| level := "20"; price := "3" |} ]
         sampleSrcToken sampleDestToken SELL)
  = Normal [10; 35; 0; 0].
Proof.
  rewrite (computePricesFromLevels_prices_each_amount decimalBigNumber
             [BN 5; BN 15; BN 30; BN 40]
             [ {| level := "10"; price := "2" |};
               {| level := "20"; price := "3" |} ]
             sampleSrcToken sampleDestToken SELL eq_refl
             ltac:(discriminate) eq_refl eq_refl).
  reflexivity.
Defined.

Lemma unfillable_upward_example :
  quoteForSide decimalBigNumber
    [ {| level := "0"; price := "2" |}; {| level := "10"; price := "2" |} ]
    SELL (BN 40) = None.
Proof.
  apply (unfillable_upward decimalBigNumber
           [ {| level := "0"; price := "2" |};
             {| level := "10"; price := "2" |} ]
           SELL 15 40); reflexivity || (vm_compute; discriminate).
Defined.

(** ** Shape of the returned prices *)

Section PricesShape.
Import BigNum.
Variable newBigNumber : string -> BigNumber.

Lemma outputsLoop_length (lv : list PriceLevel) (side : SwapSide)
    (amounts : list BigNumber) :
  List.length (fst (outputsLoop newBigNumber lv side amounts))
  = List.length amounts.
Proof.
  induction amounts as [|a rest IH]; [reflexivity|].
  cbn [outputsLoop]. destruct (isZero a).
  - destruct (outputsLoop newBigNumber lv side rest) as [outs calls].
    cbn [fst List.length] in *. rewrite IH. reflexivity.
  - destruct (quoteForSide newBigNumber lv side a).
    + destruct (outputsLoop newBigNumber lv side rest) as [outs calls].
      cbn [fst List.length] in *. rewrite IH. reflexivity.
    + cbn [fst]. apply repeat_length.
Qed.

Lemma toBigInts_length (decimals : Z) (outputs : list BigNumber) :
  forall zs, toBigInts decimals outputs = Normal zs ->
             List.length zs = List.length outputs.
Proof.
  induction outputs as [|o rest IH]; intros zs H; cbn [toBigInts] in H.
  - injection H as <-. reflexivity.
  - destruct (toBigInt decimals o); [|discriminate].
    destruct (toBigInts decimals rest) as [zs'|]; [|discriminate].
    injection H as <-. cbn [List.length]. rewrite (IH zs' eq_refl).
    reflexivity.
Qed.

Lemma prices_length (amounts : list BigNumber)
    (levels : list PriceLevel) (srcToken destToken : Token) (side : SwapSide)
    (outputs : list Z) :
  snd (computePricesFromLevels newBigNumber amounts levels srcToken
         destToken side) = Normal outputs ->
  List.length outputs = List.length amounts.
Proof.
  unfold computePricesFromLevels. cbn [snd]. intros H.
  rewrite (toBigInts_length _ _ _ H). apply outputsLoop_length.
Qed.

(** The prices returned have one entry per requested amount. *)
Theorem computePricesFromLevels_length (amounts : list BigNumber)
    (levels : list PriceLevel) (srcToken destToken : Token) (side : SwapSide)
    (outputs : list Z) :
  snd (computePricesFromLevels newBigNumber amounts levels srcToken
         destToken side) = Normal outputs ->
  List.length outputs = List.length amounts.
Proof. apply prices_length. Qed.

Lemma outputsLoop_no_levels (side : SwapSide) (amounts : list BigNumber) :
  fst (outputsLoop newBigNumber [] side amounts)
  = repeat BN_0 (List.length amounts).
Proof.
  induction amounts as [|a rest IH]; [reflexivity|].
  cbn [outputsLoop]. destruct (isZero a).
  - destruct (outputsLoop newBigNumber [] side rest) as [outs calls].
    cbn [fst List.length repeat] in *. rewrite IH. reflexivity.
  - assert (Hq : quoteForSide newBigNumber [] side a = None)
      by (destruct side; reflexivity).
    rewrite Hq. reflexivity.
Qed.

(** Without levels every price is 0, whatever the amounts are; the
    conversion to bigints cannot fail and the list stays empty. *)
Theorem computePricesFromLevels_no_levels (amounts : list BigNumber)
    (srcToken destToken : Token) (side : SwapSide) :
  computePricesFromLevels newBigNumber amounts [] srcToken destToken side
  = ([], Normal (repeat 0 (List.length amounts))).
Proof.
  unfold computePricesFromLevels. cbn [addZeroLevel].
  rewrite outputsLoop_no_levels, toBigInts_zeros. reflexivity.
Qed.

Lemma outputsLoop_zero_amounts (lv : list PriceLevel) (side : SwapSide)
    (amounts : list BigNumber) :
  forallb isZero amounts = true ->
  outputsLoop newBigNumber lv side amounts
  = (repeat BN_0 (List.length amounts), 0%nat).
Proof.
  induction amounts as [|a rest IH]; intros Hzero; [reflexivity|].
  cbn [forallb] in Hzero. apply andb_prop in Hzero as [Ha Hrest].
  cbn [outputsLoop]. rewrite Ha, (IH Hrest). reflexivity.
Qed.

(** Amounts that are all zero are priced at 0 without the curve being
    evaluated, whatever the levels are. *)
Theorem computePricesFromLevels_zero_amounts (amounts : list BigNumber)
    (levels : list PriceLevel) (srcToken destToken : Token) (side : SwapSide) :
  forallb isZero amounts = true ->
  snd (computePricesFromLevels newBigNumber amounts levels srcToken
         destToken side) = Normal (repeat 0 (List.length amounts))
  /\ curveEvaluations newBigNumber amounts levels side = 0%nat.
Proof.
  intros Hzero. unfold computePricesFromLevels, curveEvaluations.
  rewrite (outputsLoop_zero_amounts _ _ _ Hzero). cbn [fst snd].
  rewrite toBigInts_zeros. split; reflexivity.
Qed.

(** The bigint a finite output is turned into is the nearest integer to
    the output scaled by the decimal power: it is off by at most one
    half. *)
Theorem toBigInt_nearest (decimals : Z) (y : Q) :
  exists z,
    toBigInt decimals (BN y) = Normal z
    /\ (inject_Z z - (1 # 2) <= y * 10 ^ decimals)%Q
    /\ (y * 10 ^ decimals <= inject_Z z + (1 # 2))%Q.
Proof.
  exists (round_half_up (y * 10 ^ decimals)).
  split; [apply toBigInt_finite|].
  set (q := (y * 10 ^ decimals)%Q). unfold round_half_up.
  destruct (isNegQ q).
  - pose proof (Qfloor_le (- q + (1 # 2))) as Hle.
    pose proof (Qlt_floor (- q + (1 # 2))) as Hlt.
    rewrite inject_Z_plus in Hlt. change (inject_Z 1) with 1%Q in Hlt.
    rewrite inject_Z_opp. split; lra.
  - pose proof (Qfloor_le (q + (1 # 2))) as Hle.
    pose proof (Qlt_floor (q + (1 # 2))) as Hlt.
    rewrite inject_Z_plus in Hlt. change (inject_Z 1) with 1%Q in Hlt.
    split; lra.
Qed.
End PricesShape.

Lemma computePricesFromLevels_length_example :
  List.length [10; 35; 0] = List.length [BN 5; BN 15; BN 30].
Proof.
  apply (computePricesFromLevels_length decimalBigNumber
           [BN 5; BN 15; BN 30]
           [ {| level := "10"; price := "2" |};
             {| level := "20"; price := "3" |} ]
           sampleSrcToken sampleDestToken SELL [10; 35; 0]).
  reflexivity.
Defined.

Lemma computePricesFromLevels_zero_amounts_example :
  snd (computePricesFromLevels decimalBigNumber [BN 0; BN 0]
         [ {| level := "10"; price := "2" |} ]
         sampleSrcToken sampleDestToken BUY) = Normal [0; 0]
  /\ curveEvaluations decimalBigNumber [BN 0; BN 0]
       [ {| level := "10"; price := "2" |} ] BUY = 0%nat.
Proof.
  apply (computePricesFromLevels_zero_amounts decimalBigNumber [BN 0; BN 0]
           [ {| level := "10"; price := "2" |} ]
           sampleSrcToken sampleDestToken BUY).
  reflexivity.
Defined.

(** ** Selling and buying back *)

Section RoundTrip.
Import BigNum.
Variable newBigNumber : string -> BigNumber.

Lemma sell_strict_lower_bound (rest : list PriceLevelBN) :
  forall (b q x : Q) (pb o : BigNumber),
    finiteLevels rest = true ->
    increasingLevels ({| levelBN := BN b; priceBN := pb |} :: rest) = true ->
    positivePrices rest = true ->
    (b < x)%Q ->
    levelsLoop (Some (BN x)) None {| levelBN := BN b; priceBN := pb |} rest
      {| baseAmount := BN b; quoteAmount := BN q |} = Some o ->
    exists y, o = BN y /\ (q < y)%Q.
Proof.
  induction rest as [|next rest IH]; intros b q x pb o Hfin Hinc Hpos Hbx Hloop;
    [discriminate|].
  destruct (finite_cons _ _ Hfin) as [(l & p & ->) Hfin'].
  destruct (increasing_cons _ _ _ _ _ Hinc) as [Hbl Hinc'].
  destruct (positive_cons _ _ _ Hpos) as [Hp Hpos'].
  cbn [levelsLoop levelBN priceBN baseAmount quoteAmount minus plus
       multipliedBy] in Hloop.
  destruct (lte (BN x) (BN l)) eqn:Hxl.
  - injection Hloop as <-. eexists. split; [reflexivity|].
    rewrite !Qred_correct.
    assert (0 < (x - b) * p)%Q by (apply Qmult_lt_0_compat; lra).
    set (t := ((x - b) * p)%Q) in *. lra.
  - apply BigNumFacts.lte_fin_false in Hxl.
    destruct (IH _ _ _ _ _ Hfin' Hinc' Hpos' Hxl Hloop) as (y & -> & Hy).
    exists y. split; [reflexivity|].
    rewrite !Qred_correct in Hy.
    assert (0 < (l - b) * p)%Q by (apply Qmult_lt_0_compat; lra).
    set (t := ((l - b) * p)%Q) in *. lra.
Qed.

Lemma sell_then_buy (rest : list PriceLevelBN) :
  forall (b q x : Q) (pb o : BigNumber),
    finiteLevels rest = true ->
    increasingLevels ({| levelBN := BN b; priceBN := pb |} :: rest) = true ->
    positivePrices rest = true ->
    preciseLevels ({| levelBN := BN b; priceBN := pb |} :: rest) = true ->
    (round_dp x == x)%Q ->
    (b <= x)%Q ->
    levelsLoop (Some (BN x)) None {| levelBN := BN b; priceBN := pb |} rest
      {| baseAmount := BN b; quoteAmount := BN q |} = Some o ->
    exists y x',
      o = BN y /\ (q <= y)%Q
      /\ levelsLoop None (Some (BN y)) {| levelBN := BN b; priceBN := pb |}
           rest {| baseAmount := BN b; quoteAmount := BN q |}
         = Some (BN x')
      /\ (x' == x)%Q.
Proof.
  induction rest as [|next rest IH];
    intros b q x pb o Hfin Hinc Hpos Hprec Hx Hbx Hloop; [discriminate|].
  destruct (finite_cons _ _ Hfin) as [(l & p & ->) Hfin'].
  destruct (increasing_cons _ _ _ _ _ Hinc) as [Hbl Hinc'].
  destruct (positive_cons _ _ _ Hpos) as [Hp Hpos'].
  destruct (precise_cons _ _ _ Hprec) as [Hpb Hprec'].
  cbn [levelsLoop levelBN priceBN baseAmount quoteAmount minus plus
       multipliedBy dividedBy] in *.
  rewrite (isZeroQ_positive p Hp).
  set (q' := Qred (q + Qred (Qred (l - b) * p))) in *.
  assert (Hq' : (q' == q + (l - b) * p)%Q)
    by (unfold q'; rewrite !Qred_correct; reflexivity).
  assert (Hpne : ~ (p == 0)%Q) by (intros H0; rewrite H0 in Hp; lra).
  destruct (lte (BN x) (BN l)) eqn:Hxl.
  - injection Hloop as <-. apply BigNumFacts.lte_fin in Hxl.
    set (y := Qred (q + Qred (Qred (x - b) * p))).
    assert (Hy : (y == q + (x - b) * p)%Q)
      by (unfold y; rewrite !Qred_correct; reflexivity).
    assert (Hxb : (0 <= (x - b) * p)%Q) by (apply Qmult_le_0_compat; lra).
    assert (Hyq' : (y <= q')%Q).
    { rewrite Hy, Hq'. apply Qplus_le_r. apply Qmult_le_compat_r; lra. }
    exists y. eexists. split; [reflexivity|]. split.
    { rewrite Hy. set (t := ((x - b) * p)%Q) in *. lra. }
    rewrite (proj2 (BigNumFacts.lte_fin y q') Hyq').
    split; [reflexivity|].
    rewrite !Qred_correct.
    assert (Hdiv : ((y - q) / p == x - b)%Q) by (rewrite Hy; field; exact Hpne).
    rewrite Hdiv, (RoundOrder.round_dp_fixed_minus x b Hx Hpb). ring.
  - apply BigNumFacts.lte_fin_false in Hxl.
    assert (Hlx : (l <= x)%Q) by lra.
    destruct (IH _ _ _ _ _ Hfin' Hinc' Hpos' Hprec' Hx Hlx Hloop)
      as (y & x' & -> & Hy & Hbuy & Hx').
    destruct (sell_strict_lower_bound _ _ _ _ _ _ Hfin' Hinc' Hpos' Hxl Hloop)
      as (y0 & Hy0 & Hstrict).
    injection Hy0 as <-.
    exists y, x'. split; [reflexivity|]. split.
    { assert (0 <= (l - b) * p)%Q by (apply Qmult_le_0_compat; lra).
      set (t := ((l - b) * p)%Q) in *. lra. }
    rewrite (proj2 (BigNumFacts.lte_fin_false y q') Hstrict).
    split; [exact Hbuy|exact Hx'].
Qed.

(** On a regular curve with positive prices, buying the quote amount that
    selling [x] gives costs [x] again, for [x] written with at most
    DECIMAL_PLACES decimals. *)
Theorem sell_then_buy_round_trip (priceLevels : list PriceLevel) (x : Q)
    (o : BigNumber) :
  regularCurve BUY (toPriceLevelsBN newBigNumber priceLevels) = true ->
  (round_dp x == x)%Q ->
  computeLevelsQuote newBigNumber priceLevels (Some (BN x)) None = Some o ->
  exists y x',
    o = BN y
    /\ computeLevelsQuote newBigNumber priceLevels None (Some (BN y))
       = Some (BN x')
    /\ (x' == x)%Q.
Proof.
  unfold regularCurve, computeLevelsQuote. intros Hreg Hx Hsell.
  apply andb_prop in Hreg as [Hreg Hside].
  apply andb_prop in Hreg as [Hfin Hinc].
  apply andb_prop in Hside as [Hpos Hprec].
  destruct (toPriceLevelsBN newBigNumber priceLevels) as [|level0 rest];
    [discriminate|].
  destruct (finite_cons _ _ Hfin) as [(l0 & p0 & ->) Hfin'].
  destruct (positive_cons _ _ _ Hpos) as [_ Hpos'].
  cbn [andThen baseAmount quoteAmount levelBN priceBN multipliedBy orb] in *.
  rewrite orb_false_r in Hsell.
  destruct (lt (BN x) (BN l0)) eqn:Hlt; [discriminate|].
  apply BigNumFacts.lt_fin_false in Hlt.
  destruct (sell_then_buy rest _ _ _ _ _ Hfin' Hinc Hpos' Hprec Hx Hlt Hsell)
    as (y & x' & -> & Hy & Hbuy & Hx').
  exists y, x'. split; [reflexivity|].
  rewrite (proj2 (BigNumFacts.lt_fin_false y _) Hy).
  split; [exact Hbuy|exact Hx'].
Qed.
End RoundTrip.

(** Levels (0, 2), (10, 2), (20, 3): selling 15 gives 35 and buying 35
    costs 15. *)
Lemma sell_then_buy_round_trip_example :
  exists y x',
    BN 35 = BN y
    /\ computeLevelsQuote decimalBigNumber
         [ {| level := "0"; price := "2" |};
           {| level := "10"; price := "2" |};
           {| level := "20"; price := "3" |} ]
         None (Some (BN y)) = Some (BN x')
    /\ (x' == 15)%Q.
Proof.
  apply (sell_then_buy_round_trip decimalBigNumber
           [ {| level := "0"; price := "2" |};
             {| level := "10"; price := "2" |};
             {| level := "20"; price := "3" |} ] 15 (BN 35)).
  - vm_compute. reflexivity.
  - vm_compute. reflexivity.
  - vm_compute. reflexivity.
Defined.

(** ** Prices per maker *)

Section PoolPricesFacts.
Variable newBigNumber : string -> BigNumber.
Variable dexKey : string.
Variable routerAddress : string.
Variable ETHER_ADDRESS ZERO_ADDRESS : string.

(** The division of the integer amounts by the decimal power. *)
Local Abbreviation amountsRawOf srcToken destToken side amounts :=
  (map (fun a =>
          BigNum.dividedBy (BigNum.ofZ a)
            (getBigNumberPow
               (match side with
                | SELL => decimals srcToken
                | BUY => decimals destToken
                end)))
       amounts).

Lemma poolPricesOf_inv (srcToken destToken : Token) (amounts : list Z)
    (side : SwapSide) (mm : string) (entryLevels : list PriceLevel)
    (pp : PoolPrices) :
  BigNum.gt (newBigNumber "0") (BN 0) = false ->
  poolPricesOf newBigNumber dexKey routerAddress srcToken destToken amounts
    side mm entryLevels = Normal pp ->
  snd (computePricesFromLevels newBigNumber
         (amountsRawOf srcToken destToken side amounts) entryLevels
         srcToken destToken side) = Normal (prices pp)
  /\ (exists unitPrice,
         unit pp = Some unitPrice
         /\ snd (computePricesFromLevels newBigNumber [BN_1] entryLevels
                   srcToken destToken side) = Normal [unitPrice])
  /\ List.length (prices pp) = List.length amounts
  /\ data_mm pp = mm
  /\ exchange pp = dexKey
  /\ poolIdentifier pp
     = getPoolIdentifier dexKey (address srcToken) (address destToken) mm.
Proof.
  intros Hzero. unfold poolPricesOf.
  destruct (computePricesFromLevels newBigNumber [BN_1] entryLevels srcToken
              destToken side) as [levels1 unitPrices] eqn:Hunit.
  assert (Hlevels1 : levels1 = addZeroLevel newBigNumber entryLevels).
  { unfold computePricesFromLevels in Hunit. injection Hunit as <- _.
    reflexivity. }
  destruct unitPrices as [unitPrices|e]; [|discriminate].
  destruct (computePricesFromLevels newBigNumber _ levels1 srcToken destToken
              side) as [levels2 outputs] eqn:Hprices.
  destruct outputs as [outputs|e]; [|discriminate].
  intros Hpp. injection Hpp as <-.
  cbn [prices unit data_mm exchange poolIdentifier].
  assert (Hsame : snd (computePricesFromLevels newBigNumber
                         (amountsRawOf srcToken destToken side amounts)
                         entryLevels srcToken destToken side)
                  = Normal outputs).
  { unfold computePricesFromLevels in *. cbn [snd].
    injection Hprices as _ <-.
    rewrite Hlevels1, (addZeroLevel_idempotent _ _ Hzero). reflexivity. }
  split; [exact Hsame|]. split; [|split; [|auto]].
  - pose proof (prices_length newBigNumber [BN_1]
                  entryLevels srcToken destToken side unitPrices) as Hlen.
    rewrite Hunit in Hlen. specialize (Hlen eq_refl).
    destruct unitPrices as [|u [|]]; try discriminate.
    exists u. split; reflexivity.
  - rewrite (prices_length _ _ _ _ _ _ _ Hsame).
    apply length_map.
Qed.

(** The unit-price call inserts the zero level into the entry's levels
    before the prices are computed on them; the prices are nevertheless
    those of the entry's own levels, and there is a unit price. *)
Theorem poolPricesOf_prices (srcToken destToken : Token) (amounts : list Z)
    (side : SwapSide) (mm : string) (entryLevels : list PriceLevel)
    (pp : PoolPrices) :
  BigNum.gt (newBigNumber "0") (BN 0) = false ->
  poolPricesOf newBigNumber dexKey routerAddress srcToken destToken amounts
    side mm entryLevels = Normal pp ->
  snd (computePricesFromLevels newBigNumber
         (amountsRawOf srcToken destToken side amounts) entryLevels
         srcToken destToken side) = Normal (prices pp)
  /\ (exists unitPrice,
         unit pp = Some unitPrice
         /\ snd (computePricesFromLevels newBigNumber [BN_1] entryLevels
                   srcToken destToken side) = Normal [unitPrice])
  /\ List.length (prices pp) = List.length amounts
  /\ data_mm pp = mm
  /\ exchange pp = dexKey
  /\ poolIdentifier pp
     = getPoolIdentifier dexKey (address srcToken) (address destToken) mm.
Proof. exact (poolPricesOf_inv srcToken destToken amounts side mm entryLevels pp). Qed.

Lemma collect_In {A : Type} (l : list (Completion A)) :
  forall xs, collect l = Normal xs ->
             forall x, In x xs -> In (Normal x) l.
Proof.
  induction l as [|c l IH]; intros xs H x Hx; cbn [collect] in H.
  - injection H as <-. destruct Hx.
  - destruct c as [a|e]; [|discriminate].
    destruct (collect l) as [rest|e]; [|discriminate].
    injection H as <-. destruct Hx as [<-|Hx]; [left; reflexivity|].
    right. apply (IH rest eq_refl). exact Hx.
Qed.

Lemma keys_filter_In {V : Type} (f : string * V -> bool)
    (m : list (string * V)) (k : string) :
  In k (keys (List.filter f m)) ->
  exists v, In (k, v) m /\ f (k, v) = true.
Proof.
  unfold keys. intros H. apply in_map_iff in H as [[k' v] [Hk Hin]].
  cbn [fst] in Hk. subst k'. apply filter_In in Hin. eauto.
Qed.

(** Every entry [getPricesVolume] returns belongs to a maker of the quote
    set that the pool list selects; it carries one price per amount, a
    unit price, the exchange name, and the pool identifier of that maker. *)
Theorem getPricesVolume_entries (levelsMap : LevelsMap)
    (srcToken destToken : Token) (amounts : list Z) (side : SwapSide)
    (limitPools : option (list string)) (result : list PoolPrices)
    (pp : PoolPrices) :
  BigNum.gt (newBigNumber "0") (BN 0) = false ->
  getPricesVolume newBigNumber dexKey routerAddress ETHER_ADDRESS
    ZERO_ADDRESS levelsMap srcToken destToken amounts side limitPools
  = Normal (Some result) ->
  In pp result ->
  let src := normalizeToken ETHER_ADDRESS ZERO_ADDRESS srcToken in
  let dest := normalizeToken ETHER_ADDRESS ZERO_ADDRESS destToken in
  let pools :=
    match limitPools with
    | Some pools => pools
    | None => getPoolIdentifiers dexKey ETHER_ADDRESS ZERO_ADDRESS levelsMap
                srcToken destToken
    end in
  In (data_mm pp) (keys levelsMap)
  /\ includes
       (marketMakersToUse
          (getIdentifierPrefix dexKey (address src) (address dest)) pools)
       (data_mm pp) = true
  /\ List.length (prices pp) = List.length amounts
  /\ unit pp <> None
  /\ exchange pp = dexKey
  /\ poolIdentifier pp
     = getPoolIdentifier dexKey (address src) (address dest) (data_mm pp).
Proof.
  intros Hzero Hres Hpp src dest pools. unfold getPricesVolume in Hres.
  fold src dest in Hres.
  destruct (String.eqb (address src) (address dest)); [discriminate|].
  fold pools in Hres.
  destruct (collect _) as [entries|e] eqn:Hcollect in Hres; [|discriminate].
  injection Hres as <-.
  pose proof (collect_In _ _ Hcollect pp Hpp) as Hin.
  apply in_map_iff in Hin as [[mm lv] [Hprice Hentry]].
  cbn [fst snd] in Hprice.
  destruct (poolPricesOf_inv src dest amounts side mm lv pp Hzero Hprice)
    as (_ & (u & Hu & _) & Hlen & Hmm & Hex & Hid).
  apply in_flat_map in Hentry as [mm' [Hkey Hentry]].
  destruct (lookupKey _ mm') as [es|]; [|destruct Hentry].
  destruct (find _ es) as [entry|]; [|destruct Hentry].
  destruct Hentry as [Heq|[]]. injection Heq as -> _.
  apply keys_filter_In in Hkey as (v & Hv & Hinc). cbn [fst] in Hinc.
  rewrite Hmm. split; [|split; [|split; [|split; [|split]]]].
  - unfold keys. apply in_map_iff. exists (mm, v). split; auto.
  - exact Hinc.
  - exact Hlen.
  - rewrite Hu. discriminate.
  - exact Hex.
  - exact Hid.
Qed.
End PoolPricesFacts.

Lemma poolPricesOf_prices_example :
  snd (computePricesFromLevels decimalBigNumber
         (map (fun a => BigNum.dividedBy (BigNum.ofZ a) (getBigNumberPow 0))
              [5; 15])
         [ {| level := "10"; price := "2" |};
           {| level := "20"; price := "3" |} ]
         sampleSrcToken sampleDestToken SELL) = Normal [10; 35].
Proof.
  apply (poolPricesOf_prices decimalBigNumber "Hashflow" "0xrouter"
           sampleSrcToken sampleDestToken [5; 15] SELL "mm1"
           [ {| level := "10"; price := "2" |};
             {| level := "20"; price := "3" |} ]
           {| gasCost := 100000; exchange := "Hashflow"; data_mm := "mm1";
              prices := [10; 35]; unit := Some 2;
              poolIdentifier := "hashflow_0xaaa1_0xbbb2_mm1";
              poolAddresses := ["0xrouter"] |}
           eq_refl).
  vm_compute. reflexivity.
Defined.

Lemma getPricesVolume_entries_example :
  In "mm1" (keys lowerCaseMakerLevels)
  /\ includes
       (marketMakersToUse "hashflow_0xaaa1_0xbbb2"
          (getPoolIdentifiers "Hashflow" "0xeeee" "0x0000"
             lowerCaseMakerLevels sampleSrcToken sampleDestToken)) "mm1"
     = true
  /\ List.length [10; 0] = List.length [5; 15]
  /\ Some 2 <> None
  /\ "Hashflow" = "Hashflow"
  /\ "hashflow_0xaaa1_0xbbb2_mm1"
     = getPoolIdentifier "Hashflow" "0xaaa1" "0xbbb2" "mm1".
Proof.
  apply (getPricesVolume_entries decimalBigNumber "Hashflow" "0xrouter"
           "0xeeee" "0x0000" lowerCaseMakerLevels sampleSrcToken
           sampleDestToken [5; 15] SELL None
           [ {| gasCost := 100000; exchange := "Hashflow"; data_mm := "mm1";
                prices := [10; 0]; unit := Some 2;
                poolIdentifier := "hashflow_0xaaa1_0xbbb2_mm1";
                poolAddresses := ["0xrouter"] |} ]
           {| gasCost := 100000; exchange := "Hashflow"; data_mm := "mm1";
              prices := [10; 0]; unit := Some 2;
              poolIdentifier := "hashflow_0xaaa1_0xbbb2_mm1";
              poolAddresses := ["0xrouter"] |}).
  - reflexivity.
  - vm_compute. reflexivity.
  - left. reflexivity.
Defined.

(** ** Normalised tokens and distinct identifiers *)

Section IdentifierFacts.
Variable dexKey : string.
Variable ETHER_ADDRESS ZERO_ADDRESS : string.

(** Normalising a token twice changes nothing more, and the pool
    identifiers are those of the normalised tokens. *)
Theorem normalizeToken_idempotent (levels : LevelsMap)
    (srcToken destToken : Token) :
  toLowerCase ZERO_ADDRESS = ZERO_ADDRESS ->
  let normalize := normalizeToken ETHER_ADDRESS ZERO_ADDRESS in
  normalize (normalize srcToken) = normalize srcToken
  /\ getPoolIdentifiers dexKey ETHER_ADDRESS ZERO_ADDRESS levels
       (normalize srcToken) (normalize destToken)
     = getPoolIdentifiers dexKey ETHER_ADDRESS ZERO_ADDRESS levels srcToken
         destToken.
Proof.
  intros Hzero normalize.
  assert (Hidem : forall t, normalize (normalize t) = normalize t).
  { intros t. unfold normalize, normalizeToken. cbn [address decimals].
    destruct (String.eqb (toLowerCase (address t)) ETHER_ADDRESS) eqn:Heth.
    - rewrite Hzero.
      destruct (String.eqb ZERO_ADDRESS ETHER_ADDRESS); reflexivity.
    - rewrite toLowerCase_idempotent, Heth. reflexivity. }
  split; [apply Hidem|].
  unfold getPoolIdentifiers. fold normalize. rewrite !Hidem. reflexivity.
Qed.

Lemma append_left_injective (p a b : string) : p +:+ a = p +:+ b -> a = b.
Proof.
  induction p as [|c p IH]; [auto|].
  rewrite !append_cons. intros H. injection H as H. auto.
Qed.

Lemma getPoolIdentifier_same_iff (srcAddress destAddress m1 m2 : string) :
  getPoolIdentifier dexKey srcAddress destAddress m1
  = getPoolIdentifier dexKey srcAddress destAddress m2
  <-> toLowerCase m1 = toLowerCase m2.
Proof.
  rewrite !getPoolIdentifier_shape. split.
  - apply append_left_injective.
  - intros ->. reflexivity.
Qed.

Lemma NoDup_map_filter {A B : Type} (g : A -> B) (f : A -> bool) (l : list A) :
  List.NoDup (map g l) -> List.NoDup (map g (List.filter f l)).
Proof.
  induction l as [|a l IH]; intros Hnd; [exact Hnd|].
  cbn [map List.filter] in *. apply List.NoDup_cons_iff in Hnd as [Hnotin Hnd].
  destruct (f a); [|auto].
  cbn [map]. apply List.NoDup_cons_iff. split; [|auto].
  intros Hin. apply Hnotin. apply in_map_iff in Hin as (x & Hx & Hfx).
  apply filter_In in Hfx as [Hfx _]. apply in_map_iff. eauto.
Qed.

(** For ASCII names (exchange, addresses and maker ids): when no two
    maker ids of the quote set are equal up to case, the pool identifiers
    returned are pairwise distinct. *)
Theorem pool_identifiers_distinct (levels : LevelsMap)
    (srcToken destToken : Token) :
  isASCII dexKey = true ->
  isASCII ZERO_ADDRESS = true ->
  isASCII (address srcToken) = true ->
  isASCII (address destToken) = true ->
  forallb isASCII (keys levels) = true ->
  List.NoDup (map toLowerCase (keys levels)) ->
  List.NoDup (getPoolIdentifiers dexKey ETHER_ADDRESS ZERO_ADDRESS levels
           srcToken destToken).
Proof.
  intros _ _ _ _ _ Hnd. unfold getPoolIdentifiers.
  destruct (String.eqb _ _); [constructor|].
  set (f := fun m : string => existsb _ _).
  apply (NoDup_map_filter toLowerCase f) in Hnd.
  induction (List.filter f (keys levels)) as [|m l IH]; [constructor|].
  cbn [map] in *. apply List.NoDup_cons_iff in Hnd as [Hnotin Hnd].
  apply List.NoDup_cons_iff. split; [|auto].
  intros Hin. apply Hnotin. apply in_map_iff in Hin as (m' & Heq & Hm').
  apply getPoolIdentifier_same_iff in Heq.
  apply in_map_iff. eauto.
Qed.
End IdentifierFacts.

Lemma normalizeToken_idempotent_example :
  let normalize :=
    normalizeToken "0xeeeeeeeeeeeeeeeeeeeeeeeeeeeeeeeeeeeeeeee"
      "0x0000000000000000000000000000000000000000" in
  normalize
    (normalize {| address := "0xEeeeeEeeeEeEeeEeEeEeeEEEeeeeEeeeeeeeEEeE";
                  decimals := 18 |})
  = normalize {| address := "0xEeeeeEeeeEeEeeEeEeEeeEEEeeeeEeeeeeeeEEeE";
                 decimals := 18 |}
  /\ getPoolIdentifiers "Hashflow" "0xeeeeeeeeeeeeeeeeeeeeeeeeeeeeeeeeeeeeeeee"
       "0x0000000000000000000000000000000000000000" lowerCaseMakerLevels
       (normalize {| address := "0xEeeeeEeeeEeEeeEeEeEeeEEEeeeeEeeeeeeeEEeE";
                     decimals := 18 |})
       (normalize sampleDestToken)
     = getPoolIdentifiers "Hashflow"
         "0xeeeeeeeeeeeeeeeeeeeeeeeeeeeeeeeeeeeeeeee"
         "0x0000000000000000000000000000000000000000" lowerCaseMakerLevels
         {| address := "0xEeeeeEeeeEeEeeEeEeEeeEEEeeeeEeeeeeeeEEeE";
            decimals := 18 |}
         sampleDestToken.
Proof.
  apply (normalizeToken_idempotent "Hashflow"
           "0xeeeeeeeeeeeeeeeeeeeeeeeeeeeeeeeeeeeeeeee"
           "0x0000000000000000000000000000000000000000" lowerCaseMakerLevels
           {| address := "0xEeeeeEeeeEeEeeEeEeEeeEEEeeeeEeeeeeeeEEeE";
              decimals := 18 |}
           sampleDestToken).
  reflexivity.
Defined.

Lemma pool_identifiers_distinct_example :
  List.NoDup
    (getPoolIdentifiers "Hashflow" "0xeeee" "0x0000"
       (lowerCaseMakerLevels
        ++ map (fun entry => ("MM2", snd entry)) upperCaseMakerLevels)
       sampleSrcToken sampleDestToken).
Proof.
  apply pool_identifiers_distinct.
  - reflexivity.
  - reflexivity.
  - reflexivity.
  - reflexivity.
  - reflexivity.
  - vm_compute. repeat constructor; cbn; intuition discriminate.
Defined.

(** ** The restriction hash over time *)

Section RestrictionCycle.
Variable toNumber : string -> JsNumber.
Variable HASHFLOW_MM_RESTRICT_TTL_S : Z.
Variable disabledMMs : gset string.

Local Abbreviation expiredAt now createdAt :=
  (Number_lt (toNumber createdAt)
     (expirationThreshold HASHFLOW_MM_RESTRICT_TTL_S now)).
Local Abbreviation parseAt now :=
  (parseCacheRestrictionAndExpiryIfNeeded toNumber
     HASHFLOW_MM_RESTRICT_TTL_S now).

Lemma scheduled_fields (now : Z) (m : gmap string string)
    (fields : list string) :
  snd (parseAt now m) = Some fields ->
  fields = toDelete (classify toNumber HASHFLOW_MM_RESTRICT_TTL_S now m).
Proof.
  unfold parseCacheRestrictionAndExpiryIfNeeded. cbn [snd].
  destruct (toDelete _); [discriminate|]. intros H. injection H as <-.
  reflexivity.
Qed.

(** Every maker of the hash is either in the returned set or among the
    fields scheduled for deletion, never both, and nothing else is in
    either; no deletion is requested exactly when no entry has expired. *)
Theorem restrictions_partition (now : Z) (cachedValues : gmap string string) :
  let result :=
    parseCacheRestrictionAndExpiryIfNeeded toNumber
      HASHFLOW_MM_RESTRICT_TTL_S now cachedValues in
  (forall mm,
      is_Some (cachedValues !! mm) <->
      (mm ∈ fst result) \/
      exists fields, snd result = Some fields /\ In mm fields)
  /\ (forall mm fields,
         snd result = Some fields -> In mm fields -> mm ∉ fst result)
  /\ (snd result = None <->
      forall mm createdAt,
        cachedValues !! mm = Some createdAt -> expiredAt now createdAt = false).
Proof.
  cbv zeta. split; [|split].
  - intros mm. rewrite scheduled_iff, classify_toDelete.
    cbn [parseCacheRestrictionAndExpiryIfNeeded fst].
    rewrite classify_restricted. split.
    + intros [v Hv]. destruct (expiredAt now v) eqn:He; eauto.
    + intros [(v & Hv & _)|(v & Hv & _)]; eauto.
  - intros mm fields Hf Hin Hset.
    cbn [parseCacheRestrictionAndExpiryIfNeeded fst] in Hset.
    apply classify_restricted in Hset as (v & Hv & Hfalse).
    assert (Hdel : In mm (toDelete (classify toNumber
                      HASHFLOW_MM_RESTRICT_TTL_S now cachedValues)))
      by (apply scheduled_iff; eauto).
    apply classify_toDelete in Hdel as (v' & Hv' & Htrue). congruence.
  - split.
    + intros Hnone mm v Hv. destruct (expiredAt now v) eqn:He; [|reflexivity].
      assert (Hdel : In mm (toDelete (classify toNumber
                        HASHFLOW_MM_RESTRICT_TTL_S now cachedValues)))
        by (apply classify_toDelete; eauto).
      apply scheduled_iff in Hdel as (fields & Hf & _). congruence.
    + intros Hall.
      destruct (snd (parseAt now cachedValues)) as [fields|] eqn:Hs;
        [|reflexivity].
      pose proof (scheduled_fields _ _ _ Hs) as Hfields.
      unfold parseCacheRestrictionAndExpiryIfNeeded in Hs. cbn [snd] in Hs.
      destruct (toDelete _) as [|f fs] eqn:Hd in Hs; [discriminate|].
      assert (Hin : In f (toDelete (classify toNumber
                        HASHFLOW_MM_RESTRICT_TTL_S now cachedValues)))
        by (rewrite Hd; left; reflexivity).
      apply classify_toDelete in Hin as (v & Hv & Htrue).
      rewrite (Hall f v Hv) in Htrue. discriminate.
Qed.

Lemma lookup_hdel (fields : list string) :
  forall (m : gmap string string) (k : string),
    fold_left (fun m f => delete f m) fields m !! k
    = if bool_decide (k ∈ fields) then None else m !! k.
Proof.
  induction fields as [|f fields IH]; intros m k; cbn [fold_left].
  - rewrite bool_decide_eq_false_2 by (apply not_elem_of_nil). reflexivity.
  - rewrite IH. destruct (decide (k = f)) as [->|Hne].
    + rewrite lookup_delete_eq.
      rewrite (bool_decide_eq_true_2 (f ∈ f :: fields))
        by (apply elem_of_cons; left; reflexivity).
      destruct (bool_decide (f ∈ fields)); reflexivity.
    + rewrite lookup_delete_ne by congruence.
      destruct (decide (k ∈ fields)) as [Hin|Hnin].
      * rewrite !bool_decide_eq_true_2; auto.
        apply elem_of_cons. right. exact Hin.
      * rewrite !bool_decide_eq_false_2; auto.
        intros Hin. apply elem_of_cons in Hin as [Heq|Hin]; [congruence|auto].
Qed.

(** Once the scheduled deletion has run, reading the hash again at the
    same time gives the same restricted set and schedules nothing. *)
Theorem hdel_then_parse (now : Z) (c : Cache) (fields : list string) :
  snd (parseCacheRestrictionAndExpiryIfNeeded toNumber
         HASHFLOW_MM_RESTRICT_TTL_S now (restricted_mms c)) = Some fields ->
  parseCacheRestrictionAndExpiryIfNeeded toNumber HASHFLOW_MM_RESTRICT_TTL_S
    now (restricted_mms (hdel c fields))
  = (fst (parseCacheRestrictionAndExpiryIfNeeded toNumber
            HASHFLOW_MM_RESTRICT_TTL_S now (restricted_mms c)), None).
Proof.
  intros Hs. pose proof (scheduled_fields _ _ _ Hs) as Hfields.
  set (m := restricted_mms c) in *.
  set (m' := restricted_mms (hdel c fields)).
  assert (Hlookup : forall k v,
            m' !! k = Some v <->
            m !! k = Some v /\ expiredAt now v = false).
  { intros k v. unfold m', hdel. cbn [restricted_mms]. fold m.
    rewrite lookup_hdel. destruct (decide (k ∈ fields)) as [Hin|Hnin].
    - rewrite bool_decide_eq_true_2 by exact Hin.
      apply list_elem_of_In in Hin. rewrite Hfields in Hin. apply classify_toDelete in Hin as (v' & Hv' & Ht).
      split; [discriminate|]. intros [Hv Hf]. congruence.
    - rewrite bool_decide_eq_false_2 by exact Hnin. split; [|tauto].
      intros Hv. split; [exact Hv|].
      destruct (expiredAt now v) eqn:He; [|reflexivity].
      exfalso. apply Hnin. apply list_elem_of_In. rewrite Hfields.
      apply classify_toDelete. eauto. }
  assert (Hset : restrictedMMs (classify toNumber HASHFLOW_MM_RESTRICT_TTL_S
                                  now m')
                 = restrictedMMs (classify toNumber
                                    HASHFLOW_MM_RESTRICT_TTL_S now m)).
  { apply set_eq. intros mm. rewrite !classify_restricted. split.
    - intros (v & Hv & Hf). apply Hlookup in Hv. exists v. tauto.
    - intros (v & Hv & Hf). exists v. split; [apply Hlookup|]; auto. }
  assert (Hnone : toDelete (classify toNumber HASHFLOW_MM_RESTRICT_TTL_S
                              now m') = []).
  { destruct (toDelete (classify toNumber HASHFLOW_MM_RESTRICT_TTL_S now
                          m')) as [|f fs] eqn:Hd; [reflexivity|].
    assert (Hin : In f (toDelete (classify toNumber
                      HASHFLOW_MM_RESTRICT_TTL_S now m')))
      by (rewrite Hd; left; reflexivity).
    apply classify_toDelete in Hin as (v & Hv & Ht).
    apply Hlookup in Hv as [_ Hf]. congruence. }
  unfold parseCacheRestrictionAndExpiryIfNeeded at 1. fold m'.
  rewrite Hset, Hnone. reflexivity.
Qed.

Lemma getFilteredMarketMakers_In (now : Z) (c : Cache)
    (makers : list string) (mm : string) :
  In mm (fst (getFilteredMarketMakers toNumber HASHFLOW_MM_RESTRICT_TTL_S now
                disabledMMs c makers))
  <-> In mm makers /\ (mm ∉ disabledMMs) /\
      forall createdAt,
        restricted_mms c !! mm = Some createdAt ->
        expiredAt now createdAt = true.
Proof.
  unfold getFilteredMarketMakers.
  destruct (parseAt now (restricted_mms c)) as [set scheduled] eqn:Hparse.
  cbn [fst].
  assert (Hset : set = restrictedMMs (classify toNumber
                         HASHFLOW_MM_RESTRICT_TTL_S now (restricted_mms c))).
  { unfold parseCacheRestrictionAndExpiryIfNeeded in Hparse.
    injection Hparse as <- _. reflexivity. }
  rewrite filter_In, negb_true_iff, orb_false_iff.
  rewrite !bool_decide_eq_false, Hset, classify_restricted.
  split.
  - intros (Hin & Hdis & Hres). repeat split; auto.
    intros v Hv. destruct (expiredAt now v) eqn:He; [reflexivity|].
    exfalso. apply Hres. eauto.
  - intros (Hin & Hdis & Hexp). repeat split; auto.
    intros (v & Hv & Hf). rewrite (Hexp v Hv) in Hf. discriminate.
Qed.

(** A maker of the directory is returned exactly when it is not disabled
    and has no unexpired entry in the restriction hash; the order of the
    directory is kept. *)
Theorem getFilteredMarketMakers_spec (now : Z) (c : Cache)
    (makers : list string) :
  let result :=
    fst (getFilteredMarketMakers toNumber HASHFLOW_MM_RESTRICT_TTL_S now
           disabledMMs c makers) in
  (forall mm,
      In mm result <->
      In mm makers /\ (mm ∉ disabledMMs) /\
      forall createdAt,
        restricted_mms c !! mm = Some createdAt ->
        expiredAt now createdAt = true)
  /\ sublist result makers.
Proof.
  cbv zeta. split; [intros mm; apply getFilteredMarketMakers_In|].
  unfold getFilteredMarketMakers.
  destruct (parseAt now (restricted_mms c)) as [set scheduled].
  cbn [fst]. induction makers as [|a l IH]; [constructor|].
  cbn [List.filter]. destruct (negb _); constructor; exact IH.
Qed.

(** A maker restricted at time [t] is left out of the directory for as
    long as the window lasts; once the window has passed it is returned
    again (unless disabled) and its entry is scheduled for deletion. *)
Theorem restrictMM_then_filter (t now : Z) (c : Cache) (mm : string)
    (makers : list string) :
  toNumber (Z_to_string t) = Num (inject_Z t) ->
  let result :=
    getFilteredMarketMakers toNumber HASHFLOW_MM_RESTRICT_TTL_S now
      disabledMMs (restrictMM t c mm) makers in
  (now - HASHFLOW_MM_RESTRICT_TTL_S * 1000 <= t -> ~ In mm (fst result))
  /\ (t < now - HASHFLOW_MM_RESTRICT_TTL_S * 1000 ->
      In mm makers -> mm ∉ disabledMMs ->
      In mm (fst result)
      /\ exists fields, snd result = Some fields /\ In mm fields).
Proof.
  intros Hnum. cbv zeta.
  assert (Hentry : restricted_mms (restrictMM t c mm) !! mm
                   = Some (Z_to_string t))
    by (cbn [restrictMM restricted_mms]; apply lookup_insert_eq).
  assert (Hexp : expiredAt now (Z_to_string t) = true
                 <-> t < now - HASHFLOW_MM_RESTRICT_TTL_S * 1000).
  { rewrite Hnum. unfold expirationThreshold.
    rewrite Number_lt_fin, <- Zlt_Qlt. reflexivity. }
  split.
  - intros Hwithin Hin.
    apply getFilteredMarketMakers_In in Hin as (_ & _ & Hall).
    apply Hall in Hentry. apply Hexp in Hentry. lia.
  - intros Hpast Hin Hdis. apply Hexp in Hpast. split.
    + apply getFilteredMarketMakers_In.
      repeat split; auto. intros v Hv. congruence.
    + unfold getFilteredMarketMakers.
      destruct (parseAt now (restricted_mms (restrictMM t c mm)))
        as [set scheduled] eqn:Hparse.
      cbn [snd]. replace scheduled with (snd (parseAt now (restricted_mms
                                               (restrictMM t c mm))))
        by (rewrite Hparse; reflexivity).
      apply scheduled_iff, classify_toDelete. eauto.
Qed.
End RestrictionCycle.

Lemma getFilteredMarketMakers_example :
  fst (getFilteredMarketMakers integerToNumber 600 10000000 {[ "mm9" ]}
         {| restricted_mms := sampleRestrictions; entries := ∅ |}
         ["mm1"; "mm2"; "mm3"; "mm4"; "mm9"])
  = ["mm1"; "mm4"].
Proof. vm_compute. reflexivity. Qed.

Lemma restrictMM_then_filter_example :
  let result :=
    getFilteredMarketMakers integerToNumber 600 10500000 ∅
      (restrictMM 10000000 emptyCache "mm1") ["mm1"; "mm2"] in
  ~ In "mm1" (fst result).
Proof.
  apply (restrictMM_then_filter integerToNumber 600 ∅ 10000000 10500000
           emptyCache "mm1" ["mm1"; "mm2"]).
  - reflexivity.
  - vm_compute. discriminate.
Defined.

Lemma hdel_then_parse_example :
  parseCacheRestrictionAndExpiryIfNeeded integerToNumber 600 10000000
    (restricted_mms
       (hdel {| restricted_mms := sampleRestrictions; entries := ∅ |} ["mm1"]))
  = (fst (parseCacheRestrictionAndExpiryIfNeeded integerToNumber 600
            10000000 sampleRestrictions), None).
Proof.
  apply (hdel_then_parse integerToNumber 600 10000000
           {| restricted_mms := sampleRestrictions; entries := ∅ |} ["mm1"]).
  vm_compute. reflexivity.
Defined.

(** ** The blacklist *)

Section BlacklistFacts.
Variable dexKey : string.
Variable network : Z.
Variable augustusAddress : string.
Variable ETHER_ADDRESS ZERO_ADDRESS : string.
Variable RFQType_RFQT : Z.
Variable HASHFLOW_BLACKLIST_TTL_S : Z.
Variable BigIntOf : string -> option Z.
Variable JSON_stringify : RfqResponse -> string.
Variable toFixed : BigNumber -> string.

Lemma getBlackListKey_same_iff (a b : string) :
  getBlackListKey a = getBlackListKey b <-> toLowerCase a = toLowerCase b.
Proof.
  unfold getBlackListKey. rewrite !toLowerCase_app. split.
  - apply append_left_injective.
  - intros ->. reflexivity.
Qed.

Lemma isBlacklisted_same_origin (c : Cache) (address other : string) :
  toLowerCase other = toLowerCase address ->
  isBlacklisted (setBlacklist HASHFLOW_BLACKLIST_TTL_S c address) other = true.
Proof.
  intros Hsame. unfold isBlacklisted, setBlacklist. cbn [entries].
  apply getBlackListKey_same_iff in Hsame.
  rewrite Hsame, lookup_insert_eq. reflexivity.
Qed.

(** For ASCII addresses: blacklisting an address blacklists its other
    spellings by case, and no other address; the restriction hash is not
    touched. *)
Theorem setBlacklist_isBlacklisted (c : Cache) (address other : string) :
  isASCII address = true ->
  isASCII other = true ->
  let c' := setBlacklist HASHFLOW_BLACKLIST_TTL_S c address in
  (toLowerCase other = toLowerCase address -> isBlacklisted c' other = true)
  /\ (toLowerCase other <> toLowerCase address ->
      isBlacklisted c' other = isBlacklisted c other)
  /\ restricted_mms c' = restricted_mms c.
Proof.
  intros _ _. cbv zeta.
  unfold isBlacklisted, setBlacklist. cbn [entries restricted_mms].
  split; [|split; [|reflexivity]].
  - intros Hsame. apply getBlackListKey_same_iff in Hsame.
    rewrite Hsame, lookup_insert_eq. reflexivity.
  - intros Hdiff. rewrite lookup_insert_ne; [reflexivity|].
    intros Hkey. apply Hdiff. symmetry.
    apply getBlackListKey_same_iff. exact Hkey.
Qed.

(** Once a failure carrying the restricted-user signal has been handled,
    the blacklist key of the origin is in the cache with the time-to-live
    HASHFLOW_BLACKLIST_TTL_S.  Whatever else has changed in the cache
    since, for as long as that key is in it every attempt of the same
    origin, in any spelling by case, is rejected before any maker is
    asked, and leaves the cache as it is; once the key is gone the origin
    is no longer blacklisted. *)
Theorem restricted_user_rejected_afterwards
    (now now' : Z) (requestQuote requestQuote' : RfqRequest -> Completion RfqResponse)
    (c c2 : Cache) (ose ose' : OptimalSwapExchange)
    (srcToken destToken srcToken' destToken' : Token) (side side' : SwapSide)
    (options options' : PreprocessTransactionOptions)
    (maker : string) (e : JsError) :
  isBlacklisted c (txOrigin options) = false ->
  option_map mm (data ose) = Some maker ->
  requestAndCheck dexKey network augustusAddress ETHER_ADDRESS ZERO_ADDRESS
    RFQType_RFQT BigIntOf JSON_stringify toFixed requestQuote ose srcToken
    destToken side options maker = Throw e ->
  endsWith (message e) USER_RESTRICTED = true ->
  toLowerCase (txOrigin options') = toLowerCase (txOrigin options) ->
  let c1 :=
    fst (preProcessTransaction dexKey network augustusAddress ETHER_ADDRESS
           ZERO_ADDRESS RFQType_RFQT HASHFLOW_BLACKLIST_TTL_S BigIntOf
           JSON_stringify toFixed now requestQuote c ose srcToken destToken
           side options) in
  let blackListKey := getBlackListKey (txOrigin options) in
  entries c1 !! blackListKey = Some (HASHFLOW_BLACKLIST_TTL_S, "blacklisted")
  /\ (cacheGet c2 blackListKey = Some "blacklisted" ->
      exists msg,
        preProcessTransaction dexKey network augustusAddress ETHER_ADDRESS
          ZERO_ADDRESS RFQType_RFQT HASHFLOW_BLACKLIST_TTL_S BigIntOf
          JSON_stringify toFixed now' requestQuote' c2 ose' srcToken'
          destToken' side' options'
        = (c2, Throw {| errClass := PlainError; message := msg |}))
  /\ (cacheGet c2 blackListKey = None ->
      isBlacklisted c2 (txOrigin options') = false).
Proof.
  intros Hblack Hmm Hbody Hsignal Hsame. cbv zeta.
  assert (Hc1 : fst (preProcessTransaction dexKey network augustusAddress
                       ETHER_ADDRESS ZERO_ADDRESS RFQType_RFQT
                       HASHFLOW_BLACKLIST_TTL_S BigIntOf JSON_stringify
                       toFixed now requestQuote c ose srcToken destToken
                       side options)
                = setBlacklist HASHFLOW_BLACKLIST_TTL_S c (txOrigin options)).
  { unfold preProcessTransaction. rewrite Hblack, Hmm, Hbody.
    cbn [fst]. unfold onFailure. rewrite Hsignal. reflexivity. }
  assert (Hkey : getBlackListKey (txOrigin options')
                 = getBlackListKey (txOrigin options))
    by (apply getBlackListKey_same_iff; exact Hsame).
  rewrite Hc1. split; [|split].
  - unfold setBlacklist. cbn [entries]. apply lookup_insert_eq.
  - intros Hlive.
    assert (Hlisted : isBlacklisted c2 (txOrigin options') = true).
    { unfold isBlacklisted. rewrite Hkey. unfold cacheGet in Hlive.
      destruct (entries c2 !! getBlackListKey (txOrigin options))
        as [[ttl value]|]; [|discriminate].
      cbn [option_map snd] in Hlive. injection Hlive as ->. reflexivity. }
    unfold preProcessTransaction. rewrite Hlisted. eexists. reflexivity.
  - intros Hgone. unfold isBlacklisted. rewrite Hkey.
    unfold cacheGet in Hgone.
    destruct (entries c2 !! getBlackListKey (txOrigin options));
      [discriminate|reflexivity].
Qed.
End BlacklistFacts.

Lemma restricted_user_rejected_afterwards_example :
  exists msg,
    preProcessTransaction "Hashflow" 1 "0xDEF1" "0xeeee" "0x0000" 0 3600
      decimalBigInt (fun _ => "{}") Format.valueOf 10000500 silentMaker
      (setex (setBlacklist 3600 emptyCache "0xAbC") "levels" 5 "{...}")
      sampleTrade sampleSrcToken sampleDestToken BUY
      {| slippageFactor := BN 1; txOrigin := "0xABC" |}
    = (setex (setBlacklist 3600 emptyCache "0xAbC") "levels" 5 "{...}",
       Throw {| errClass := PlainError; message := msg |}).
Proof.
  pose proof
    (restricted_user_rejected_afterwards "Hashflow" 1 "0xDEF1" "0xeeee"
       "0x0000" 0 3600 decimalBigInt (fun _ => "{}") Format.valueOf
       10000000 10000500 restrictedUserMaker silentMaker emptyCache
       (setex (setBlacklist 3600 emptyCache "0xAbC") "levels" 5 "{...}")
       sampleTrade sampleTrade sampleSrcToken sampleDestToken
       sampleSrcToken sampleDestToken SELL BUY sampleOptions
       {| slippageFactor := BN 1; txOrigin := "0xABC" |} "mm1"
       {| errClass := PlainError;
          message := "Request failed: User is restricted from using Hashflow" |}
       eq_refl eq_refl eq_refl eq_refl eq_refl) as H.
  cbv zeta in H. destruct H as (_ & Hlive & _).
  apply Hlive. reflexivity.
Defined.

Lemma setBlacklist_isBlacklisted_example :
  let c' := setBlacklist 3600 emptyCache "0xAbC" in
  (toLowerCase "0xABC" = toLowerCase "0xAbC" ->
   isBlacklisted c' "0xABC" = true)
  /\ (toLowerCase "0xABC" <> toLowerCase "0xAbC" ->
      isBlacklisted c' "0xABC" = isBlacklisted emptyCache "0xABC")
  /\ restricted_mms c' = restricted_mms emptyCache.
Proof.
  apply (setBlacklist_isBlacklisted 3600 emptyCache "0xAbC" "0xABC").
  - reflexivity.
  - reflexivity.
Defined.

(** ** Accepted trades *)

Section AcceptedFacts.
Variable dexKey : string.
Variable network : Z.
Variable augustusAddress : string.
Variable ETHER_ADDRESS ZERO_ADDRESS : string.
Variable RFQType_RFQT : Z.
Variable HASHFLOW_BLACKLIST_TTL_S : Z.
Variable BigIntOf : string -> option Z.
Variable JSON_stringify : RfqResponse -> string.
Variable toFixed : BigNumber -> string.
Variable now : Z.
Variable requestQuote : RfqRequest -> Completion RfqResponse.

Lemma ensure_Normal (b : bool) (e : JsError) (u : ()) :
  ensure b e = Normal u -> b = true.
Proof. destruct b; [reflexivity|discriminate]. Qed.

(** A trade is accepted only if the origin is not blacklisted and the
    answer of the maker passed every check; the cache is then left as it
    was, the trade carries the firm quote, and the deadline is the expiry
    of the quote, or the largest 256-bit number when there is none. *)
Theorem preProcessTransaction_accepted (c c' : Cache)
    (ose enriched : OptimalSwapExchange) (srcToken destToken : Token)
    (side : SwapSide) (options : PreprocessTransactionOptions)
    (info : ExchangeTxInfo) :
  preProcessTransaction dexKey network augustusAddress ETHER_ADDRESS
    ZERO_ADDRESS RFQType_RFQT HASHFLOW_BLACKLIST_TTL_S BigIntOf
    JSON_stringify toFixed now requestQuote c ose srcToken destToken side
    options = (c', Normal (enriched, info)) ->
  c' = c
  /\ isBlacklisted c (txOrigin options) = false
  /\ exists maker request rfq qd base quote src dest,
       option_map mm (data ose) = Some maker
       /\ marketMakers request = [maker]
       /\ effectiveTrader request = toLowerCase (txOrigin options)
       /\ requestQuote request = Normal rfq
       /\ status rfq = "success"
       /\ quoteData rfq = Some qd
       /\ truthyString (signature rfq) = true
       /\ truthyNumber (gasEstimate rfq) = true
       /\ rfqType qd = RFQType_RFQT
       /\ qd_baseToken qd
          = address (normalizeToken ETHER_ADDRESS ZERO_ADDRESS srcToken)
       /\ qd_quoteToken qd
          = address (normalizeToken ETHER_ADDRESS ZERO_ADDRESS destToken)
       /\ BigIntOf (baseTokenAmount qd) = Some base
       /\ BigIntOf (quoteTokenAmount qd) = Some quote
       /\ BigIntOf (srcAmount ose) = Some src
       /\ BigIntOf (destAmount ose) = Some dest
       /\ slippageCheck dexKey network toFixed side quote base src dest
            (slippageFactor options) = Normal ()
       /\ deadline info
          = (if quoteExpiry qd >? 0 then quoteExpiry qd else BI_MAX_UINT256)
       /\ enriched
          = {| srcAmount := srcAmount ose;
               destAmount := destAmount ose;
               data := Some {| mm := maker;
                               hd_quoteData := Some qd;
                               hd_signature := signature rfq;
                               hd_gasEstimate := gasEstimate rfq |} |}.
Proof.
  unfold preProcessTransaction.
  destruct (isBlacklisted c (txOrigin options)) eqn:Hblack;
    [intros H; discriminate|].
  destruct (option_map mm (data ose)) as [maker|] eqn:Hmm;
    [|intros H; discriminate].
  destruct (requestAndCheck _ _ _ _ _ _ _ _ _ _ _ _ _ _ _ _) as [[ex i]|e]
    eqn:Hbody; [|intros H; discriminate].
  intros H. injection H as <- <- <-.
  split; [reflexivity|]. split; [reflexivity|].
  unfold requestAndCheck, hashflowNormalizeToken, toBigIntOrThrow in Hbody.
  match type of Hbody with
  | bind (requestQuote ?r) _ = _ =>
      set (request := r) in *; destruct (requestQuote request) as [rfq|]
        eqn:Hreq; [|discriminate]
  end.
  cbn [bind] in Hbody.
  destruct (String.eqb (status rfq) "success") eqn:Hstatus;
    [|discriminate].
  cbn [ensure bind] in Hbody.
  destruct (quoteData rfq) as [qd|] eqn:Hqd; [|discriminate].
  destruct (truthyString (signature rfq)) eqn:Hsig; [|discriminate].
  cbn [ensure bind] in Hbody.
  destruct (truthyNumber (gasEstimate rfq)) eqn:Hgas; [|discriminate].
  cbn [ensure bind] in Hbody.
  destruct (Z.eqb (rfqType qd) RFQType_RFQT) eqn:Htype; [|discriminate].
  cbn [ensure bind] in Hbody.
  destruct (String.eqb (qd_baseToken qd) _) eqn:Hbase in Hbody;
    [|discriminate].
  cbn [ensure bind] in Hbody.
  destruct (String.eqb (qd_quoteToken qd) _) eqn:Hquote in Hbody;
    [|discriminate].
  cbn [ensure bind] in Hbody.
  destruct (BigIntOf (baseTokenAmount qd)) as [base|] eqn:Hb; [|discriminate].
  cbn [bind] in Hbody.
  destruct (BigIntOf (quoteTokenAmount qd)) as [quote|] eqn:Hq;
    [|discriminate].
  cbn [bind] in Hbody.
  destruct (BigIntOf (srcAmount ose)) as [src|] eqn:Hs; [|discriminate].
  cbn [bind] in Hbody.
  destruct (BigIntOf (destAmount ose)) as [dest|] eqn:Hd; [|discriminate].
  cbn [bind] in Hbody.
  destruct (slippageCheck _ _ _ _ _ _ _ _ _) as [[]|] eqn:Hslip;
    [|discriminate].
  cbn [bind] in Hbody. injection Hbody as <- <-.
  exists maker, request, rfq, qd, base, quote, src, dest.
  apply String.eqb_eq in Hstatus, Hbase, Hquote. apply Z.eqb_eq in Htype.
  repeat split; auto.
Qed.
End AcceptedFacts.

(** ** More on the slippage check *)

Section SlippageFacts.
Variable dexKey : string.
Variable network : Z.
Variable toFixed : BigNumber -> string.

(** With a slippage factor that is not a finite number the check never
    passes. *)
Theorem slippageCheck_non_finite_factor (side : SwapSide)
    (quoteTokenAmount baseTokenAmount srcAmount destAmount : Z)
    (factor : BigNumber) :
  finiteb factor = false ->
  slippageCheck dexKey network toFixed side quoteTokenAmount baseTokenAmount
    srcAmount destAmount factor <> Normal ().
Proof.
  intros Hfin. unfold slippageCheck, roundedBigInt, BigNum.times, BigNum.ofZ.
  destruct factor as [|s|q]; [| |discriminate]; destruct side;
    cbn [BigNum.multipliedBy BigNum.toFixed0_BigInt bind];
    repeat match goal with
           | |- context [if ?b then _ else _] => destruct b
           end;
    cbn [BigNum.toFixed0_BigInt bind]; discriminate.
Qed.

(** A firm quote that passes keeps passing when the maker gives more of
    the quote token and asks for no more of the base token. *)
Theorem slippageCheck_monotone (side : SwapSide)
    (quote quote' base base' srcAmount destAmount : Z) (factor : BigNumber) :
  quote <= quote' -> base' <= base ->
  slippageCheck dexKey network toFixed side quote base srcAmount destAmount
    factor = Normal () ->
  slippageCheck dexKey network toFixed side quote' base' srcAmount destAmount
    factor = Normal ().
Proof.
  intros Hq Hb. unfold slippageCheck. destruct side.
  - destruct (roundedBigInt _) as [bound|]; [|discriminate].
    cbn [bind].
    destruct (Z.ltb_spec quote bound); [discriminate|]. intros _.
    destruct (Z.ltb_spec quote' bound); [lia|reflexivity].
  - destruct (Z.ltb_spec quote destAmount); [discriminate|].
    destruct (Z.ltb_spec quote' destAmount); [lia|].
    destruct (roundedBigInt _) as [bound|]; [|discriminate].
    cbn [bind].
    destruct (Z.gtb_spec base bound); [discriminate|]. intros _.
    destruct (Z.gtb_spec base' bound); [lia|reflexivity].
Qed.
End SlippageFacts.

Lemma preProcessTransaction_accepted_example :
  emptyCache = emptyCache /\ isBlacklisted emptyCache "0xAbC" = false.
Proof.
  assert (Hrun :
    preProcessTransaction "Hashflow" 1 "0xDEF1" "0xeeee" "0x0000" 0 3600
      decimalBigInt (fun _ => "{}") Format.valueOf 10000000 honestMaker
      emptyCache sampleTrade sampleSrcToken sampleDestToken SELL sampleOptions
    = (emptyCache,
       Normal
         ({| srcAmount := "1000"; destAmount := "100";
             data :=
               Some {| mm := "mm1";
                       hd_quoteData :=
                         Some {| rfqType := 0; pool := "0xpool";
                                 qd_baseToken := "0xaaa1";
                                 qd_quoteToken := "0xbbb2";
                                 baseTokenAmount := "1000";
                                 quoteTokenAmount := "100";
                                 quoteExpiry := 0; txid := "0xtx" |};
                       hd_signature := Some "0xsig";
                       hd_gasEstimate := Some 120000 |} |},
          {| deadline := BI_MAX_UINT256 |}))).
  { vm_compute. reflexivity. }
  destruct (preProcessTransaction_accepted "Hashflow" 1 "0xDEF1" "0xeeee"
              "0x0000" 0 3600 decimalBigInt (fun _ => "{}") Format.valueOf
              10000000 honestMaker emptyCache emptyCache sampleTrade _
              sampleSrcToken sampleDestToken SELL sampleOptions _ Hrun)
    as (H1 & H2 & _).
  split; [exact H1|exact H2].
Defined.

Lemma slippageCheck_non_finite_factor_example :
  slippageCheck "Hashflow" 1 Format.valueOf SELL 100 1000 1000 100 BN_NaN
  <> Normal ().
Proof.
  apply slippageCheck_non_finite_factor. reflexivity.
Defined.

Lemma slippageCheck_monotone_example :
  slippageCheck "Hashflow" 1 Format.valueOf BUY 105 990 1000 100
    (BN (101 # 100)) = Normal ().
Proof.
  apply (slippageCheck_monotone "Hashflow" 1 Format.valueOf BUY 100 105 1010
           990 1000 100 (BN (101 # 100))).
  - lia.
  - lia.
  - vm_compute. reflexivity.
Defined.

(** ** The extremes of a book *)

Section BookExtremes.
Import BigNum.
Variable newBigNumber : string -> BigNumber.

Lemma gte_lte a b : gte a b = true -> lte b a = true.
Proof.
  destruct a as [|[]|x], b as [|[]|y]; unfold gte, lte; simpl;
    try congruence.
  rewrite <- (Qcompare_antisym x y). destruct (x ?= y)%Q; simpl; congruence.
Qed.

Lemma gte_false_lte a b :
  a <> BN_NaN -> b <> BN_NaN -> gte a b = false -> lte a b = true.
Proof.
  destruct a as [|[]|x], b as [|[]|y]; unfold gte, lte; simpl;
    try congruence.
  destruct (x ?= y)%Q; simpl; congruence.
Qed.

Lemma lte_false_gte a b :
  a <> BN_NaN -> b <> BN_NaN -> lte a b = false -> lte b a = true.
Proof.
  destruct a as [|[]|x], b as [|[]|y]; unfold lte; simpl;
    try congruence.
  rewrite <- (Qcompare_antisym x y). destruct (x ?= y)%Q; simpl; congruence.
Qed.

Lemma gte_not_NaN a b : gte a b = true -> a <> BN_NaN.
Proof. destruct a; [discriminate|congruence|congruence]. Qed.

Lemma lte_not_NaN a b : lte a b = true -> a <> BN_NaN.
Proof. destruct a; [discriminate|congruence|congruence]. Qed.

Lemma lte_refl a : a <> BN_NaN -> lte a a = true.
Proof.
  destruct a as [|[]|x]; unfold lte; simpl; try congruence.
  intros _. rewrite (proj1 (Qeq_alt x x) (Qeq_refl x)). reflexivity.
Qed.

Lemma fold_max (values : list BigNumber) (start : BigNumber) :
  start <> BN_NaN ->
  let result :=
    fold_left
      (fun previousValue currentValue =>
         if gte currentValue previousValue
         then currentValue else previousValue)
      values start in
  result <> BN_NaN
  /\ lte start result = true
  /\ (forall v, In v values -> v = BN_NaN \/ lte v result = true)
  /\ (result = start \/ In result values).
Proof.
  revert start. induction values as [|v values IH]; intros start Hstart.
  - cbn. split; [exact Hstart|]. split; [apply lte_refl, Hstart|].
    split; [intros v []|left; reflexivity].
  - cbn [fold_left]. destruct (gte v start) eqn:Hcmp.
    + destruct (IH v (gte_not_NaN _ _ Hcmp)) as (Hn & Hle & Hall & Hin).
      split; [exact Hn|].
      split; [eapply BigNumOrder.lte_trans; [apply gte_lte, Hcmp|exact Hle]|].
      split.
      * intros w [<-|Hw]; [right; exact Hle|apply Hall, Hw].
      * right. destruct Hin as [->|Hin]; [left; reflexivity|right; exact Hin].
    + destruct (IH start Hstart) as (Hn & Hle & Hall & Hin).
      split; [exact Hn|]. split; [exact Hle|]. split.
      * intros w [<-|Hw]; [|apply Hall, Hw].
        destruct v as [|s|x]; [left; reflexivity|right|right];
          (eapply BigNumOrder.lte_trans;
           [apply gte_false_lte; [discriminate|exact Hstart|exact Hcmp]
           |exact Hle]).
      * destruct Hin as [->|Hin]; [left; reflexivity|right; right; exact Hin].
Qed.

Lemma fold_min (values : list BigNumber) (start : BigNumber) :
  start <> BN_NaN ->
  let result :=
    fold_left
      (fun previousValue currentValue =>
         if lte currentValue previousValue
         then currentValue else previousValue)
      values start in
  result <> BN_NaN
  /\ lte result start = true
  /\ (forall v, In v values -> v = BN_NaN \/ lte result v = true)
  /\ (result = start \/ In result values).
Proof.
  revert start. induction values as [|v values IH]; intros start Hstart.
  - cbn. split; [exact Hstart|]. split; [apply lte_refl, Hstart|].
    split; [intros v []|left; reflexivity].
  - cbn [fold_left]. destruct (lte v start) eqn:Hcmp.
    + destruct (IH v (lte_not_NaN _ _ Hcmp)) as (Hn & Hle & Hall & Hin).
      split; [exact Hn|].
      split; [eapply BigNumOrder.lte_trans; [exact Hle|exact Hcmp]|].
      split.
      * intros w [<-|Hw]; [right; exact Hle|apply Hall, Hw].
      * right. destruct Hin as [->|Hin]; [left; reflexivity|right; exact Hin].
    + destruct (IH start Hstart) as (Hn & Hle & Hall & Hin).
      split; [exact Hn|]. split; [exact Hle|]. split.
      * intros w [<-|Hw]; [|apply Hall, Hw].
        destruct v as [|s|x]; [left; reflexivity|right|right];
          (eapply BigNumOrder.lte_trans;
           [exact Hle
           |apply lte_false_gte; [discriminate|exact Hstart|exact Hcmp]]).
      * destruct Hin as [->|Hin]; [left; reflexivity|right; right; exact Hin].
Qed.

(** The highest bid of the rule [bidsLowerThanAsks] is never NaN and
    never below zero; it is at least every bid that reads as a number,
    and it is zero or one of the bids. *)
Theorem maxBid_greatest (bs : list (list string)) :
  maxBid newBigNumber bs <> BN_NaN
  /\ lte (BN 0) (maxBid newBigNumber bs) = true
  /\ (forall numbers, In numbers bs ->
        firstAsBN newBigNumber numbers = BN_NaN
        \/ lte (firstAsBN newBigNumber numbers) (maxBid newBigNumber bs)
           = true)
  /\ (maxBid newBigNumber bs = BN 0
      \/ exists numbers, In numbers bs
           /\ maxBid newBigNumber bs = firstAsBN newBigNumber numbers).
Proof.
  unfold maxBid.
  destruct (fold_max (map (firstAsBN newBigNumber) bs) (BN 0))
    as (Hn & Hle & Hall & Hin); [discriminate|].
  split; [exact Hn|]. split; [exact Hle|]. split.
  - intros numbers Hnum. apply Hall, in_map, Hnum.
  - destruct Hin as [Hin|Hin]; [left; exact Hin|right].
    apply in_map_iff in Hin. destruct Hin as (numbers & Heq & Hnum).
    exists numbers. split; [exact Hnum|symmetry; exact Heq].
Qed.

(** The lowest ask of the rule is never NaN and never above the
    constant the fold starts from; it is at most every ask that reads as
    a number, and it is that constant or one of the asks. *)
Theorem minAsk_least (as_ : list (list string)) :
  minAsk newBigNumber as_ <> BN_NaN
  /\ lte (minAsk newBigNumber as_)
       (BN (123456789012345678901234567890 # 1)) = true
  /\ (forall numbers, In numbers as_ ->
        firstAsBN newBigNumber numbers = BN_NaN
        \/ lte (minAsk newBigNumber as_) (firstAsBN newBigNumber numbers)
           = true)
  /\ (minAsk newBigNumber as_ = BN (123456789012345678901234567890 # 1)
      \/ exists numbers, In numbers as_
           /\ minAsk newBigNumber as_ = firstAsBN newBigNumber numbers).
Proof.
  unfold minAsk.
  destruct (fold_min (map (firstAsBN newBigNumber) as_)
              (BN (123456789012345678901234567890 # 1)))
    as (Hn & Hle & Hall & Hin); [discriminate|].
  split; [exact Hn|]. split; [exact Hle|]. split.
  - intros numbers Hnum. apply Hall, in_map, Hnum.
  - destruct Hin as [Hin|Hin]; [left; exact Hin|right].
    apply in_map_iff in Hin. destruct Hin as (numbers & Heq & Hnum).
    exists numbers. split; [exact Hnum|symmetry; exact Heq].
Qed.

(** [pricesResponse] accepts a response exactly when every pair has a
    non-empty name and passes [validatedPrices] (or when there is no
    [prices] member at all). *)
Theorem pricesResponse_accepts (prices : list (string * PairPrices)) :
  pricesResponse newBigNumber (Some prices) = None
  <-> Forall (fun entry =>
                (1 <= String.length (fst entry))%nat
                /\ validatedPrices newBigNumber (snd entry) = None)
        prices.
Proof.
  cbn [pricesResponse].
  induction prices as [|[key values] rest IH]; cbn [validatePairs].
  - split; [constructor|reflexivity].
  - destruct (Nat.leb_spec 1 (String.length key)) as [Hkey|Hkey].
    + destruct (validatedPrices newBigNumber values) eqn:Hv.
      * split; [discriminate|]. intros H. inversion H as [|? ? Hhead _].
        cbn in Hhead. destruct Hhead as [_ Hhead]. congruence.
      * rewrite IH. split.
        -- intros H. constructor; [split; assumption|exact H].
        -- intros H. inversion H; assumption.
    + split; [discriminate|]. intros H. inversion H as [|? ? Hhead _].
      cbn in Hhead. lia.
Qed.

End BookExtremes.

(** ** The levels snapshot and the restriction of makers *)

Section LevelsFacts.
Variable toNumber : string -> JsNumber.
Variable HASHFLOW_MM_RESTRICT_TTL_S : Z.
Variable PRICE_LEVELS_TTL_SECONDS : Z.
Variable disabledMMs : gset string.
Variable JSON_parse : string -> Completion LevelsMap.
Variable JSON_stringify : LevelsMap -> string.

Lemma entries_hdel (c : Cache) (fields : list string) :
  entries (hdel c fields) = entries c.
Proof. reflexivity. Qed.

(** A snapshot fetched from the API is stored under [levels] with the
    time-to-live PRICE_LEVELS_TTL_SECONDS.  Whatever else has changed in
    the cache since, for as long as the snapshot is in it a call returns
    the stored string parsed back and leaves the cache as it is, whatever
    the API's answers then are; once the snapshot is gone the API is
    asked again. *)
Theorem getLevelsWithCache_miss_then_hit (now now' : Z)
    (getMarketMakers getMarketMakers' : Completion (list string))
    (getPriceLevels getPriceLevels' : list string -> Completion LevelsMap)
    (c c' c2 : Cache) (levels : LevelsMap) :
  cacheGet c "levels" = None \/ cacheGet c "levels" = Some "" ->
  JSON_stringify levels <> "" ->
  getLevelsWithCache toNumber HASHFLOW_MM_RESTRICT_TTL_S
    PRICE_LEVELS_TTL_SECONDS now disabledMMs JSON_parse JSON_stringify
    getMarketMakers getPriceLevels c = (c', Normal levels) ->
  entries c' !! "levels"
  = Some (PRICE_LEVELS_TTL_SECONDS, JSON_stringify levels)
  /\ (cacheGet c2 "levels" = Some (JSON_stringify levels) ->
      getLevelsWithCache toNumber HASHFLOW_MM_RESTRICT_TTL_S
        PRICE_LEVELS_TTL_SECONDS now' disabledMMs JSON_parse JSON_stringify
        getMarketMakers' getPriceLevels' c2
      = (c2, JSON_parse (JSON_stringify levels)))
  /\ (cacheGet c2 "levels" = None ->
      forall e,
        getLevelsWithCache toNumber HASHFLOW_MM_RESTRICT_TTL_S
          PRICE_LEVELS_TTL_SECONDS now' disabledMMs JSON_parse
          JSON_stringify (Throw e) getPriceLevels' c2
        = (c2, Throw e)).
Proof.
  intros Hmiss Hstr. unfold getLevelsWithCache at 1.
  assert (Hfetch : forall (A : Type) (hit : string -> A) (miss : A),
             match cacheGet c "levels" with
             | Some (String _ _ as cachedLevels) => hit cachedLevels
             | _ => miss
             end = miss)
    by (intros A hit miss; destruct Hmiss as [-> | ->]; reflexivity).
  rewrite Hfetch.
  destruct getMarketMakers as [allMakers|e]; [|discriminate].
  destruct (getFilteredMarketMakers _ _ _ _ _ _) as [makers scheduled].
  destruct (getPriceLevels makers) as [levels0|e]; [|discriminate].
  intros H. injection H as <- <-. split; [|split].
  - unfold setex. cbn [entries]. apply lookup_insert_eq.
  - intros Hlive. unfold getLevelsWithCache. rewrite Hlive.
    destruct (JSON_stringify levels0); [congruence|reflexivity].
  - intros Hgone e. unfold getLevelsWithCache. rewrite Hgone. reflexivity.
Qed.

(** Restricting a maker drops the snapshot, so the next call within the
    window asks the API again, and for makers that do not include the
    restricted one. *)
Theorem getLevelsWithCache_after_restrictMM (t now : Z)
    (getPriceLevels : list string -> Completion LevelsMap)
    (allMakers : list string) (c : Cache) (mm : string) :
  toNumber (Z_to_string t) = Num (inject_Z t) ->
  now - HASHFLOW_MM_RESTRICT_TTL_S * 1000 <= t ->
  exists makers,
    ~ In mm makers
    /\ sublist makers allMakers
    /\ snd (getLevelsWithCache toNumber HASHFLOW_MM_RESTRICT_TTL_S
              PRICE_LEVELS_TTL_SECONDS now disabledMMs JSON_parse
              JSON_stringify (Normal allMakers) getPriceLevels
              (restrictMM t c mm))
       = getPriceLevels makers.
Proof.
  intros Hnum Hwithin.
  exists (fst (getFilteredMarketMakers toNumber HASHFLOW_MM_RESTRICT_TTL_S
                 now disabledMMs (restrictMM t c mm) allMakers)).
  split; [|split].
  - intros Hin. apply getFilteredMarketMakers_In in Hin as (_ & _ & Hall).
    specialize (Hall (Z_to_string t)).
    cbn [restrictMM restricted_mms] in Hall.
    rewrite lookup_insert_eq in Hall. specialize (Hall eq_refl).
    rewrite Hnum in Hall. unfold expirationThreshold in Hall.
    rewrite Number_lt_fin, <- Zlt_Qlt in Hall. lia.
  - unfold getFilteredMarketMakers.
    destruct (parseCacheRestrictionAndExpiryIfNeeded _ _ _ _)
      as [set scheduled].
    cbn [fst]. induction allMakers as [|a l IH]; [constructor|].
    cbn [List.filter]. destruct (negb _); constructor; exact IH.
  - unfold getLevelsWithCache, cacheGet.
    cbn [restrictMM entries]. rewrite lookup_delete_eq. cbn [option_map].
    destruct (getFilteredMarketMakers _ _ _ _ _ _) as [makers scheduled].
    cbn [fst]. destruct (getPriceLevels makers); reflexivity.
Qed.
End LevelsFacts.

Lemma getLevelsWithCache_miss_then_hit_example :
  getLevelsWithCache integerToNumber 600 5 10000500 ∅
    (fun _ => Normal lowerCaseMakerLevels) (fun _ => "{...}")
    (Throw {| errClass := PlainError; message := "down" |})
    (fun _ => Throw {| errClass := PlainError; message := "down" |})
    (setBlacklist 3600 (setex emptyCache "levels" 5 "{...}") "0xAbC")
  = (setBlacklist 3600 (setex emptyCache "levels" 5 "{...}") "0xAbC",
     Normal lowerCaseMakerLevels).
Proof.
  pose proof
    (getLevelsWithCache_miss_then_hit integerToNumber 600 5 ∅
       (fun _ => Normal lowerCaseMakerLevels) (fun _ => "{...}")
       10000000 10000500 (Normal ["mm1"])
       (Throw {| errClass := PlainError; message := "down" |})
       (fun _ => Normal lowerCaseMakerLevels)
       (fun _ => Throw {| errClass := PlainError; message := "down" |})
       emptyCache (setex emptyCache "levels" 5 "{...}")
       (setBlacklist 3600 (setex emptyCache "levels" 5 "{...}") "0xAbC")
       lowerCaseMakerLevels) as H.
  destruct H as (_ & Hlive & _).
  - left. reflexivity.
  - discriminate.
  - vm_compute. reflexivity.
  - apply Hlive. vm_compute. reflexivity.
Defined.

Lemma getLevelsWithCache_after_restrictMM_example :
  exists makers,
    ~ In "mm1" makers
    /\ sublist makers ["mm1"; "mm2"]
    /\ snd (getLevelsWithCache integerToNumber 600 5 10500000 ∅
              (fun _ => Normal lowerCaseMakerLevels) (fun _ => "{...}")
              (Normal ["mm1"; "mm2"]) (fun _ => Normal lowerCaseMakerLevels)
              (restrictMM 10000000
                 (setex emptyCache "levels" 5 "{...}") "mm1"))
       = Normal lowerCaseMakerLevels.
Proof.
  apply (getLevelsWithCache_after_restrictMM integerToNumber 600 5 ∅
           (fun _ => Normal lowerCaseMakerLevels) (fun _ => "{...}")
           10000000 10500000 (fun _ => Normal lowerCaseMakerLevels)
           ["mm1"; "mm2"] (setex emptyCache "levels" 5 "{...}") "mm1").
  - reflexivity.
  - vm_compute. discriminate.
Defined.

(** ** The message of a failed validation *)

Section ValidationMessage.

Lemma prefix_iff_append (needle s : string) :
  String.prefix needle s = true <-> exists b, s = needle +:+ b.
Proof.
  revert s. induction needle as [|c needle IH]; intros s.
  - split; [intros _; exists s; reflexivity|destruct s; reflexivity].
  - destruct s as [|d s]; cbn [String.prefix].
    + split; [discriminate|]. intros [b Hb]. rewrite append_cons in Hb.
      discriminate.
    + destruct (ascii_dec c d) as [->|Hcd].
      * rewrite IH. split; intros [b Hb]; exists b.
        -- rewrite append_cons, Hb. reflexivity.
        -- rewrite append_cons in Hb. congruence.
      * split; [discriminate|]. intros [b Hb]. rewrite append_cons in Hb.
        congruence.
Qed.

Lemma dropChars_length (k : nat) (s : string) :
  String.length (dropChars k s) = (String.length s - k)%nat.
Proof.
  revert s. induction k as [|k IH]; intros [|c s]; cbn; auto.
Qed.

Lemma dropChars_suffix (k : nat) (s : string) :
  exists before, s = before +:+ dropChars k s.
Proof.
  revert s. induction k as [|k IH]; intros s.
  - exists EmptyString. reflexivity.
  - destruct s as [|c s]; [exists EmptyString; reflexivity|].
    destruct (IH s) as [before Hb]. exists (String c before).
    rewrite append_cons. cbn [dropChars]. rewrite <- Hb. reflexivity.
Qed.

Lemma indexOf_from_spec (needle s : string) (i : Z) :
  (indexOf_from needle s i = -1
   /\ forall a b, s <> a +:+ needle +:+ b)
  \/ (exists k, indexOf_from needle s i = i + Z.of_nat k
                /\ (k <= String.length s)%nat
                /\ String.prefix needle (dropChars k s) = true
                /\ forall j, (j < k)%nat ->
                     String.prefix needle (dropChars j s) = false).
Proof.
  revert i. induction s as [|c s IH]; intros i; cbn [indexOf_from].
  - destruct (String.prefix needle "") eqn:Hp.
    + right. exists O. rewrite Z.add_0_r.
      repeat split; auto. intros j Hj. lia.
    + left. split; [reflexivity|]. intros [|x a] b H.
      * assert (Hpre : String.prefix needle "" = true)
          by (apply prefix_iff_append; exists b; exact H).
        congruence.
      * rewrite append_cons in H. discriminate.
  - destruct (String.prefix needle (String c s)) eqn:Hp.
    + right. exists O. rewrite Z.add_0_r. split; [reflexivity|].
      split; [apply Nat.le_0_l|]. split; [exact Hp|]. intros j Hj. lia.
    + destruct (IH (i + 1)) as [[Hnone Hocc]|[k (Hk & Hlen & Hpre & Hmin)]].
      * left. split; [exact Hnone|]. intros [|x a] b H.
        -- assert (Hpre : String.prefix needle (String c s) = true)
             by (apply prefix_iff_append; exists b; exact H).
           congruence.
        -- rewrite append_cons in H. injection H as _ H.
           exact (Hocc a b H).
      * right. exists (S k). split; [rewrite Hk; lia|].
        split; [cbn [String.length]; lia|]. split; [exact Hpre|].
        intros [|j] Hj; [exact Hp|]. cbn [dropChars]. apply Hmin. lia.
Qed.

(** When a validation fails and a name is given, the error raised carries
    the name in double quotes followed by the part of the schema's message
    that starts at the first [must]; when the message has no [must], only
    its last character is kept. *)
Theorem validateAndCast_named_message {V T : Type}
    (schema_validate : V -> option string * T) (value : V) (parsed : T)
    (name error_message : string) :
  schema_validate value = (Some error_message, parsed) ->
  name <> "" ->
  exists before kept,
    validateAndCast schema_validate value (Some name)
    = inr (newValidationError (dquote +:+ name +:+ dquote +:+ " " +:+ kept)
             None)
    /\ error_message = before +:+ kept
    /\ ((exists a b, error_message = a +:+ "must" +:+ b) ->
        String.prefix "must" kept = true
        /\ forall j, (j < String.length before)%nat ->
             String.prefix "must" (dropChars j error_message) = false)
    /\ (~ (exists a b, error_message = a +:+ "must" +:+ b) ->
        String.length kept = Nat.min 1 (String.length error_message)).
Proof.
  intros Hschema Hname. unfold validateAndCast. rewrite Hschema.
  destruct name as [|n0 name]; [congruence|].
  set (kept := slice error_message (indexOf error_message "must")).
  destruct (indexOf_from_spec "must" error_message 0)
    as [[Hnone Hocc]|[k (Hk & Hlen & Hpre & Hmin)]].
  - assert (Hkept : kept = dropChars
                             (Z.to_nat (Z.max (Z.of_nat
                                (String.length error_message) + -1) 0))
                             error_message).
    { unfold kept, slice, indexOf. rewrite Hnone. reflexivity. }
    destruct (dropChars_suffix
                (Z.to_nat (Z.max (Z.of_nat (String.length error_message)
                                  + -1) 0)) error_message)
      as [before Hb].
    exists before, kept. split; [reflexivity|].
    split; [rewrite Hkept; exact Hb|]. split.
    + intros (a & b & Hab). exfalso. exact (Hocc a b Hab).
    + intros _. rewrite Hkept, dropChars_length. lia.
  - assert (Hkept : kept = dropChars k error_message).
    { unfold kept, slice, indexOf. rewrite Hk.
      replace (0 + Z.of_nat k <? 0) with false by (symmetry; lia).
      f_equal. lia. }
    destruct (dropChars_suffix k error_message) as [before Hb].
    exists before, kept. split; [reflexivity|].
    split; [rewrite Hkept; exact Hb|]. split.
    + intros _. split; [rewrite Hkept; exact Hpre|].
      intros j Hj. apply Hmin.
      assert (Hl : String.length error_message
                   = (String.length before
                      + String.length (dropChars k error_message))%nat).
      { rewrite Hb at 1. clear. induction before as [|c b IH];
          [reflexivity|]. rewrite append_cons. cbn [String.length].
        rewrite IH. reflexivity. }
      rewrite dropChars_length in Hl. lia.
    + intros Hno. exfalso. apply Hno.
      apply prefix_iff_append in Hpre as [b Hpre].
      exists before, b. rewrite Hb at 1. rewrite Hpre. reflexivity.
Qed.

End ValidationMessage.

Lemma validateAndCast_named_message_example :
  exists before kept,
    validateAndCast (fun _ : string => (Some "value is required", 0))
      "order" (Some "order")
    = inr (newValidationError (dquote +:+ "order" +:+ dquote +:+ " " +:+ kept)
             None)
    /\ "value is required" = before +:+ kept
    /\ ((exists a b, "value is required" = a +:+ "must" +:+ b) ->
        String.prefix "must" kept = true
        /\ forall j, (j < String.length before)%nat ->
             String.prefix "must" (dropChars j "value is required") = false)
    /\ (~ (exists a b, "value is required" = a +:+ "must" +:+ b) ->
        String.length kept = Nat.min 1 (String.length "value is required")).
Proof.
  apply (validateAndCast_named_message
           (fun _ : string => (Some "value is required", 0)) "order" 0
           "order" "value is required").
  - reflexivity.
  - discriminate.
Defined.

Lemma validateAndCast_last_character :
  validateAndCast (fun _ : string => (Some "value is required", 0))
    "order" (Some "order")
  = inr (newValidationError (dquote +:+ "order" +:+ dquote +:+ " d") None).
Proof. vm_compute. reflexivity. Qed.
